(** * Client-side RBAC console: session store, route guard, gated views

    A shallow embedding of the TypeScript sources
      - [src/lib/api.ts]                    (the API client),
      - [src/contexts/AuthContext.tsx]      (the session store),
      - [src/components/ProtectedRoute.tsx] (the authorization guard),
      - [src/pages/{Users,Roles,Permissions,RolePermissions}.tsx],
      - [src/components/layout/{AppSidebar,DashboardHeader}.tsx],
      - [src/App.tsx] and [src/pages/Dashboard.tsx]
    and the properties of the authorization model stated about them.

    Asynchronous functions are written in a small state-and-exception
    monad ([Task]) over the component state and the state of the network
    peer; every [await] of a network call records the request together
    with the component state that is visible while the call is pending.
    A [Task] runs from its call to its end: it describes a function that
    nothing else interleaves with.  The operations of the session store
    are given a second time as trees of steps ([Overlap]), which can be
    suspended at their network calls and resumed in any order; run
    alone, the tree of an operation is the [Task] of that operation. *)

From Stdlib Require Import String Ascii List ZArith Bool Lia.
From Stdlib Require Import DecimalString DecimalZ DecimalPos DecimalFacts.
From Stdlib Require Import Permutation.
Import ListNotations.

Local Open Scope string_scope.
Local Open Scope Z_scope.

(* ===================================================================== *)
(** ** JavaScript built-ins used by the sources *)
(* ===================================================================== *)

Module Js.

(** [s.includes(sub)] on strings. *)
Fixpoint includes (sub s : string) : bool :=
  if String.prefix sub s then true
  else match s with
       | EmptyString => false
       | String _ rest => includes sub rest
       end.

(** [arr.includes(x)] on an array of strings. *)
Definition array_includes (x : string) (arr : list string) : bool :=
  existsb (String.eqb x) arr.

(** Truthiness of a possibly undefined string: [undefined] and [''] are
    falsy, every other string is truthy. *)
Definition truthy (o : option string) : bool :=
  match o with
  | Some s => negb (String.eqb s "")
  | None => false
  end.

(** [a || b] where [a] may be undefined and [b] is a string. *)
Definition or_else (a : option string) (b : string) : string :=
  match a with
  | Some s => if String.eqb s "" then b else s
  | None => b
  end.

(** [n.toString()] and a number inside a template literal, for the
    integers that serve as record ids and HTTP status codes. *)
Definition toString (n : Z) : string :=
  NilZero.string_of_int (Z.to_int n).

Definition is_digit (c : ascii) : bool :=
  ((48 <=? nat_of_ascii c)%nat && (nat_of_ascii c <=? 57)%nat)%bool.

(** White space skipped by [parseInt]: space, tab, LF, VT, FF, CR. *)
Definition is_space (c : ascii) : bool :=
  let n := nat_of_ascii c in
  ((n =? 32)%nat || ((9 <=? n)%nat && (n <=? 13)%nat))%bool.

Fixpoint skip_spaces (s : string) : string :=
  match s with
  | String c rest => if is_space c then skip_spaces rest else s
  | EmptyString => EmptyString
  end.

Fixpoint take_digits (s : string) : string :=
  match s with
  | String c rest =>
      if is_digit c then String c (take_digits rest) else EmptyString
  | EmptyString => EmptyString
  end.

(** [parseInt(s)] in radix 10: leading white space is skipped, an
    optional sign is read, then the longest run of decimal digits;
    [None] stands for [NaN] (no digit found).  The hexadecimal prefix
    [0x] is read as the digit [0]. *)
Definition parseInt (s : string) : option Z :=
  let s1 := skip_spaces s in
  let '(negative, body) :=
    match s1 with
    | String "-"%char rest => (true, rest)
    | String "+"%char rest => (false, rest)
    | _ => (false, s1)
    end in
  match NilZero.uint_of_string (take_digits body) with
  | Some u => Some (if negative then - Z.of_uint u else Z.of_uint u)
  | None => None
  end.

(** A text is the sequence of its bytes in UTF-8: a character of ASCII
    is one byte below 128, any other character a run of bytes from 128
    on. *)
Fixpoint is_ascii (s : string) : bool :=
  match s with
  | EmptyString => true
  | String c rest => ((nat_of_ascii c <? 128)%nat && is_ascii rest)%bool
  end.

Definition lower_char (c : ascii) : ascii :=
  let n := nat_of_ascii c in
  if ((65 <=? n)%nat && (n <=? 90)%nat)%bool then ascii_of_nat (n + 32) else c.

(** The letters A to Z lowered, every other byte kept. *)
Fixpoint lower_ascii (s : string) : string :=
  match s with
  | EmptyString => EmptyString
  | String c rest => String (lower_char c) (lower_ascii rest)
  end.

(** [s.toLowerCase()].  On a text of ASCII characters it lowers the
    letters A to Z.  On a text with a character outside ASCII the result
    is decided by the Unicode case tables and by the context of a
    character (a final sigma), which are not written out here:
    [unicode_lower] stands for the built-in on such texts, and nothing is
    assumed of it. *)
Definition toLowerCase (unicode_lower : string -> string) (s : string) : string :=
  if is_ascii s then lower_ascii s else unicode_lower s.

(** [s.split('.')[0]]: the part of [s] before its first dot. *)
Fixpoint before_dot (s : string) : string :=
  match s with
  | EmptyString => EmptyString
  | String c rest =>
      if Ascii.eqb c "."%char then EmptyString else String c (before_dot rest)
  end.

(** The names of the members a plain object ([{}]) inherits from
    [Object.prototype].  Read under such a name, an object that has no
    own property of the name gives the inherited member: a function, or
    for [__proto__] the prototype itself; either is truthy and has no
    member [push]. *)
Definition Object_prototype : list string :=
  [ "constructor"; "hasOwnProperty"; "isPrototypeOf"; "propertyIsEnumerable";
    "toLocaleString"; "toString"; "valueOf"; "__proto__";
    "__defineGetter__"; "__defineSetter__"; "__lookupGetter__";
    "__lookupSetter__" ].

Definition inherited (key : string) : bool :=
  array_includes key Object_prototype.

(** The number an integer-like key (an array index) stands for: the key
    is the decimal rendering of an integer from 0 to 2^32 - 2. *)
Definition array_index (key : string) : option Z :=
  match parseInt key with
  | Some n =>
      if (String.eqb (toString n) key && (0 <=? n) && (n <=? 4294967294))%bool
      then Some n else None
  | None => None
  end.

Fixpoint insert_by_index {A} (x : Z * A) (sorted : list (Z * A)) : list (Z * A) :=
  match sorted with
  | [] => [x]
  | y :: rest =>
      if fst x <=? fst y then x :: sorted else y :: insert_by_index x rest
  end.

(** [Object.entries(o)], for an object given by its own properties in
    the order of their creation: the properties with an integer-like key
    come first, by ascending number, then the others in the order of
    their creation. *)
Definition Object_entries {A} (o : list (string * A)) : list (string * A) :=
  (map snd
       (fold_right insert_by_index []
          (flat_map (fun e => match array_index (fst e) with
                              | Some n => [(n, e)]
                              | None => []
                              end) o))
     ++ filter (fun e => match array_index (fst e) with
                         | Some _ => false
                         | None => true
                         end) o)%list.

(** Values a [throw] can carry: an [Error] object with its message, or
    anything that is not an instance of [Error]. *)
Inductive Thrown : Type :=
| JsError (message : string)
| NonError.

Definition instanceof_Error (e : Thrown) : bool :=
  match e with JsError _ => true | NonError => false end.

(** [error.message] of a caught value ([undefined] when it has none). *)
Definition message_of (e : Thrown) : option string :=
  match e with JsError m => Some m | NonError => None end.

(** Completion of a computation: normal, or abrupt by [throw]. *)
Inductive Result (A : Type) : Type :=
| Ok (a : A)
| Throw (e : Thrown).
Arguments Ok {A} a.
Arguments Throw {A} e.

End Js.
Import Js.

(* ===================================================================== *)
(** ** src/lib/api.ts *)
(* ===================================================================== *)

Module Api.

(** *** Types for API responses *)

Record Role : Type := mkRole {
  Role_id : Z;
  Role_name : string;
  Role_description : string;
  Role_active : bool;
  Role_created_at : string;
  Role_updated_at : string }.

Record Permission : Type := mkPermission {
  Permission_id : Z;
  Permission_name : string;
  Permission_description : string;
  Permission_created_at : string;
  Permission_updated_at : string }.

Record RolePermission : Type := mkRolePermission {
  RP_id : Z;
  RP_role_id : Z;
  RP_permission_id : Z;
  RP_role : Role;
  RP_permission : Permission;
  RP_created_at : string;
  RP_updated_at : string }.

Record User : Type := mkUser {
  User_id : Z;
  User_name : string;
  User_email : string;
  User_role_id : Z;
  User_role : Role;
  User_active : bool;
  User_created_at : string;
  User_updated_at : string }.

(** The [data] member of a response, as far as the callers look into
    it: an object (of which only the [user] member is ever read), an
    array of role-permission rows, or anything else. *)
Inductive Data : Type :=
| DObject (user : option User)
| DArray (rows : list RolePermission)
| DOther.

Definition isArray (d : option Data) : bool :=
  match d with Some (DArray _) => true | _ => false end.

(** [interface ApiResponse]; a member that a response may lack is an
    option ([message] is read with a fallback by every caller). *)
Record ApiResponse : Type := mkApiResponse {
  success : bool;
  route : string;
  message : option string;
  data : option Data;
  error : option string }.

(** What the callers pass as request data, before [JSON.stringify]. *)
Inductive Payload : Type :=
| LoginData (email password : string)
| RegisterData (name email password : string) (role_id : Z)
| AssignmentData (role_id : option Z) (permission_id : Z).

(** [RequestInit], with the members the client sets. *)
Record RequestInit : Type := mkRequestInit {
  method : option string;
  body : option Payload;
  headers : option (list (string * string));
  credentials : option string }.

Definition only_method (m : string) (b : option Payload) : RequestInit :=
  {| method := Some m; body := b; headers := None; credentials := None |}.

(** The two arguments of [fetch]. *)
Record Request : Type := mkRequest {
  url : string;
  config : RequestInit }.

(** [response.json()]: the parsed object, or a rejection with the
    parser's message.  (A body that parses to something that is not an
    object, such as [null], is not covered.) *)
Inductive Parsed : Type :=
| Json (e : ApiResponse)
| Malformed (why : string).

Record Response : Type := mkResponse {
  status : Z;
  statusText : string;
  json : Parsed }.

(** [response.ok]: the status is in the range 200-299. *)
Definition ok (r : Response) : bool :=
  (200 <=? status r) && (status r <=? 299).

(** The promise returned by [fetch] either rejects or resolves. *)
Inductive FetchResult : Type :=
| Rejected (e : Thrown)
| Resolved (r : Response).

Definition API_BASE_URL (VITE_API_URL : option string) : string :=
  or_else VITE_API_URL "http://localhost:3000/api".

Section ApiClient.

Variable baseURL : string.
Context {W : Type}.
Variable fetch : Request -> W -> FetchResult * W.

(** [url] and [config] as [request] builds them; the spread of
    [options] comes last and so overrides [headers] and
    [credentials] when it has them. *)
Definition prepare (endpoint : string) (options : RequestInit) : Request :=
  {| url := baseURL ++ endpoint;
     config :=
       {| method := method options;
          body := body options;
          headers :=
            match headers options with
            | Some h => Some h
            | None => Some [("Content-Type", "application/json")]
            end;
          credentials :=
            match credentials options with
            | Some c => Some c
            | None => Some "include"
            end |} |}.

(** The [try] block of [request], from the settled [fetch] on. *)
Definition request_try (settled : FetchResult) : Result ApiResponse :=
  match settled with
  | Rejected e => Throw e
  | Resolved response =>
      if negb (ok response) then
        if status response =? 429 then
          Throw (JsError "Rate limit exceeded. Please try again later.")
        else
          let errorData_message :=
            match json response with
            | Json errorData => message errorData
            | Malformed _ => None
            end in
          Throw (JsError
                   (or_else errorData_message
                      ("HTTP " ++ toString (status response) ++ ": "
                         ++ statusText response)))
      else
        match json response with
        | Json data => Ok data
        | Malformed why => Throw (JsError why)
        end
  end.

(** The [catch] block of [request] (the [console.error] is not
    modelled). *)
Definition request_catch (r : Result ApiResponse) : Result ApiResponse :=
  match r with
  | Ok data => Ok data
  | Throw error =>
      if instanceof_Error error then Throw error
      else Throw (JsError "Network error occurred")
  end.

Definition request (endpoint : string) (options : RequestInit) (w : W)
  : Result ApiResponse * W :=
  let '(settled, w') := fetch (prepare endpoint options) w in
  (request_catch (request_try settled), w').

Definition get (endpoint : string) : W -> Result ApiResponse * W :=
  request endpoint (only_method "GET" None).

Definition post (endpoint : string) (data : option Payload)
  : W -> Result ApiResponse * W :=
  request endpoint (only_method "POST" data).

Definition put (endpoint : string) (data : option Payload)
  : W -> Result ApiResponse * W :=
  request endpoint (only_method "PUT" data).

Definition delete (endpoint : string) (data : option Payload)
  : W -> Result ApiResponse * W :=
  request endpoint (only_method "DELETE" data).

End ApiClient.

(** The argument of [toast]. *)
Record Toast : Type := mkToast {
  title : string;
  description : string;
  variant : option string }.

(** [handleRateLimit], on the message of the [Error] it is given. *)
Definition handleRateLimit (error_message : string) : Toast :=
  if includes "Rate limit" error_message then
    {| title := "Rate Limit Exceeded";
       description := "Please wait a moment before trying again.";
       variant := Some "destructive" |}
  else
    {| title := "Error";
       description := error_message;
       variant := Some "destructive" |}.

End Api.

(* ===================================================================== *)
(** ** Asynchronous functions over component state *)
(* ===================================================================== *)

Module Task.

(** A configuration: the component state [st] (what the last render
    saw and the next one will see), the network peer [world], the
    requests sent so far, each with the component state that stays on
    screen while it is pending, and the toasts shown so far.

    The only points at which a function gives way to a render are its
    network calls: state setters that run between two network calls
    take effect together (React applies them in one batch), so the
    states a render can see are those recorded at the calls and the one
    an operation ends with. *)
Record Cfg (S W : Type) : Type := mkCfg {
  st : S;
  world : W;
  trace : list (Api.Request * S);
  toasts : list Api.Toast }.
Arguments mkCfg {S W} _ _ _ _.
Arguments st {S W} _.
Arguments world {S W} _.
Arguments trace {S W} _.
Arguments toasts {S W} _.

Definition Task (S W A : Type) : Type := Cfg S W -> Result A * Cfg S W.

Section Combinators.

Context {S W : Type}.

Definition ret {A} (a : A) : Task S W A := fun c => (Ok a, c).

Definition bind {A B} (m : Task S W A) (k : A -> Task S W B) : Task S W B :=
  fun c =>
    match m c with
    | (Ok a, c') => k a c'
    | (Throw e, c') => (Throw e, c')
    end.

Definition throw {A} (e : Thrown) : Task S W A := fun c => (Throw e, c).

(** [try { body } catch (error) { handler }]: state changes made
    before the throw stay. *)
Definition try_catch {A} (body : Task S W A) (handler : Thrown -> Task S W A)
  : Task S W A :=
  fun c =>
    match body c with
    | (Ok a, c') => (Ok a, c')
    | (Throw e, c') => handler e c'
    end.

(** [try { body } finally { final }]. *)
Definition try_finally {A} (body : Task S W A) (final : Task S W unit)
  : Task S W A :=
  fun c =>
    let '(r, c') := body c in
    match final c' with
    | (Ok _, c'') => (r, c'')
    | (Throw e, c'') => (Throw e, c'')
    end.

(** The state captured by the closure that is running. *)
Definition closure : Task S W S := fun c => (Ok (st c), c).

(** A state setter of [useState]. *)
Definition set_state (f : S -> S) : Task S W unit :=
  fun c => (Ok tt, mkCfg (f (st c)) (world c) (trace c) (toasts c)).

Definition toast (t : Api.Toast) : Task S W unit :=
  fun c => (Ok tt, mkCfg (st c) (world c) (trace c) (toasts c ++ [t])).

(** [fetch] as the component runs it: the request goes to the peer,
    and the state on screen while it is pending is recorded. *)
Definition fetch_pending (fetch : Api.Request -> W -> Api.FetchResult * W)
    (r : Api.Request) (c : Cfg S W) : Api.FetchResult * Cfg S W :=
  let '(settled, w') := fetch r (world c) in
  (settled, mkCfg (st c) w' (trace c ++ [(r, st c)]) (toasts c)).

End Combinators.

Declare Scope task_scope.
Delimit Scope task_scope with task.
Notation "x <- m ;; k" := (bind m (fun x => k))
  (at level 100, m at next level, right associativity) : task_scope.
Notation "m ;; k" := (bind m (fun _ => k))
  (at level 100, right associativity) : task_scope.

(** The requests sent by a run from [c] to [c']. *)
Definition sent {S W} (c : Cfg S W) : list Api.Request := map fst (trace c).

(** The states that were on screen at some await, and the current one. *)
Definition shown {S W} (c : Cfg S W) : list S := map snd (trace c) ++ [st c].

End Task.
Import Task.

(* ===================================================================== *)
(** ** src/contexts/AuthContext.tsx *)
(* ===================================================================== *)

Module AuthContext.

Import Api.

(** The three [useState] cells of [AuthProvider].  The [User] interface
    of the context has the members of [Api.User], its [role] without the
    two timestamps, which the context never reads; [Api.User] stands for
    both. *)
Record State : Type := mkState {
  user : option User;
  permissions : list string;
  loading : bool }.

Definition initial : State :=
  {| user := None; permissions := []; loading := true |}.

Definition setUser (u : option User) (s : State) : State :=
  {| user := u; permissions := permissions s; loading := loading s |}.

Definition setPermissions (p : list string) (s : State) : State :=
  {| user := user s; permissions := p; loading := loading s |}.

Definition setLoading (b : bool) (s : State) : State :=
  {| user := user s; permissions := permissions s; loading := b |}.

(** *** Query predicates *)

Definition hasPermission (s : State) (permission : string) : bool :=
  array_includes permission (permissions s).

(** [user?.role?.name === roleName]. *)
Definition hasRole (s : State) (roleName : string) : bool :=
  match user s with
  | Some u => String.eqb (Role_name (User_role u)) roleName
  | None => false
  end.

Definition isAdmin (s : State) : bool :=
  hasRole s "Super Admin" || hasRole s "Admin".

(** [response.data?.user]. *)
Definition data_user (d : option Data) : option User :=
  match d with Some (DObject u) => u | _ => None end.

Definition data_rows (d : option Data) : list RolePermission :=
  match d with Some (DArray rows) => rows | _ => [] end.

Section Provider.

Variable baseURL : string.
Context {W : Type}.
Variable fetch : Request -> W -> FetchResult * W.

Local Open Scope task_scope.

Definition api_get (endpoint : string) : Task State W ApiResponse :=
  Api.get baseURL (fetch_pending fetch) endpoint.

Definition api_post (endpoint : string) (d : option Payload)
  : Task State W ApiResponse :=
  Api.post baseURL (fetch_pending fetch) endpoint d.

Definition fetchPermissions (roleId : Z) : Task State W unit :=
  try_catch
    (response <- api_get ("/rolepermissions/role/" ++ toString roleId) ;;
     if success response && isArray (data response) then
       let permissionNames :=
         map (fun rp => Permission_name (RP_permission rp))
             (data_rows (data response)) in
       set_state (setPermissions permissionNames)
     else ret tt)
    (fun error => set_state (setPermissions [])).

Definition fetchUserData : Task State W unit :=
  try_finally
    (try_catch
       (response <- api_get "/userdata" ;;
        match (if success response then data_user (data response) else None) with
        | Some userData =>
            set_state (setUser (Some userData)) ;;
            fetchPermissions (User_role_id userData)
        | None => ret tt
        end)
       (fun error => ret tt))
    (set_state (setLoading false)).

Definition login (email password : string) : Task State W bool :=
  try_catch
    (response <- api_post "/login" (Some (LoginData email password)) ;;
     if success response then
       fetchUserData ;;
       toast {| title := "Login successful";
                description := "Welcome back to ERP Admin";
                variant := None |} ;;
       ret true
     else
       toast {| title := "Login failed";
                description := or_else (message response) "Invalid credentials";
                variant := Some "destructive" |} ;;
       ret false)
    (fun error =>
       toast {| title := "Login error";
                description :=
                  or_else (message_of error) "An error occurred during login";
                variant := Some "destructive" |} ;;
       ret false).

Definition register (name email password : string) (roleId : Z)
  : Task State W bool :=
  try_catch
    (response <- api_post "/register"
                   (Some (RegisterData name email password roleId)) ;;
     if success response then
       toast {| title := "Registration successful";
                description := "Account created successfully. Please login.";
                variant := None |} ;;
       ret true
     else
       toast {| title := "Registration failed";
                description :=
                  or_else (message response) "Failed to create account";
                variant := Some "destructive" |} ;;
       ret false)
    (fun error =>
       toast {| title := "Registration error";
                description :=
                  or_else (message_of error)
                    "An error occurred during registration";
                variant := Some "destructive" |} ;;
       ret false).

Definition logout : Task State W unit :=
  try_catch
    (_ <- api_get "/logout" ;;
     set_state (setUser None) ;;
     set_state (setPermissions []) ;;
     toast {| title := "Logged out";
              description := "You have been successfully logged out";
              variant := None |})
    (fun error => ret tt).

(** [if (user?.role_id)]: a role id of [0] is falsy. *)
Definition refreshPermissions : Task State W unit :=
  s <- closure ;;
  match user s with
  | Some u =>
      if negb (User_role_id u =? 0) then fetchPermissions (User_role_id u)
      else ret tt
  | None => ret tt
  end.

(** *** The operations of the store, run one after the other

    [Hydrate] is the [useEffect] that calls [fetchUserData] when the
    provider mounts; the others are the members of the context
    value. *)
Inductive Op : Type :=
| Hydrate
| Login (email password : string)
| Register (name email password : string) (roleId : Z)
| Logout
| RefreshPermissions.

Definition run (o : Op) (c : Cfg State W) : Cfg State W :=
  match o with
  | Hydrate => snd (fetchUserData c)
  | Login e p => snd (login e p c)
  | Register n e p r => snd (register n e p r c)
  | Logout => snd (logout c)
  | RefreshPermissions => snd (refreshPermissions c)
  end.

Definition mount (w : W) : Cfg State W := mkCfg initial w [] [].

(** Configurations the provider can be in between two operations, when
    every operation is started after the one before it has completed. *)
Inductive reachable : Cfg State W -> Prop :=
| reach_mount : forall w, reachable (mount w)
| reach_run : forall c o, reachable c -> reachable (run o c).

End Provider.

(** *** Shapes of the states of the store, for operations run in turn

    [settled s]: what holds between two operations: without an
    identity there are no permissions, and the loading flag is only up
    while there is no identity.  [on_screen s]: what holds of every
    state a render can see then, also in the middle of an operation. *)
Definition settled (s : State) : Prop :=
  (user s = None -> permissions s = []) /\ (loading s = true -> user s = None).

Definition on_screen (s : State) : Prop :=
  (user s = None -> permissions s = [])
  /\ (loading s = true -> permissions s = []).

Definition Inv {W} (c : Cfg State W) : Prop :=
  settled (st c) /\ Forall on_screen (map snd (trace c)).

End AuthContext.

(* ===================================================================== *)
(** ** Asynchronous functions that overlap *)
(* ===================================================================== *)

Module Overlap.

Import Api.

(** An asynchronous function as the tree of its steps.  It runs without
    interruption up to an [await] of a network call, gives way there, and
    goes on when the call has settled; what other functions or gestures
    do in between has happened to the state it then writes to.
    [Captured] reads the state of the render in which the function was
    created, which is the latest one when the function is called: it is
    only used as the first step of a function. *)
Inductive Proc (S A : Type) : Type :=
| Finish (r : Result A)
| Update (f : S -> S) (next : Proc S A)
| Notify (t : Toast) (next : Proc S A)
| Captured (next : S -> Proc S A)
| Await (rq : Request) (next : FetchResult -> Proc S A).
Arguments Finish {S A} r.
Arguments Update {S A} f next.
Arguments Notify {S A} t next.
Arguments Captured {S A} next.
Arguments Await {S A} rq next.

Section Combinators.

Context {S : Type}.

Fixpoint and_then {A B} (m : Proc S A) (k : A -> Proc S B) : Proc S B :=
  match m with
  | Finish (Ok a) => k a
  | Finish (Throw e) => Finish (Throw e)
  | Update f next => Update f (and_then next k)
  | Notify t next => Notify t (and_then next k)
  | Captured next => Captured (fun s => and_then (next s) k)
  | Await rq next => Await rq (fun settled => and_then (next settled) k)
  end.

(** [try { body } catch (error) { handler }]. *)
Fixpoint catching {A} (body : Proc S A) (handler : Thrown -> Proc S A)
  : Proc S A :=
  match body with
  | Finish (Ok a) => Finish (Ok a)
  | Finish (Throw e) => handler e
  | Update f next => Update f (catching next handler)
  | Notify t next => Notify t (catching next handler)
  | Captured next => Captured (fun s => catching (next s) handler)
  | Await rq next => Await rq (fun settled => catching (next settled) handler)
  end.

(** The [finally] block, run once the body has completed as [r]. *)
Fixpoint complete {A} (final : Proc S unit) (r : Result A) : Proc S A :=
  match final with
  | Finish (Ok _) => Finish r
  | Finish (Throw e) => Finish (Throw e)
  | Update f next => Update f (complete next r)
  | Notify t next => Notify t (complete next r)
  | Captured next => Captured (fun s => complete (next s) r)
  | Await rq next => Await rq (fun settled => complete (next settled) r)
  end.

(** [try { body } finally { final }]. *)
Fixpoint finally {A} (body : Proc S A) (final : Proc S unit) : Proc S A :=
  match body with
  | Finish r => complete final r
  | Update f next => Update f (finally next final)
  | Notify t next => Notify t (finally next final)
  | Captured next => Captured (fun s => finally (next s) final)
  | Await rq next => Await rq (fun settled => finally (next settled) final)
  end.

(** A call whose result nobody waits for. *)
Definition forget {A} (p : Proc S A) : Proc S unit :=
  and_then p (fun _ => Finish (Ok tt)).

End Combinators.

Declare Scope proc_scope.
Delimit Scope proc_scope with proc.
Notation "x <- m ;; k" := (and_then m (fun x => k))
  (at level 100, m at next level, right associativity) : proc_scope.
Notation "m ;; k" := (and_then m (fun _ => k))
  (at level 100, right associativity) : proc_scope.

(** *** src/contexts/AuthContext.tsx, step by step *)

Section Provider.

Import AuthContext.

Variable baseURL : string.

Local Open Scope proc_scope.

Definition set_state (f : State -> State) : Proc State unit :=
  Update f (Finish (Ok tt)).

Definition toast (t : Toast) : Proc State unit :=
  Notify t (Finish (Ok tt)).

Definition ret {A} (a : A) : Proc State A := Finish (Ok a).

(** [api.request]: one [fetch], then the rest of the [try] block and
    the [catch] block on what it settled to. *)
Definition api_request (endpoint : string) (options : RequestInit)
  : Proc State ApiResponse :=
  Await (prepare baseURL endpoint options)
        (fun settled => Finish (request_catch (request_try settled))).

Definition api_get (endpoint : string) : Proc State ApiResponse :=
  api_request endpoint (only_method "GET" None).

Definition api_post (endpoint : string) (d : option Payload)
  : Proc State ApiResponse :=
  api_request endpoint (only_method "POST" d).

Definition fetchPermissions (roleId : Z) : Proc State unit :=
  catching
    (response <- api_get ("/rolepermissions/role/" ++ toString roleId) ;;
     if success response && isArray (data response) then
       let permissionNames :=
         map (fun rp => Permission_name (RP_permission rp))
             (data_rows (data response)) in
       set_state (setPermissions permissionNames)
     else ret tt)
    (fun error => set_state (setPermissions [])).

Definition fetchUserData : Proc State unit :=
  finally
    (catching
       (response <- api_get "/userdata" ;;
        match (if success response then data_user (data response) else None) with
        | Some userData =>
            set_state (setUser (Some userData)) ;;
            fetchPermissions (User_role_id userData)
        | None => ret tt
        end)
       (fun error => ret tt))
    (set_state (setLoading false)).

Definition login (email password : string) : Proc State bool :=
  catching
    (response <- api_post "/login" (Some (LoginData email password)) ;;
     if success response then
       fetchUserData ;;
       toast {| title := "Login successful";
                description := "Welcome back to ERP Admin";
                variant := None |} ;;
       ret true
     else
       toast {| title := "Login failed";
                description := or_else (message response) "Invalid credentials";
                variant := Some "destructive" |} ;;
       ret false)
    (fun error =>
       toast {| title := "Login error";
                description :=
                  or_else (message_of error) "An error occurred during login";
                variant := Some "destructive" |} ;;
       ret false).

Definition register (name email password : string) (roleId : Z)
  : Proc State bool :=
  catching
    (response <- api_post "/register"
                   (Some (RegisterData name email password roleId)) ;;
     if success response then
       toast {| title := "Registration successful";
                description := "Account created successfully. Please login.";
                variant := None |} ;;
       ret true
     else
       toast {| title := "Registration failed";
                description :=
                  or_else (message response) "Failed to create account";
                variant := Some "destructive" |} ;;
       ret false)
    (fun error =>
       toast {| title := "Registration error";
                description :=
                  or_else (message_of error)
                    "An error occurred during registration";
                variant := Some "destructive" |} ;;
       ret false).

Definition logout : Proc State unit :=
  catching
    (_ <- api_get "/logout" ;;
     set_state (setUser None) ;;
     set_state (setPermissions []) ;;
     toast {| title := "Logged out";
              description := "You have been successfully logged out";
              variant := None |})
    (fun error => ret tt).

Definition refreshPermissions : Proc State unit :=
  Captured (fun s =>
    match user s with
    | Some u =>
        if negb (User_role_id u =? 0) then fetchPermissions (User_role_id u)
        else ret tt
    | None => ret tt
    end).

(** What a call of an operation of the store starts. *)
Definition start (o : Op) : Proc State unit :=
  match o with
  | Hydrate => fetchUserData
  | Login e p => forget (login e p)
  | Register n e p r => forget (register n e p r)
  | Logout => logout
  | RefreshPermissions => refreshPermissions
  end.

End Provider.

(** *** Running the steps *)

(** The functions that wait for a network call, each with the answer it
    will get, and the configuration they all write to. *)
Record Pool (S W : Type) : Type := mkPool {
  now : Cfg S W;
  pending : list (Proc S unit) }.
Arguments mkPool {S W} _ _.
Arguments now {S W} _.
Arguments pending {S W} _.

(** What happens next: an operation is called, or the network call that
    the [i]-th waiting function made settles. *)
Inductive Event (O : Type) : Type :=
| Call (o : O)
| Settle (i : nat).
Arguments Call {O} o.
Arguments Settle {O} i.

Definition without {X} (i : nat) (l : list X) : list X :=
  (firstn i l ++ skipn (S i) l)%list.

Section Runs.

Context {S W O : Type}.
Variable fetch : Request -> W -> FetchResult * W.

(** The whole of a function, every network call settling before
    anything else happens. *)
Fixpoint exec {A} (p : Proc S A) (c : Cfg S W) : Result A * Cfg S W :=
  match p with
  | Finish r => (r, c)
  | Update f next => exec next (mkCfg (f (st c)) (world c) (trace c) (toasts c))
  | Notify t next =>
      exec next (mkCfg (st c) (world c) (trace c) (toasts c ++ [t])%list)
  | Captured next => exec (next (st c)) c
  | Await rq next =>
      let '(settled, c') := fetch_pending fetch rq c in exec (next settled) c'
  end.

(** A function runs up to its next network call.  The request goes to
    the peer, which decides the answer; the function joins those that
    wait. *)
Fixpoint advance (p : Proc S unit) (c : Cfg S W) (others : list (Proc S unit))
  : Pool S W :=
  match p with
  | Finish _ => mkPool c others
  | Update f next =>
      advance next (mkCfg (f (st c)) (world c) (trace c) (toasts c)) others
  | Notify t next =>
      advance next (mkCfg (st c) (world c) (trace c) (toasts c ++ [t])%list) others
  | Captured next => advance (next (st c)) c others
  | Await rq next =>
      let '(settled, c') := fetch_pending fetch rq c in
      mkPool c' (others ++ [next settled])%list
  end.

Variable start : O -> Proc S unit.

Definition step (pool : Pool S W) (e : Event O) : Pool S W :=
  match e with
  | Call o => advance (start o) (now pool) (pending pool)
  | Settle i =>
      match nth_error (pending pool) i with
      | Some p => advance p (now pool) (without i (pending pool))
      | None => pool
      end
  end.

Definition play (schedule : list (Event O)) (pool : Pool S W) : Pool S W :=
  fold_left step schedule pool.

(** The schedules in which the operations run one after the other: no
    operation is called while a function waits for a network call. *)
Fixpoint in_turn (schedule : list (Event O)) (pool : Pool S W) : bool :=
  match schedule with
  | [] => true
  | e :: rest =>
      match e, pending pool with
      | Call _, _ :: _ => false
      | _, _ => in_turn rest (step pool e)
      end
  end.

End Runs.

(** The pools the session store can be in: from the mount of the
    provider, operations are called and network calls settle in any
    order. *)
Definition reachable {W} (baseURL : string)
    (fetch : Request -> W -> FetchResult * W)
    (pool : Pool AuthContext.State W) : Prop :=
  exists w schedule,
    pool = play fetch (start baseURL) schedule (mkPool (AuthContext.mount w) []).

(** What holds of a pool while the operations of the store run in turn:
    nothing is pending between two operations; during one, the function
    that waits is the only one, the state on screen is the one recorded
    with its call, and it will end where the operation ends. *)
Definition in_turn_pool {W} (baseURL : string)
    (fetch : Request -> W -> FetchResult * W)
    (pool : Pool AuthContext.State W) : Prop :=
  (pending pool = [] /\ AuthContext.reachable baseURL fetch (now pool))
  \/ (exists q,
        pending pool = [q]
        /\ AuthContext.reachable baseURL fetch (snd (exec fetch q (now pool)))
        /\ In (st (now pool)) (map snd (trace (now pool)))).

End Overlap.

(* ===================================================================== *)
(** ** src/components/ProtectedRoute.tsx *)
(* ===================================================================== *)

Module ProtectedRoute.

Import Api AuthContext.

Record Props (C : Type) : Type := mkProps {
  children : C;
  requiredPermission : option string;
  requiredRole : option string;
  requireAdmin : option bool }.
Arguments mkProps {C} _ _ _ _.
Arguments children {C} _.
Arguments requiredPermission {C} _.
Arguments requiredRole {C} _.
Arguments requireAdmin {C} _.

(** What the guard returns. *)
Inductive View (C : Type) : Type :=
| Spinner
| Navigate (to : string) (from : string) (replace : bool)
| DeniedAdmin
| DeniedRole (role : string)
| DeniedPermission (permission : string)
| Content (children : C).
Arguments Spinner {C}.
Arguments Navigate {C} _ _ _.
Arguments DeniedAdmin {C}.
Arguments DeniedRole {C} _.
Arguments DeniedPermission {C} _.
Arguments Content {C} _.

(** The text of a prop that is set to a non-empty string. *)
Definition text (o : option string) : string :=
  match o with Some s => s | None => "" end.

(** [location] is what [useLocation] returns; [requireAdmin]
    defaults to [false]. *)
Definition ProtectedRoute {C} (auth : State) (location : string) (props : Props C)
  : View C :=
  let requireAdmin :=
    match requireAdmin props with Some b => b | None => false end in
  if loading auth then Spinner
  else
    match user auth with
    | None => Navigate "/login" location true
    | Some _ =>
        if requireAdmin && negb (isAdmin auth) then DeniedAdmin
        else if truthy (requiredRole props)
                && negb (hasRole auth (text (requiredRole props)))
        then DeniedRole (text (requiredRole props))
        else if truthy (requiredPermission props)
                && negb (hasPermission auth (text (requiredPermission props)))
        then DeniedPermission (text (requiredPermission props))
        else Content (children props)
    end.

End ProtectedRoute.

(* ===================================================================== *)
(** ** src/pages: what the screens render *)
(* ===================================================================== *)

(** The controls of a rendered screen, in document order.  [needs] is
    not part of the output: it names the permission literal that the
    JSX of the control mentions, in the condition around it or in one of
    its props. *)
Module Ui.

Inductive Kind : Type := Button | MenuItem | Checkbox | Input | Select.

Record Control : Type := mkControl {
  kind : Kind;
  label : string;
  disabled : bool;
  checked : bool;
  needs : option string }.

Definition plain (k : Kind) (l : string) : Control :=
  {| kind := k; label := l; disabled := false; checked := false; needs := None |}.

Definition gated (p : string) (k : Kind) (l : string) : Control :=
  {| kind := k; label := l; disabled := false; checked := false; needs := Some p |}.

(** [{cond && <X/>}]. *)
Definition when (cond : bool) (x : Control) : list Control :=
  if cond then [x] else [].

(** A rendered control respects the gate when the permission it
    depends on is held. *)
Definition respects (hasPermission : string -> bool) (el : Control) : Prop :=
  forall p, needs el = Some p -> hasPermission p = true.

(** [text.toLowerCase().includes(searchQuery.toLowerCase())]. *)
Definition matches (unicode_lower : string -> string) (searchQuery text : string)
  : bool :=
  includes (toLowerCase unicode_lower searchQuery)
           (toLowerCase unicode_lower text).

End Ui.

Module Users.

Import Api Ui.

Record State : Type := mkState {
  users : list User;
  loading : bool;
  searchQuery : string }.

Section Screen.

(** [toLowerCase] on texts with a character outside ASCII. *)
Variable unicode_lower : string -> string.

Definition filteredUsers (s : State) : list User :=
  filter (fun user =>
            matches unicode_lower (searchQuery s) (User_name user)
            || matches unicode_lower (searchQuery s) (User_email user)
            || matches unicode_lower (searchQuery s) (Role_name (User_role user)))
         (users s).

Definition row (hasPermission : string -> bool) (user : User) : list Control :=
  [plain Button "Open menu"; plain MenuItem "View details"]
    ++ when (hasPermission "user.update") (gated "user.update" MenuItem "Edit user")
    ++ when (hasPermission "user.update")
         (gated "user.update" MenuItem
            (if User_active user then "Deactivate" else "Activate"))
    ++ when (hasPermission "user.delete")
         (gated "user.delete" MenuItem "Delete user").

Definition render (hasPermission : string -> bool) (s : State) : list Control :=
  if loading s then []
  else
    when (hasPermission "user.create") (gated "user.create" Button "Add User")
      ++ [plain Input "Search users..."]
      ++ flat_map (row hasPermission) (filteredUsers s).

End Screen.

End Users.

Module Roles.

Import Api Ui.

Record State : Type := mkState {
  roles : list Role;
  loading : bool;
  searchQuery : string }.

Section Screen.

(** [toLowerCase] on texts with a character outside ASCII. *)
Variable unicode_lower : string -> string.

Definition filteredRoles (s : State) : list Role :=
  filter (fun role =>
            matches unicode_lower (searchQuery s) (Role_name role)
            || matches unicode_lower (searchQuery s) (Role_description role))
         (roles s).

Definition row (hasPermission : string -> bool) (role : Role) : list Control :=
  [plain Button "Open menu"; plain MenuItem "View permissions"]
    ++ when (hasPermission "role.update") (gated "role.update" MenuItem "Edit role")
    ++ when (hasPermission "role.update")
         (gated "role.update" MenuItem
            (if Role_active role then "Deactivate" else "Activate"))
    ++ when (hasPermission "role.delete"
             && negb (array_includes (Role_name role) ["Super Admin"; "Admin"]))
         (gated "role.delete" MenuItem "Delete role").

Definition render (hasPermission : string -> bool) (s : State) : list Control :=
  if loading s then []
  else
    when (hasPermission "role.create") (gated "role.create" Button "Add Role")
      ++ [plain Input "Search roles..."]
      ++ flat_map (row hasPermission) (filteredRoles s).

End Screen.

End Roles.

Module Permissions.

Import Api Ui.

Record State : Type := mkState {
  permissions : list Permission;
  loading : bool;
  searchQuery : string }.

Section Screen.

(** [toLowerCase] on texts with a character outside ASCII. *)
Variable unicode_lower : string -> string.

Definition filteredPermissions (s : State) : list Permission :=
  filter (fun permission =>
            matches unicode_lower (searchQuery s) (Permission_name permission)
            || matches unicode_lower (searchQuery s)
                 (Permission_description permission))
         (permissions s).

Definition row (hasPermission : string -> bool) (permission : Permission)
  : list Control :=
  [plain Button "Open menu"; plain MenuItem "View usage";
   plain MenuItem "Copy permission name"]
    ++ when (hasPermission "permission.delete")
         (gated "permission.delete" MenuItem "Delete permission").

Definition render (hasPermission : string -> bool) (s : State) : list Control :=
  if loading s then []
  else
    when (hasPermission "permission.create")
         (gated "permission.create" Button "Add Permission")
      ++ [plain Input "Search permissions..."]
      ++ flat_map (row hasPermission) (filteredPermissions s).

End Screen.

End Permissions.

Module RolePermissions.

Import Api Ui.

Record State : Type := mkState {
  roles : list Role;
  permissions : list Permission;
  rolePermissions : list RolePermission;
  selectedRole : string;
  loading : bool;
  saving : bool;
  changes : list Z }.

Definition setRolePermissions (rps : list RolePermission) (s : State) : State :=
  {| roles := roles s; permissions := permissions s; rolePermissions := rps;
     selectedRole := selectedRole s; loading := loading s; saving := saving s;
     changes := changes s |}.

Definition setSelectedRole (v : string) (s : State) : State :=
  {| roles := roles s; permissions := permissions s;
     rolePermissions := rolePermissions s;
     selectedRole := v; loading := loading s; saving := saving s;
     changes := changes s |}.

(** [new Set([...prev, permissionId])], a set kept in insertion order. *)
Definition set_add (x : Z) (prev : list Z) : list Z :=
  if existsb (Z.eqb x) prev then prev else prev ++ [x].

Definition setChanges (f : list Z -> list Z) (s : State) : State :=
  {| roles := roles s; permissions := permissions s;
     rolePermissions := rolePermissions s;
     selectedRole := selectedRole s; loading := loading s; saving := saving s;
     changes := f (changes s) |}.

Definition hasRolePermission (s : State) (permissionId : Z) : bool :=
  existsb (fun rp => RP_permission_id rp =? permissionId) (rolePermissions s).

(** The object built by the [reduce] is kept as the list of its own
    properties, in the order of their creation. *)
Definition Groups : Type := list (string * list Permission).

Definition has_own (category : string) (groups : Groups) : bool :=
  existsb (fun g => String.eqb (fst g) category) groups.

(** [groups[category] = []] when there is no own property [category],
    then [groups[category].push(permission)] on the own property. *)
Fixpoint push_own (category : string) (permission : Permission)
    (groups : Groups) : Groups :=
  match groups with
  | [] => [(category, [permission])]
  | (k, v) :: rest =>
      if String.eqb k category then (k, (v ++ [permission])%list) :: rest
      else (k, v) :: push_own category permission rest
  end.

(** The body of the callback of the [reduce].  [groups[category]] reads
    the own property if there is one, else the member inherited under
    that name if there is one: that member is truthy, so no array is
    assigned, and it has no [push], so the call throws a [TypeError]. *)
Definition push (category : string) (permission : Permission)
    (groups : Groups) : Result Groups :=
  if negb (has_own category groups) && inherited category then
    Throw (JsError "groups[category].push is not a function")
  else Ok (push_own category permission groups).

Definition groupPermissionsByCategory (permissions : list Permission)
  : Result Groups :=
  fold_left
    (fun acc permission =>
       match acc with
       | Ok groups => push (before_dot (Permission_name permission)) permission groups
       | Throw e => Throw e
       end)
    permissions (Ok []).

Definition checkbox (hasPermission : string -> bool) (s : State)
    (permission : Permission) : Control :=
  {| kind := Checkbox;
     label := "permission-" ++ toString (Permission_id permission);
     disabled := negb (hasPermission "permission.assign");
     checked := hasRolePermission s (Permission_id permission);
     needs := Some "permission.assign" |}.

(** The body of the component: [groupedPermissions] is computed in
    every render, before the test of [loading], and a throw there ends
    the render. *)
Definition component (hasPermission : string -> bool) (s : State)
  : Result (list Control) :=
  match groupPermissionsByCategory (permissions s) with
  | Throw e => Throw e
  | Ok groupedPermissions =>
      Ok (if loading s then []
          else
            ([ {| kind := Button; label := "Refresh";
                  disabled := String.eqb (selectedRole s) "";
                  checked := false; needs := None |};
               plain Select "Select a role" ]
               ++ (if String.eqb (selectedRole s) "" then []
                   else
                     flat_map
                       (fun '(category, categoryPermissions) =>
                          map (checkbox hasPermission s) categoryPermissions)
                       (Object_entries groupedPermissions)))%list)
  end.

(** The controls on the screen: those the component returns, and none
    when it throws (nothing of it is rendered then). *)
Definition render (hasPermission : string -> bool) (s : State) : list Control :=
  match component hasPermission s with
  | Ok controls => controls
  | Throw _ => []
  end.

Section Screen.

Variable baseURL : string.
Context {W : Type}.
Variable fetch : Request -> W -> FetchResult * W.
(** [hasPermission] of the session store, as the screen got it from
    [useAuth]. *)
Variable hasPermission : string -> bool.

Local Open Scope task_scope.

Definition api_get (endpoint : string) : Task State W ApiResponse :=
  Api.get baseURL (fetch_pending fetch) endpoint.

Definition api_post (endpoint : string) (d : option Payload)
  : Task State W ApiResponse :=
  Api.post baseURL (fetch_pending fetch) endpoint d.

Definition api_delete (endpoint : string) (d : option Payload)
  : Task State W ApiResponse :=
  Api.delete baseURL (fetch_pending fetch) endpoint d.

Definition fetchRolePermissions (roleId : string) : Task State W unit :=
  try_catch
    (response <- api_get ("/rolepermissions/role/" ++ roleId) ;;
     if success response && isArray (data response) then
       set_state (setRolePermissions (AuthContext.data_rows (data response)))
     else ret tt)
    (fun error =>
       toast {| title := "Error";
                description :=
                  or_else (message_of error) "Failed to fetch role permissions";
                variant := Some "destructive" |}).

Definition togglePermission (permissionId : Z) : Task State W unit :=
  s <- closure ;;
  if String.eqb (selectedRole s) "" || negb (hasPermission "permission.assign")
  then ret tt
  else
    let hasPermissionCurrently := hasRolePermission s permissionId in
    try_catch
      ((if hasPermissionCurrently then
          _ <- api_delete "/rolepermissions"
                 (Some (AssignmentData (parseInt (selectedRole s)) permissionId)) ;;
          ret tt
        else
          _ <- api_post "/rolepermissions"
                 (Some (AssignmentData (parseInt (selectedRole s)) permissionId)) ;;
          ret tt) ;;
       fetchRolePermissions (selectedRole s) ;;
       set_state (setChanges (set_add permissionId)) ;;
       toast {| title := "Success";
                description :=
                  "Permission "
                    ++ (if hasPermissionCurrently then "removed from" else "added to")
                    ++ " role";
                variant := None |})
      (fun error =>
         toast {| title := "Error";
                  description :=
                    or_else (message_of error) "Failed to update permission";
                  variant := Some "destructive" |}).

(** Choosing a role in the [Select], and the effect on
    [selectedRole] that follows. *)
Definition selectRole (value : string) : Task State W unit :=
  s <- closure ;;
  set_state (setSelectedRole value) ;;
  if String.eqb value (selectedRole s) || String.eqb value "" then ret tt
  else fetchRolePermissions value.

(** The call that a toggle of [permissionId] sends first, and the
    refetch that follows it. *)
Definition mutation (s : State) (permissionId : Z) : Request :=
  prepare baseURL "/rolepermissions"
    (only_method (if hasRolePermission s permissionId then "DELETE" else "POST")
       (Some (AssignmentData (parseInt (selectedRole s)) permissionId))).

Definition refetch (s : State) : Request :=
  prepare baseURL ("/rolepermissions/role/" ++ selectedRole s)
    (only_method "GET" None).

End Screen.

End RolePermissions.

(* ===================================================================== *)
(** ** The remote API, for the assignment endpoints *)
(* ===================================================================== *)

Module Backend.

Import Api.

(** Modelled from the spec: the remote API behind [/rolepermissions],
    which is not part of this repository.  Following the data model
    and the table of endpoints, the server keeps the assignment rows;
    the existence of a row for a (role, permission) pair is what
    "this role has this permission" means; [POST /rolepermissions]
    grants (creates the row if there is none), [DELETE /rolepermissions]
    revokes (removes the rows of the pair), and
    [GET /rolepermissions/role/:roleId] lists the rows of a role.
    Every answer is wrapped in the response envelope. *)
Record Server : Type := mkServer {
  rows : list RolePermission;
  next_id : Z;
  now : string }.

Fixpoint strip_prefix (p s : string) : option string :=
  match p with
  | EmptyString => Some s
  | String a p' =>
      match s with
      | String b s' => if Ascii.eqb a b then strip_prefix p' s' else None
      | EmptyString => None
      end
  end.

Definition assigned (sv : Server) (role_id permission_id : Z) : bool :=
  existsb (fun rp => (RP_role_id rp =? role_id)
                     && (RP_permission_id rp =? permission_id))
          (rows sv).

Section Handlers.

(** The server's address, and its tables of roles and permissions
    (of which a row carries copies). *)
Variable baseURL : string.
Variable role_of : Z -> Role.
Variable permission_of : Z -> Permission.

Definition envelope (ok : bool) (r : string) (m : string) (d : option Data)
  : ApiResponse :=
  {| success := ok; route := r; message := Some m; data := d;
     error := if ok then None else Some m |}.

Definition answer (code : Z) (text : string) (e : ApiResponse) : FetchResult :=
  Resolved {| status := code; statusText := text; json := Json e |}.

(** Modelled from the spec: a grant creates the assignment of the pair,
    with copies of its role and permission, unless the pair is assigned
    already (the grant is idempotent). *)
Definition grant (sv : Server) (r p : Z) : Server :=
  if assigned sv r p then sv
  else
    {| rows := rows sv ++
                 [ {| RP_id := next_id sv; RP_role_id := r; RP_permission_id := p;
                      RP_role := role_of r; RP_permission := permission_of p;
                      RP_created_at := now sv; RP_updated_at := now sv |} ];
       next_id := next_id sv + 1;
       now := now sv |}.

(** Modelled from the spec: a revoke removes the assignment of the
    pair. *)
Definition revoke (sv : Server) (r p : Z) : Server :=
  {| rows := filter (fun rp => negb ((RP_role_id rp =? r)
                                     && (RP_permission_id rp =? p)))
                    (rows sv);
     next_id := next_id sv;
     now := now sv |}.

(** Modelled from the spec: the assignments of one role. *)
Definition list_role (sv : Server) (r : Z) : list RolePermission :=
  filter (fun rp => RP_role_id rp =? r) (rows sv).

Definition not_found (path : string) : FetchResult :=
  answer 404 "Not Found" (envelope false path "Not found" None).

Definition bad_request (path : string) : FetchResult :=
  answer 400 "Bad Request" (envelope false path "Bad request" None).

(** Modelled from the spec: how the server settles a request to one of
    the three assignment endpoints of the table of endpoints; a request
    that is not addressed to the server is rejected, a request it cannot
    read is answered 400 and an unknown path 404. *)
Definition fetch (rq : Request) (sv : Server) : FetchResult * Server :=
  match strip_prefix baseURL (url rq) with
  | None => (Rejected (JsError "Failed to fetch"), sv)
  | Some path =>
      if String.eqb path "/rolepermissions" then
        match method (config rq), body (config rq) with
        | Some "POST", Some (AssignmentData (Some r) p) =>
            (answer 200 "OK" (envelope true path "Permission assigned" None),
             grant sv r p)
        | Some "DELETE", Some (AssignmentData (Some r) p) =>
            (answer 200 "OK" (envelope true path "Permission removed" None),
             revoke sv r p)
        | _, _ => (bad_request path, sv)
        end
      else
        match strip_prefix "/rolepermissions/role/" path with
        | Some roleId =>
            match method (config rq), parseInt roleId with
            | Some "GET", Some r =>
                (answer 200 "OK"
                   (envelope true path "Role permissions"
                      (Some (DArray (list_role sv r)))),
                 sv)
            | _, _ => (bad_request path, sv)
            end
        | None => (not_found path, sv)
        end
  end.

End Handlers.

End Backend.

(* ===================================================================== *)
(** ** src/components/layout/AppSidebar.tsx *)
(* ===================================================================== *)

Module AppSidebar.

(** An entry of [navigationItems] (its icon left out); [permission] is
    [null] for the dashboard. *)
Record NavItem : Type := mkNavItem {
  title : string;
  url : string;
  permission : option string }.

Definition navigationItems : list NavItem :=
  [ mkNavItem "Dashboard" "/" None;
    mkNavItem "Users" "/users" (Some "user.read");
    mkNavItem "Roles" "/roles" (Some "role.read");
    mkNavItem "Permissions" "/permissions" (Some "permission.read");
    mkNavItem "Role Permissions" "/role-permissions" (Some "permission.read") ].

(** [!item.permission || hasPermission(item.permission)]. *)
Definition allowed (hasPermission : string -> bool) (item : NavItem) : bool :=
  negb (truthy (permission item))
  || hasPermission (ProtectedRoute.text (permission item)).

Definition filteredNavigation (hasPermission : string -> bool) : list NavItem :=
  filter (allowed hasPermission) navigationItems.

End AppSidebar.

(* ===================================================================== *)
(** ** src/components/layout/DashboardHeader.tsx *)
(* ===================================================================== *)

Module DashboardHeader.

Definition routeNames : list (string * string) :=
  [ ("/", "Dashboard");
    ("/users", "Users");
    ("/roles", "Roles");
    ("/permissions", "Permissions");
    ("/role-permissions", "Role Permissions") ].

(** [routeNames[key]], for a key that begins with a slash (no member of
    [Object.prototype] does). *)
Fixpoint lookup (key : string) (table : list (string * string)) : option string :=
  match table with
  | [] => None
  | (k, v) :: rest => if String.eqb k key then Some v else lookup key rest
  end.

(** [s.split(sep)] for a separator of one character. *)
Fixpoint split (sep : ascii) (s : string) : list string :=
  match s with
  | EmptyString => [EmptyString]
  | String c rest =>
      if Ascii.eqb c sep then EmptyString :: split sep rest
      else
        match split sep rest with
        | head :: tail => String c head :: tail
        | [] => [String c EmptyString]
        end
  end.

(** [parts.join(sep)]. *)
Definition join (sep : string) (parts : list string) : string :=
  String.concat sep parts.

Record Crumb : Type := mkCrumb {
  name : string;
  path : string;
  isLast : bool }.

(** [pathname.split('/').filter((x) => x)]. *)
Definition pathnames (pathname : string) : list string :=
  filter (fun x => negb (String.eqb x "")) (split "/" pathname).

(** The callback of the [map] in [getBreadcrumbs]. *)
Definition crumb (pathnames : list string) (index : nat) (name : string) : Crumb :=
  let path := "/" ++ join "/" (firstn (index + 1) pathnames) in
  let isLast := Nat.eqb index (length pathnames - 1) in
  let displayName := or_else (lookup path routeNames) name in
  {| name := displayName; path := path; isLast := isLast |}.

Definition getBreadcrumbs (pathname : string) : list Crumb :=
  let pathnames := pathnames pathname in
  if Nat.eqb (length pathnames) 0 then
    [ {| name := "Dashboard"; path := "/"; isLast := true |} ]
  else
    map (fun '(index, name) => crumb pathnames index name)
        (combine (seq 0 (length pathnames)) pathnames).

End DashboardHeader.

(* ===================================================================== *)
(** ** src/App.tsx *)
(* ===================================================================== *)

Module App.

Inductive Page : Type :=
| Login | Register | Dashboard | Users | Roles | Permissions | RolePermissions
| NotFound.

(** The [element] of a [Route]: a page, bare or inside the guard. *)
Inductive Element : Type :=
| Bare (page : Page)
| Guarded (props : ProtectedRoute.Props Page).

Definition requires (p : string) (page : Page) : Element :=
  Guarded (ProtectedRoute.mkProps page (Some p) None None).

(** The [Route]s, in order (the guard of [/dashboard] is commented out
    in the source). *)
Definition routes : list (string * Element) :=
  [ ("/login", Bare Login);
    ("/register", Bare Register);
    ("/dashboard", Bare Dashboard);
    ("/users", requires "user.read" Users);
    ("/roles", requires "role.read" Roles);
    ("/permissions", requires "permission.read" Permissions);
    ("/role-permissions", requires "permission.read" RolePermissions);
    ("*", Bare NotFound) ].

(** What a route element renders to, for a store state and a location. *)
Definition view (auth : AuthContext.State) (location : string) (e : Element)
  : ProtectedRoute.View Page :=
  match e with
  | Bare page => ProtectedRoute.Content page
  | Guarded props => ProtectedRoute.ProtectedRoute auth location props
  end.

End App.

(* ===================================================================== *)
(** ** src/pages/Dashboard.tsx *)
(* ===================================================================== *)

Module Dashboard.

(** An element of a fetched list, as far as the dashboard looks into it:
    the truthiness of its [active] member. *)
Record Entry : Type := mkEntry { active : bool }.

(** The value a call is fulfilled with, an object: the truthiness of its
    [success], and its [data], a list, when it has one. *)
Record Value : Type := mkValue {
  success : bool;
  data : option (list Entry) }.

(** An element of the array of [Promise.allSettled]. *)
Inductive Settled : Type :=
| Fulfilled (value : Value)
| Rejected (reason : Thrown).

Record DashboardStats : Type := mkStats {
  totalUsers : nat;
  totalRoles : nat;
  totalPermissions : nat;
  activeUsers : nat }.

Record State : Type := mkState {
  stats : DashboardStats;
  loading : bool }.

Definition initial : State :=
  {| stats := mkStats 0 0 0 0; loading := true |}.

Section Component.

(** [hasPermission] as [fetchDashboardData] has captured it.  The effect
    that calls the function has no dependencies: it runs once, after the
    first render, with the function of that render. *)
Variable hasPermission : string -> bool.

(** The endpoints of the calls pushed to [promises], in order. *)
Definition promises : list string :=
  (if hasPermission "user.read" then ["/users"] else [])
    ++ (if hasPermission "role.read" then ["/roles"] else [])
    ++ (if hasPermission "permission.read" then ["/permissions"] else []).

Definition userIndex : nat := 0.

Definition roleIndex : nat := if hasPermission "user.read" then 1 else 0.

Definition permissionIndex : nat :=
  if hasPermission "user.read" && hasPermission "role.read" then 2
  else if hasPermission "user.read" || hasPermission "role.read" then 1
  else 0.

(** [results[i]?.status === 'fulfilled'], with the value then. *)
Definition fulfilled (results : list Settled) (i : nat) : option Value :=
  match nth_error results i with
  | Some (Fulfilled value) => Some value
  | _ => None
  end.

(** [value.data.length] and the like: reading a member of an undefined
    [data] throws a [TypeError]. *)
Definition data_of (value : Value) : Result (list Entry) :=
  match data value with
  | Some l => Ok l
  | None =>
      Throw (JsError "Cannot read properties of undefined (reading 'length')")
  end.

(** The statistics computed from the settled calls, or the throw that
    ends the [try] block. *)
Definition newStats (results : list Settled) : Result DashboardStats :=
  let s0 := mkStats 0 0 0 0 in
  let after_users : Result DashboardStats :=
    match (if hasPermission "user.read" then fulfilled results userIndex else None) with
    | Some usersResult =>
        if success usersResult then
          match data_of usersResult with
          | Ok d =>
              Ok (mkStats (length d) (totalRoles s0) (totalPermissions s0)
                    (length (filter active d)))
          | Throw e => Throw e
          end
        else Ok s0
    | None => Ok s0
    end in
  let after_roles : Result DashboardStats :=
    match after_users with
    | Throw e => Throw e
    | Ok s1 =>
        match (if hasPermission "role.read" then fulfilled results roleIndex
               else None) with
        | Some rolesResult =>
            if success rolesResult then
              match data_of rolesResult with
              | Ok d =>
                  Ok (mkStats (totalUsers s1) (length d) (totalPermissions s1)
                        (activeUsers s1))
              | Throw e => Throw e
              end
            else Ok s1
        | None => Ok s1
        end
    end in
  match after_roles with
  | Throw e => Throw e
  | Ok s2 =>
      match (if hasPermission "permission.read"
             then fulfilled results permissionIndex else None) with
      | Some permissionsResult =>
          if success permissionsResult then
            match data_of permissionsResult with
            | Ok d =>
                Ok (mkStats (totalUsers s2) (totalRoles s2) (length d)
                      (activeUsers s2))
            | Throw e => Throw e
            end
          else Ok s2
      | None => Ok s2
      end
  end.

(** [fetchDashboardData], from the settled calls on: [settle] gives, for
    the endpoint of a call, what that call settles to, and
    [Promise.allSettled] lists the outcomes in the order of [promises]. *)
Definition fetchDashboardData (settle : string -> Settled) (s : State) : State :=
  let results := map settle promises in
  let s' :=
    match newStats results with
    | Ok stats' => {| stats := stats'; loading := loading s |}
    | Throw _ => s
    end in
  {| stats := stats s'; loading := false |}.

End Component.

(** The statistic cards of a render, each with its title and the value
    it shows (none while [loading]: a spinner stands in for it).
    [hasPermission] is the one of that render. *)
Definition statCards (hasPermission : string -> bool) (s : State)
  : list (string * option nat) :=
  let value (n : nat) := if loading s then None else Some n in
  ((if hasPermission "user.read" then
      [("Total Users", value (totalUsers (stats s)));
       ("Active Users", value (activeUsers (stats s)))]
    else [])
     ++ (if hasPermission "role.read" then
           [("Total Roles", value (totalRoles (stats s)))]
         else [])
     ++ (if hasPermission "permission.read" then
           [("Permissions", value (totalPermissions (stats s)))]
         else []))%list.

End Dashboard.

(* ===================================================================== *)
(** ** Concrete peers and records, for running the definitions *)
(* ===================================================================== *)

Module Sample.

Import Api.

(** A peer that settles the calls it gets from a script, in order, and
    is unreachable once the script is used up. *)
Definition scripted (rq : Request) (script : list FetchResult)
  : FetchResult * list FetchResult :=
  match script with
  | [] => (Rejected (JsError "Failed to fetch"), [])
  | settled :: rest => (settled, rest)
  end.

Definition answer (code : Z) (text : string) (e : ApiResponse) : FetchResult :=
  Resolved {| status := code; statusText := text; json := Json e |}.

Definition envelope (ok : bool) (m : string) (d : option Data) : ApiResponse :=
  {| success := ok; route := "/api"; message := Some m; data := d;
     error := None |}.

Definition base : string := API_BASE_URL None.

Definition admin : Role :=
  mkRole 1 "Admin" "Administrators" true "2024-01-01" "2024-01-01".

Definition manager : Role :=
  mkRole 2 "Manager" "Managers" true "2024-01-01" "2024-01-01".

Definition alice : User :=
  mkUser 10 "Alice" "alice@example.com" 1 admin true "2024-01-01" "2024-01-01".

Definition bob : User :=
  mkUser 11 "Bob" "bob@example.com" 2 manager true "2024-01-01" "2024-01-01".

Definition user_read : Permission :=
  mkPermission 1 "user.read" "Read users" "2024-01-01" "2024-01-01".

Definition role_delete : Permission :=
  mkPermission 7 "role.delete" "Delete roles" "2024-01-01" "2024-01-01".

Definition manager_user_read : RolePermission :=
  mkRolePermission 100 2 1 manager user_read "2024-01-01" "2024-01-01".

Definition role_of (r : Z) : Role := if r =? 1 then admin else manager.

Definition permission_of (p : Z) : Permission :=
  if p =? 1 then user_read else role_delete.

(** Bob is logged in as a Manager who may read users. *)
Definition bob_session : AuthContext.State :=
  {| AuthContext.user := Some bob;
     AuthContext.permissions := ["user.read"];
     AuthContext.loading := false |}.

(** The assignment screen with the Manager role selected and its one
    assignment shown. *)
Definition manager_screen : RolePermissions.State :=
  {| RolePermissions.roles := [admin; manager];
     RolePermissions.permissions := [user_read; role_delete];
     RolePermissions.rolePermissions := [manager_user_read];
     RolePermissions.selectedRole := "2";
     RolePermissions.loading := false;
     RolePermissions.saving := false;
     RolePermissions.changes := [] |}.

Definition server : Backend.Server :=
  {| Backend.rows := [manager_user_read];
     Backend.next_id := 101;
     Backend.now := "2024-06-01" |}.



End Sample.

(* ===================================================================== *)
(** * Properties *)
(* ===================================================================== *)

(** ** Numbers and strings *)

Lemma digits_all (u : Decimal.uint) :
  take_digits (NilEmpty.string_of_uint u) = NilEmpty.string_of_uint u.
Proof. induction u; simpl; try rewrite IHu; reflexivity. Qed.

Lemma parseInt_digit_first (c : ascii) (rest : string) :
  is_digit c = true ->
  parseInt (String c rest)
  = match NilZero.uint_of_string (take_digits (String c rest)) with
    | Some u => Some (Z.of_uint u)
    | None => None
    end.
Proof.
  destruct c as [[] [] [] [] [] [] [] []]; intros H;
    try discriminate H; reflexivity.
Qed.

Lemma string_of_uint_head (u : Decimal.uint) :
  u <> Decimal.Nil ->
  exists c rest, NilEmpty.string_of_uint u = String c rest /\ is_digit c = true.
Proof.
  destruct u; [contradiction | ..]; intros _; simpl; eauto.
Qed.

Lemma parseInt_unsigned (u : Decimal.uint) :
  u <> Decimal.Nil ->
  parseInt (NilZero.string_of_uint u) = Some (Z.of_uint u).
Proof.
  intros Hu.
  replace (NilZero.string_of_uint u) with (NilEmpty.string_of_uint u)
    by now destruct u.
  destruct (string_of_uint_head u Hu) as (c & rest & E & Hc).
  rewrite E, (parseInt_digit_first c rest Hc), <- E, digits_all.
  apply (NilZero.usu u) in Hu as Hq.
  replace (NilZero.string_of_uint u) with (NilEmpty.string_of_uint u) in Hq
    by now destruct u.
  now rewrite Hq.
Qed.

Lemma parseInt_negative (u : Decimal.uint) :
  u <> Decimal.Nil ->
  parseInt (String "-" (NilZero.string_of_uint u)) = Some (- Z.of_uint u).
Proof.
  intros Hu.
  assert (Hp : NilZero.uint_of_string (take_digits (NilZero.string_of_uint u))
               = Some u).
  { replace (NilZero.string_of_uint u) with (NilEmpty.string_of_uint u)
      by now destruct u.
    rewrite digits_all. apply (NilZero.usu u) in Hu as Hq. now destruct u. }
  unfold parseInt. simpl skip_spaces. cbv beta iota. rewrite Hp. reflexivity.
Qed.

(** Reading back the decimal rendering of an id gives the id: the value
    of a role [SelectItem] is [role.id.toString()], and the toggle sends
    [parseInt] of it. *)
Lemma parseInt_toString (n : Z) : parseInt (toString n) = Some n.
Proof.
  destruct n as [| p | p]; unfold toString; simpl Z.to_int.
  - reflexivity.
  - simpl NilZero.string_of_int.
    rewrite parseInt_unsigned by apply Unsigned.to_uint_nonnil.
    unfold Z.of_uint. now rewrite Unsigned.of_to.
  - simpl NilZero.string_of_int.
    rewrite parseInt_negative by apply Unsigned.to_uint_nonnil.
    unfold Z.of_uint. now rewrite Unsigned.of_to.
Qed.

Lemma toString_nonempty (n : Z) : toString n <> "".
Proof.
  destruct n as [| p | p]; unfold toString; simpl; try discriminate.
  pose proof (Unsigned.to_uint_nonnil p) as H.
  destruct (Pos.to_uint p); simpl; congruence.
Qed.


Lemma or_else_nonempty (a : option string) (b : string) :
  b <> "" -> or_else a b <> "".
Proof.
  intros Hb. unfold or_else. destruct a as [s |]; [| exact Hb].
  destruct (String.eqb_spec s ""); assumption.
Qed.

Example parseInt_examples :
  parseInt "2" = Some 2
  /\ parseInt " 42abc" = Some 42
  /\ parseInt "-7" = Some (-7)
  /\ parseInt "" = None
  /\ parseInt "abc" = None.
Proof. repeat split. Qed.

Example toString_examples :
  toString 404 = "404" /\ toString 0 = "0" /\ toString (-12) = "-12".
Proof. repeat split. Qed.

Example includes_examples :
  includes "Rate limit" "Rate limit exceeded. Please try again later." = true
  /\ includes "Rate limit" "HTTP 500: Internal Server Error" = false
  /\ includes "" "x" = true.
Proof. repeat split. Qed.

Example group_by_category :
  RolePermissions.groupPermissionsByCategory
    [Sample.user_read; Sample.role_delete;
     Api.mkPermission 2 "user.create" "" "" ""]
  = Ok [("user", [Sample.user_read; Api.mkPermission 2 "user.create" "" "" ""]);
        ("role", [Sample.role_delete])].
Proof. reflexivity. Qed.

(** A permission whose category names a member of [Object.prototype]
    makes the grouping throw. *)
Example group_by_inherited_name :
  RolePermissions.groupPermissionsByCategory
    [Sample.user_read; Api.mkPermission 3 "constructor.read" "" "" ""]
  = Throw (JsError "groups[category].push is not a function").
Proof. reflexivity. Qed.

(** Integer-like categories are listed first, by number. *)
Example entries_order :
  map fst (Object_entries [("user", 1); ("10", 2); ("9", 3); ("07", 4); ("role", 5)])
  = ["9"; "10"; "user"; "07"; "role"].
Proof. vm_compute. reflexivity. Qed.

(** ** The API client *)

(** A 404 without a message in its body is reported by status. *)
Example request_404 :
  Api.request Sample.base Sample.scripted "/nowhere" (Api.only_method "GET" None)
    [Api.Resolved {| Api.status := 404; Api.statusText := "Not Found";
                     Api.json := Api.Malformed "Unexpected token <" |}]
  = (Throw (JsError "HTTP 404: Not Found"), []).
Proof. reflexivity. Qed.

(** The request of [api.get('/userdata')] with no [VITE_API_URL] set. *)
Example prepared_get :
  Api.prepare Sample.base "/userdata" (Api.only_method "GET" None)
  = {| Api.url := "http://localhost:3000/api/userdata";
       Api.config :=
         {| Api.method := Some "GET";
            Api.body := None;
            Api.headers := Some [("Content-Type", "application/json")];
            Api.credentials := Some "include" |} |}.
Proof. reflexivity. Qed.

Section ClientFacts.

Variable baseURL : string.
Context {W : Type}.
Variable fetch : Api.Request -> W -> Api.FetchResult * W.

Import Api.

Lemma request_unfold endpoint options w :
  request baseURL fetch endpoint options w
  = (request_catch (request_try (fst (fetch (prepare baseURL endpoint options) w))),
     snd (fetch (prepare baseURL endpoint options) w)).
Proof.
  unfold request. now destruct (fetch (prepare baseURL endpoint options) w).
Qed.

(** A call never completes normally on a non-2xx answer. *)
Lemma request_try_not_ok r :
  ok r = false -> exists m, request_try (Resolved r) = Throw (JsError m) /\ m <> "".
Proof.
  intros H. unfold request_try. rewrite H. simpl.
  destruct (status r =? 429).
  - eexists; split; [reflexivity | discriminate].
  - eexists; split; [reflexivity |]. apply or_else_nonempty. discriminate.
Qed.

End ClientFacts.




(** ** The session store *)

Section AuthFacts.

Variable baseURL : string.
Context {W : Type}.
Variable fetch : Api.Request -> W -> Api.FetchResult * W.

Import Api AuthContext.

(** A call made by a component: its outcome is that of the bare
    client on the peer, and the request is recorded with the state on
    screen. *)
Lemma request_pending {S} endpoint options (c : Cfg S W) :
  Api.request baseURL (fetch_pending fetch) endpoint options c
  = (fst (Api.request baseURL fetch endpoint options (world c)),
     mkCfg (st c)
           (snd (Api.request baseURL fetch endpoint options (world c)))
           (trace c ++ [(prepare baseURL endpoint options, st c)])
           (toasts c)).
Proof.
  unfold Api.request, fetch_pending.
  destruct (fetch (prepare baseURL endpoint options) (world c)) as [settled w'].
  reflexivity.
Qed.

Ltac run_request :=
  rewrite request_pending;
  match goal with
  | |- context [Api.request baseURL fetch ?e ?o ?w] =>
      destruct (Api.request baseURL fetch e o w) as [[?response | ?error] ?w']
  end; cbn [fst snd st world trace toasts].

Ltac unfold_tasks :=
  unfold fetchUserData, fetchPermissions, login, register, logout,
    refreshPermissions, try_finally, try_catch, bind, ret, closure,
    set_state, toast, api_get, api_post, Api.get, Api.post.

Lemma settled_on_screen s : settled s -> on_screen s.
Proof.
  unfold settled, on_screen. intros [H1 H2]. split; [assumption |].
  intros Hl. apply H1, H2, Hl.
Qed.

Ltac close_inv :=
  unfold Inv in *; cbn [st trace world toasts fst snd] in *;
  rewrite ?map_app, ?Forall_app; cbn [map snd];
  repeat match goal with
    | |- _ /\ _ => split
    | |- Forall _ [_] => constructor; [| constructor]
    | H : _ /\ _ |- _ => destruct H
    end;
  try assumption; try (apply settled_on_screen; assumption);
  try (unfold settled, on_screen in *; cbn in *;
       intuition (try congruence; try discriminate)).

Lemma fetchUserData_inv c : Inv c -> Inv (snd (fetchUserData baseURL fetch c)).
Proof.
  intros H. unfold_tasks. run_request.
  - destruct (if success response then data_user (data response) else None)
      as [userData |]; cbn [st world trace toasts fst snd].
    + run_request;
        [destruct (success response0 && isArray (data response0)) |];
        cbn [st world trace toasts fst snd]; close_inv.
    + close_inv.
  - close_inv.
Qed.

Lemma login_inv email password c :
  Inv c -> Inv (snd (login baseURL fetch email password c)).
Proof.
  intros H. unfold login, try_catch, bind, api_post, Api.post.
  run_request.
  - destruct (success response).
    + match goal with
      | |- context [fetchUserData baseURL fetch ?c1] =>
          assert (H1 : Inv c1) by close_inv;
          apply fetchUserData_inv in H1;
          destruct (fetchUserData baseURL fetch c1) as [[[] | e] c2]
      end; cbn [snd] in H1; unfold toast, ret; cbn [fst snd]; close_inv.
    + unfold toast, ret. close_inv.
  - unfold toast, ret. close_inv.
Qed.

Lemma register_inv name email password roleId c :
  Inv c -> Inv (snd (register baseURL fetch name email password roleId c)).
Proof.
  intros H. unfold_tasks. run_request;
    [destruct (success response) |]; close_inv.
Qed.

Lemma logout_inv c : Inv c -> Inv (snd (logout baseURL fetch c)).
Proof. intros H. unfold_tasks. run_request; close_inv. Qed.

Lemma refreshPermissions_inv c :
  Inv c -> Inv (snd (refreshPermissions baseURL fetch c)).
Proof.
  intros H. unfold_tasks. cbn [st].
  destruct (user (st c)) as [u |] eqn:Hu; [| close_inv].
  destruct (negb (User_role_id u =? 0)); [| close_inv].
  unfold_tasks. run_request;
    [destruct (success response && isArray (data response)) |]; close_inv.
Qed.

Lemma run_inv o c : Inv c -> Inv (run baseURL fetch o c).
Proof.
  destruct o; simpl; auto using fetchUserData_inv, login_inv, register_inv,
    logout_inv, refreshPermissions_inv.
Qed.

Lemma reachable_inv c : reachable baseURL fetch c -> Inv c.
Proof.
  induction 1 as [w | c o _ IH].
  - unfold Inv, mount, settled, initial; simpl. repeat split; auto.
  - now apply run_inv.
Qed.

End AuthFacts.

Section StoreRuns.

Variable baseURL : string.
Context {W : Type}.
Variable fetch : Api.Request -> W -> Api.FetchResult * W.

Import Api AuthContext.

(** What [fetchPermissions] does, by the outcome of its one call: a
    throwing call empties the set, a successful list replaces it in one
    step by the names of the rows, and any other answer leaves it as it
    was.  The function itself never throws. *)
Lemma fetchPermissions_run roleId (c : Cfg State W) :
  fetchPermissions baseURL fetch roleId c
  = let endpoint := "/rolepermissions/role/" ++ toString roleId in
    let r := Api.get baseURL fetch endpoint (world c) in
    (Ok tt,
     mkCfg
       match fst r with
       | Throw _ => setPermissions [] (st c)
       | Ok response =>
           if success response && isArray (data response) then
             setPermissions
               (map (fun rp => Permission_name (RP_permission rp))
                    (data_rows (data response)))
               (st c)
           else st c
       end
       (snd r)
       (trace c ++ [(prepare baseURL endpoint (only_method "GET" None), st c)])
       (toasts c)).
Proof.
  unfold fetchPermissions, try_catch, bind, api_get, Api.get.
  rewrite request_pending. cbv zeta.
  destruct (Api.request baseURL fetch _ _ (world c)) as [[response | e] w'];
    cbn [fst snd]; [| reflexivity].
  destruct (success response && isArray (data response)); reflexivity.
Qed.

Lemma logout_run (c : Cfg State W) :
  logout baseURL fetch c
  = let r := Api.get baseURL fetch "/logout" (world c) in
    (Ok tt,
     mkCfg
       match fst r with
       | Ok _ => setPermissions [] (setUser None (st c))
       | Throw _ => st c
       end
       (snd r)
       (trace c ++ [(prepare baseURL "/logout" (only_method "GET" None), st c)])
       match fst r with
       | Ok _ =>
           toasts c ++
             [ {| title := "Logged out";
                  description := "You have been successfully logged out";
                  variant := None |} ]
       | Throw _ => toasts c
       end).
Proof.
  unfold logout, try_catch, bind, api_get, Api.get, set_state, toast, ret.
  rewrite request_pending. cbv zeta.
  destruct (Api.request baseURL fetch _ _ (world c)) as [[response | e] w'];
    reflexivity.
Qed.

End StoreRuns.

(** Hydration of Bob's session: the identity, then the names of the rows
    of his role, then the loading flag down. *)
Example hydrate_bob :
  st (AuthContext.run Sample.base Sample.scripted AuthContext.Hydrate
        (AuthContext.mount
           [ Sample.answer 200 "OK"
               (Sample.envelope true "ok" (Some (Api.DObject (Some Sample.bob))));
             Sample.answer 200 "OK"
               (Sample.envelope true "ok"
                  (Some (Api.DArray [Sample.manager_user_read]))) ]))
  = Sample.bob_session.
Proof. reflexivity. Qed.

(** Without a session the store ends anonymous, with nothing resolved. *)
Example hydrate_anonymous :
  st (AuthContext.run Sample.base Sample.scripted AuthContext.Hydrate
        (AuthContext.mount
           [ Sample.answer 401 "Unauthorized"
               (Sample.envelope false "Not authenticated" None) ]))
  = {| AuthContext.user := None;
       AuthContext.permissions := [];
       AuthContext.loading := false |}.
Proof. reflexivity. Qed.

(** C1 (as amended).  [logout] never throws.  When its call to the API
    returns (with any envelope), the identity is null and the permission
    set is empty afterwards, so [hasPermission p] is false for every [p];
    when the call throws, the state is left as it was.  On a state that
    is already cleared, [logout] changes nothing, whatever the call
    does. *)
Theorem logout_clears_when_call_returns :
  forall (baseURL : string) (W : Type)
         (fetch : Api.Request -> W -> Api.FetchResult * W)
         (c : Cfg AuthContext.State W) (r : Result Api.ApiResponse) (w' : W),
    Api.get baseURL fetch "/logout" (world c) = (r, w') ->
    let c' := snd (AuthContext.logout baseURL fetch c) in
    fst (AuthContext.logout baseURL fetch c) = Ok tt
    /\ match r with
       | Ok _ =>
           AuthContext.user (st c') = None
           /\ AuthContext.permissions (st c') = []
           /\ (forall p, AuthContext.hasPermission (st c') p = false)
       | Throw _ => st c' = st c
       end
    /\ (AuthContext.user (st c) = None ->
        AuthContext.permissions (st c) = [] ->
        st c' = st c).
Proof.
  intros baseURL W fetch c r w' Hcall c'. subst c'.
  rewrite logout_run. cbv zeta. rewrite Hcall. cbn [fst snd st].
  split; [reflexivity |]. split.
  - destruct r; [| reflexivity]. repeat split.
  - intros Hu Hp. destruct r; [| reflexivity].
    destruct (st c) as [u ps l]. simpl in *. now subst.
Qed.

Lemma logout_clears_when_call_returns_witness :
  let c := mkCfg Sample.bob_session
             [Sample.answer 200 "OK" (Sample.envelope true "Logged out" None)]
             [] [] in
  let c' := snd (AuthContext.logout Sample.base Sample.scripted c) in
  AuthContext.user (st c') = None
  /\ AuthContext.permissions (st c') = []
  /\ (forall p, AuthContext.hasPermission (st c') p = false).
Proof.
  exact (proj1 (proj2
    (logout_clears_when_call_returns Sample.base _ Sample.scripted
       (mkCfg Sample.bob_session
          [Sample.answer 200 "OK" (Sample.envelope true "Logged out" None)]
          [] [])
       _ _ eq_refl))).
Defined.

(** C1 (as stated) fails: when the call to [/logout] is rejected, Bob's
    identity and permissions are still there afterwards. *)
Lemma logout_failure_keeps_session :
  let c := mkCfg Sample.bob_session [Api.Rejected (JsError "Failed to fetch")]
             [] [] in
  let c' := snd (AuthContext.logout Sample.base Sample.scripted c) in
  AuthContext.user (st c') = Some Sample.bob
  /\ AuthContext.permissions (st c') = ["user.read"]
  /\ AuthContext.hasPermission (st c') "user.read" = true.
Proof. repeat split. Qed.

(** C2.  Bob's set is [user.read]; the fetch of his role's rows is
    answered 200 with [success: false] (or with [data] that is not a
    list): [fetchPermissions] leaves [user.read] in the set, where a
    rejected or non-2xx call empties it. *)
Theorem fetchPermissions_keeps_stale_set :
  let domain_failure :=
    Sample.answer 200 "OK" (Sample.envelope false "Role not found" None) in
  let not_a_list :=
    Sample.answer 200 "OK" (Sample.envelope true "ok" (Some Api.DOther)) in
  let server_error :=
    Sample.answer 500 "Internal Server Error"
      (Sample.envelope false "Database unavailable" None) in
  let after settled :=
    AuthContext.permissions
      (st (snd (AuthContext.fetchPermissions Sample.base Sample.scripted 2
                  (mkCfg Sample.bob_session [settled] [] [])))) in
  after domain_failure = ["user.read"]
  /\ after not_a_list = ["user.read"]
  /\ after server_error = []
  /\ after (Api.Rejected (JsError "Failed to fetch")) = [].
Proof. repeat split. Qed.

(** C8.  [hasRole s name] holds exactly when there is an identity whose
    role name is the string [name], and [isAdmin s] holds exactly when
    [hasRole s "Super Admin"] or [hasRole s "Admin"] does, that is when
    the identity's role is named exactly "Super Admin" or "Admin". *)
Theorem isAdmin_iff_privileged_role :
  forall s : AuthContext.State,
    (forall name,
        AuthContext.hasRole s name = true
        <-> exists u, AuthContext.user s = Some u
                      /\ Api.Role_name (Api.User_role u) = name)
    /\ (AuthContext.isAdmin s = true
        <-> AuthContext.hasRole s "Super Admin" = true
            \/ AuthContext.hasRole s "Admin" = true)
    /\ (AuthContext.isAdmin s = true
        <-> exists u, AuthContext.user s = Some u
                      /\ (Api.Role_name (Api.User_role u) = "Super Admin"
                          \/ Api.Role_name (Api.User_role u) = "Admin")).
Proof.
  intros s.
  assert (Hrole : forall name,
             AuthContext.hasRole s name = true
             <-> exists u, AuthContext.user s = Some u
                           /\ Api.Role_name (Api.User_role u) = name).
  { intros name. unfold AuthContext.hasRole.
    destruct (AuthContext.user s) as [u |].
    - rewrite String.eqb_eq. split.
      + intros E. exists u. now split.
      + intros (u' & [= <-] & E). exact E.
    - split; [discriminate | intros (u & [=] & _)]. }
  assert (Hadmin : AuthContext.isAdmin s = true
                   <-> AuthContext.hasRole s "Super Admin" = true
                       \/ AuthContext.hasRole s "Admin" = true).
  { unfold AuthContext.isAdmin. apply orb_true_iff. }
  split; [exact Hrole |]. split; [exact Hadmin |].
  rewrite Hadmin, !Hrole. split.
  - intros [(u & Hu & E) | (u & Hu & E)]; exists u; auto.
  - intros (u & Hu & [E | E]); [left | right]; exists u; auto.
Qed.

(** ** Operations that overlap *)

Section OverlapFacts.

Context {S W : Type}.
Variable fetch : Api.Request -> W -> Api.FetchResult * W.

Lemma exec_and_then {A B} (m : Overlap.Proc S A) (k : A -> Overlap.Proc S B)
    (c : Cfg S W) :
  Overlap.exec fetch (Overlap.and_then m k) c
  = bind (Overlap.exec fetch m) (fun a => Overlap.exec fetch (k a)) c.
Proof.
  revert c.
  induction m as [[a | e] | f next IH | t next IH | next IH | rq next IH];
    intros c; unfold bind in *; simpl; auto.
  destruct (fetch_pending fetch rq c) as [settled c']. apply IH.
Qed.

Lemma exec_catching {A} (body : Overlap.Proc S A) handler (c : Cfg S W) :
  Overlap.exec fetch (Overlap.catching body handler) c
  = try_catch (Overlap.exec fetch body)
      (fun e => Overlap.exec fetch (handler e)) c.
Proof.
  revert c.
  induction body as [[a | e] | f next IH | t next IH | next IH | rq next IH];
    intros c; unfold try_catch in *; simpl; auto.
  destruct (fetch_pending fetch rq c) as [settled c']. apply IH.
Qed.

Lemma exec_complete {A} (final : Overlap.Proc S unit) (r : Result A) (c : Cfg S W) :
  Overlap.exec fetch (Overlap.complete final r) c
  = match Overlap.exec fetch final c with
    | (Ok _, c'') => (r, c'')
    | (Throw e, c'') => (Throw e, c'')
    end.
Proof.
  revert c.
  induction final as [[a | e] | f next IH | t next IH | next IH | rq next IH];
    intros c; simpl; auto.
  destruct (fetch_pending fetch rq c) as [settled c']. apply IH.
Qed.

Lemma exec_finally {A} (body : Overlap.Proc S A) final (c : Cfg S W) :
  Overlap.exec fetch (Overlap.finally body final) c
  = try_finally (Overlap.exec fetch body) (Overlap.exec fetch final) c.
Proof.
  revert c.
  induction body as [r | f next IH | t next IH | next IH | rq next IH];
    intros c; unfold try_finally in *; simpl; auto.
  - apply exec_complete.
  - destruct (fetch_pending fetch rq c) as [settled c']. apply IH.
Qed.

Lemma exec_forget {A} (p : Overlap.Proc S A) (c : Cfg S W) :
  snd (Overlap.exec fetch (Overlap.forget p) c) = snd (Overlap.exec fetch p c).
Proof.
  unfold Overlap.forget. rewrite exec_and_then. unfold bind.
  now destruct (Overlap.exec fetch p c) as [[a | e] c'].
Qed.

Context {O : Type}.
Variable start : O -> Overlap.Proc S unit.

Lemma play_app (schedule schedule' : list (Overlap.Event O)) pool :
  Overlap.play fetch start (schedule ++ schedule') pool
  = Overlap.play fetch start schedule' (Overlap.play fetch start schedule pool).
Proof. apply fold_left_app. Qed.

(** A function that is alone in the pool runs to its end as its calls
    settle. *)
Lemma alone_runs_to_the_end (p : Overlap.Proc S unit) (c : Cfg S W) :
  exists n,
    Overlap.play fetch start (repeat (Overlap.Settle 0) n)
      (Overlap.advance fetch p c [])
    = Overlap.mkPool (snd (Overlap.exec fetch p c)) [].
Proof.
  revert c.
  induction p as [r | f next IH | t next IH | next IH | rq next IH];
    intros c; simpl.
  - now exists 0%nat.
  - apply IH.
  - apply IH.
  - apply IH.
  - destruct (fetch_pending fetch rq c) as [settled c'].
    destruct (IH settled c') as [n Hn]. exists (Datatypes.S n). exact Hn.
Qed.

End OverlapFacts.

Section TaskExt.
Context {S W : Type}.

Lemma bind_ext {A B} (m m' : Task S W A) (k k' : A -> Task S W B) c :
  m c = m' c -> (forall a c', k a c' = k' a c') -> bind m k c = bind m' k' c.
Proof. intros E H. unfold bind. rewrite E. destruct (m' c) as [[a | e] c']; auto. Qed.

Lemma try_catch_ext {A} (b b' : Task S W A) (h h' : Thrown -> Task S W A) c :
  b c = b' c -> (forall e c', h e c' = h' e c') ->
  try_catch b h c = try_catch b' h' c.
Proof. intros E H. unfold try_catch. rewrite E. destruct (b' c) as [[a | e] c']; auto. Qed.

Lemma try_finally_ext {A} (b b' : Task S W A) (f f' : Task S W unit) c :
  b c = b' c -> (forall c', f c' = f' c') ->
  try_finally b f c = try_finally b' f' c.
Proof.
  intros E H. unfold try_finally. rewrite E. destruct (b' c) as [r c'].
  now rewrite H.
Qed.
End TaskExt.

Section StoreSteps.

Variable baseURL : string.
Context {W : Type}.
Variable fetch : Api.Request -> W -> Api.FetchResult * W.

Import Api AuthContext.

Lemma exec_api_request endpoint options (c : Cfg State W) :
  Overlap.exec fetch (Overlap.api_request baseURL endpoint options) c
  = Api.request baseURL (fetch_pending fetch) endpoint options c.
Proof.
  unfold Overlap.api_request, Api.request. simpl.
  now destruct (fetch_pending fetch _ c).
Qed.

Ltac step_by_step :=
  repeat first
    [ progress intros
    | rewrite exec_catching | rewrite exec_finally | rewrite exec_and_then
    | apply try_catch_ext | apply try_finally_ext | apply bind_ext
    | apply exec_api_request
    | reflexivity ].

Lemma exec_fetchPermissions roleId (c : Cfg State W) :
  Overlap.exec fetch (Overlap.fetchPermissions baseURL roleId) c
  = fetchPermissions baseURL fetch roleId c.
Proof.
  unfold Overlap.fetchPermissions, fetchPermissions, Overlap.api_get, api_get, Api.get.
  step_by_step.
  destruct (success a && isArray (data a)); reflexivity.
Qed.

Lemma exec_fetchUserData (c : Cfg State W) :
  Overlap.exec fetch (Overlap.fetchUserData baseURL) c
  = fetchUserData baseURL fetch c.
Proof.
  unfold Overlap.fetchUserData, fetchUserData, Overlap.api_get, api_get, Api.get.
  step_by_step.
  destruct (if success a then data_user (data a) else None) as [userData |];
    step_by_step.
  apply exec_fetchPermissions.
Qed.

Lemma exec_login email password (c : Cfg State W) :
  Overlap.exec fetch (Overlap.login baseURL email password) c
  = login baseURL fetch email password c.
Proof.
  unfold Overlap.login, login, Overlap.api_post, api_post, Api.post.
  step_by_step.
  destruct (success a); step_by_step.
  apply exec_fetchUserData.
Qed.

Lemma exec_register name email password roleId (c : Cfg State W) :
  Overlap.exec fetch (Overlap.register baseURL name email password roleId) c
  = register baseURL fetch name email password roleId c.
Proof.
  unfold Overlap.register, register, Overlap.api_post, api_post, Api.post.
  step_by_step.
  destruct (success a); step_by_step.
Qed.

Lemma exec_logout (c : Cfg State W) :
  Overlap.exec fetch (Overlap.logout baseURL) c = logout baseURL fetch c.
Proof.
  unfold Overlap.logout, logout, Overlap.api_get, api_get, Api.get.
  step_by_step.
Qed.

Lemma exec_refreshPermissions (c : Cfg State W) :
  Overlap.exec fetch (Overlap.refreshPermissions baseURL) c
  = refreshPermissions baseURL fetch c.
Proof.
  unfold Overlap.refreshPermissions, refreshPermissions, bind, closure.
  simpl. destruct (user (st c)) as [u |]; [| reflexivity].
  destruct (negb (User_role_id u =? 0)); [| reflexivity].
  apply exec_fetchPermissions.
Qed.

(** Run alone, the steps of an operation are the operation. *)
Lemma exec_start o (c : Cfg State W) :
  snd (Overlap.exec fetch (Overlap.start baseURL o) c) = run baseURL fetch o c.
Proof.
  destruct o; unfold Overlap.start, run; rewrite ?exec_forget.
  - now rewrite exec_fetchUserData.
  - now rewrite exec_login.
  - now rewrite exec_register.
  - now rewrite exec_logout.
  - now rewrite exec_refreshPermissions.
Qed.

(** Operations run in turn are among the runs in which they may
    overlap. *)
Lemma in_turn_reachable (c : Cfg State W) :
  AuthContext.reachable baseURL fetch c ->
  Overlap.reachable baseURL fetch (Overlap.mkPool c []).
Proof.
  induction 1 as [w | c o _ (w & schedule & IH)].
  - now exists w, [].
  - destruct (alone_runs_to_the_end fetch (Overlap.start baseURL)
                (Overlap.start baseURL o) c) as [n Hn].
    exists w, (schedule ++ Overlap.Call o :: repeat (Overlap.Settle 0) n)%list.
    rewrite play_app, <- IH. cbn [Overlap.play fold_left Overlap.step
      Overlap.now Overlap.pending].
    fold (Overlap.play fetch (Overlap.start baseURL) (repeat (Overlap.Settle 0) n)
            (Overlap.advance fetch (Overlap.start baseURL o) c [])).
    now rewrite Hn, exec_start.
Qed.

End StoreSteps.

Section AloneFacts.

Context {S W : Type}.
Variable fetch : Api.Request -> W -> Api.FetchResult * W.

(** A function only adds to the record of the requests sent. *)
Lemma exec_trace {A} (p : Overlap.Proc S A) (c : Cfg S W) :
  exists more, trace (snd (Overlap.exec fetch p c)) = (trace c ++ more)%list.
Proof.
  revert c.
  induction p as [r | f next IH | t next IH | next IH | rq next IH];
    intros c; simpl.
  - exists []. now rewrite List.app_nil_r.
  - apply (IH (mkCfg (f (st c)) (world c) (trace c) (toasts c))).
  - apply (IH (mkCfg (st c) (world c) (trace c) (toasts c ++ [t])%list)).
  - apply IH.
  - unfold fetch_pending. destruct (fetch rq (world c)) as [settled w'].
    destruct (IH settled (mkCfg (st c) w' (trace c ++ [(rq, st c)])%list (toasts c)))
      as [more Hm].
    exists ((rq, st c) :: more). rewrite Hm. cbn [trace].
    now rewrite <- app_assoc.
Qed.

(** A function that is alone either runs to its end, or waits at a call
    it has sent with the state then on screen; what is left of it ends
    where the whole of it ends. *)
Lemma advance_alone (p : Overlap.Proc S unit) (c : Cfg S W) :
  let pool := Overlap.advance fetch p c [] in
  (Overlap.pending pool = []
   /\ Overlap.now pool = snd (Overlap.exec fetch p c))
  \/ (exists q,
        Overlap.pending pool = [q]
        /\ snd (Overlap.exec fetch q (Overlap.now pool))
           = snd (Overlap.exec fetch p c)
        /\ In (st (Overlap.now pool)) (map snd (trace (Overlap.now pool)))).
Proof.
  revert c.
  induction p as [r | f next IH | t next IH | next IH | rq next IH];
    intros c; simpl.
  - now left.
  - apply IH.
  - apply IH.
  - apply IH.
  - right. unfold fetch_pending. destruct (fetch rq (world c)) as [settled w'].
    exists (next settled). cbn. split; [reflexivity |]. split; [reflexivity |].
    rewrite map_app. apply in_or_app. right. now left.
Qed.

End AloneFacts.

Section InTurn.

Variable baseURL : string.
Context {W : Type}.
Variable fetch : Api.Request -> W -> Api.FetchResult * W.

Import Api AuthContext.

Local Abbreviation exec := (Overlap.exec fetch).
Local Abbreviation play := (Overlap.play fetch (Overlap.start baseURL)).
Local Abbreviation in_turn := (Overlap.in_turn fetch (Overlap.start baseURL)).

Local Abbreviation in_turn_pool := (Overlap.in_turn_pool baseURL fetch).

Lemma in_turn_step pool e :
  in_turn_pool pool ->
  in_turn [e] pool = true ->
  in_turn_pool (Overlap.step fetch (Overlap.start baseURL) pool e).
Proof.
  intros [[Hp Hr] | (q & Hp & Hr & Hin)] He; destruct pool as [c pend];
    cbn in Hp; subst pend.
  - destruct e as [o | i].
    + cbn [Overlap.step Overlap.now Overlap.pending].
      destruct (advance_alone fetch (Overlap.start baseURL o) c)
        as [[H1 H2] | (q & H1 & H2 & H3)].
      * left. split; [exact H1 |]. rewrite H2, exec_start. now constructor.
      * right. exists q. split; [exact H1 |]. split; [| exact H3].
        rewrite H2, exec_start. now constructor.
    + cbn. destruct i; cbn; left; now split.
  - destruct e as [o | i]; [discriminate He |].
    cbn [Overlap.step Overlap.now Overlap.pending].
    destruct i as [| i]; cbn [nth_error].
    + change (Overlap.without 0 [q]) with (@nil (Overlap.Proc State unit)).
      destruct (advance_alone fetch q c) as [[H1 H2] | (q' & H1 & H2 & H3)].
      * left. split; [exact H1 |]. now rewrite H2.
      * right. exists q'. split; [exact H1 |]. split; [| exact H3].
        now rewrite H2.
    + destruct i; cbn; right; exists q; repeat split; assumption.
Qed.

Lemma in_turn_play schedule :
  forall pool,
    in_turn_pool pool ->
    in_turn schedule pool = true ->
    in_turn_pool (play schedule pool).
Proof.
  induction schedule as [| e schedule IH]; intros pool Hp Hs; [exact Hp |].
  cbn [Overlap.play fold_left].
  assert (He : in_turn [e] pool = true /\
               in_turn schedule (Overlap.step fetch (Overlap.start baseURL) pool e)
               = true).
  { cbn in Hs |- *. destruct e; destruct (Overlap.pending pool);
      try discriminate Hs; now split. }
  destruct He as [He Hrest].
  apply IH; [now apply in_turn_step | exact Hrest].
Qed.

(** In turn, between two operations the store is settled, and every
    state a render has seen or sees is as [on_screen] says. *)
Lemma in_turn_states w schedule :
  let pool := play schedule (Overlap.mkPool (mount w) []) in
  in_turn schedule (Overlap.mkPool (mount w) []) = true ->
  (Overlap.pending pool = [] -> settled (st (Overlap.now pool)))
  /\ Forall on_screen (shown (Overlap.now pool)).
Proof.
  intros pool Hs. subst pool.
  assert (H0 : in_turn_pool (Overlap.mkPool (mount w) [])).
  { left. split; [reflexivity | constructor]. }
  pose proof (in_turn_play schedule _ H0 Hs) as [[Hp Hr] | (q & Hp & Hr & Hin)].
  - apply reachable_inv in Hr as [Hset Htr]. split; [intros _; exact Hset |].
    unfold shown. apply Forall_app. split; [exact Htr |].
    constructor; [now apply settled_on_screen | constructor].
  - apply reachable_inv in Hr as [_ Htr].
    destruct (exec_trace fetch q (Overlap.now (play schedule
                (Overlap.mkPool (mount w) [])))) as [more Hm].
    rewrite Hm, map_app in Htr. apply Forall_app in Htr as [Htr _].
    split; [intros E; rewrite Hp in E; discriminate E |].
    unfold shown. apply Forall_app. split; [exact Htr |].
    constructor; [| constructor].
    rewrite Forall_forall in Htr. now apply Htr.
Qed.

End InTurn.







(** ** The authorization guard *)

(** C3.  The guard decides in a fixed order, the first match being the
    outcome: while loading, the spinner; else without an identity, the
    redirect to [/login] that carries the requested location; else with
    [requireAdmin] and no admin role, the admin denial; else with a
    [requiredRole] the user does not have, the role denial; else with a
    [requiredPermission] the user does not have, the permission denial;
    else the children.  In particular an authenticated user who is not
    an admin, on a route with [requireAdmin] and a [requiredPermission],
    gets the admin denial and not the permission denial. *)
Theorem guard_first_match :
  forall (C : Type) (auth : AuthContext.State) (location : string)
         (props : ProtectedRoute.Props C),
    let view := ProtectedRoute.ProtectedRoute auth location props in
    let admin :=
      match ProtectedRoute.requireAdmin props with Some b => b | None => false end in
    let role := ProtectedRoute.requiredRole props in
    let permission := ProtectedRoute.requiredPermission props in
    (AuthContext.loading auth = true -> view = ProtectedRoute.Spinner)
    /\ (AuthContext.loading auth = false ->
        AuthContext.user auth = None ->
        view = ProtectedRoute.Navigate "/login" location true)
    /\ (AuthContext.loading auth = false ->
        AuthContext.user auth <> None ->
        (admin = true -> AuthContext.isAdmin auth = false ->
         view = ProtectedRoute.DeniedAdmin)
        /\ (admin = false \/ AuthContext.isAdmin auth = true ->
            (forall r, role = Some r -> r <> "" ->
                       AuthContext.hasRole auth r = false ->
                       view = ProtectedRoute.DeniedRole r)
            /\ (truthy role = false
                \/ AuthContext.hasRole auth (ProtectedRoute.text role) = true ->
                (forall p, permission = Some p -> p <> "" ->
                           AuthContext.hasPermission auth p = false ->
                           view = ProtectedRoute.DeniedPermission p)
                /\ (truthy permission = false
                    \/ AuthContext.hasPermission auth
                         (ProtectedRoute.text permission) = true ->
                    view = ProtectedRoute.Content (ProtectedRoute.children props)))))
    /\ (AuthContext.loading auth = false ->
        AuthContext.user auth <> None ->
        AuthContext.isAdmin auth = false ->
        ProtectedRoute.requireAdmin props = Some true ->
        forall p, permission = Some p ->
                  view = ProtectedRoute.DeniedAdmin
                  /\ view <> ProtectedRoute.DeniedPermission p).
Proof.
  intros C auth location props view admin role permission.
  subst view admin role permission. unfold ProtectedRoute.ProtectedRoute.
  split; [intros ->; reflexivity |].
  split; [intros -> ->; reflexivity |].
  split.
  - intros -> Hu. destruct (AuthContext.user auth) as [u |]; [clear Hu | congruence].
    split; [intros -> ->; reflexivity |].
    intros Hadm.
    assert (E1 : match ProtectedRoute.requireAdmin props with
                 | Some b => b | None => false end
                 && negb (AuthContext.isAdmin auth) = false).
    { destruct Hadm as [-> | ->]; [reflexivity | apply andb_false_r]. }
    rewrite E1. split.
    + intros r Hr Hne Hhas. rewrite Hr. simpl.
      destruct (String.eqb_spec r ""); [contradiction |].
      simpl. now rewrite Hhas.
    + intros Hrole.
      assert (E2 : truthy (ProtectedRoute.requiredRole props)
                   && negb (AuthContext.hasRole auth
                              (ProtectedRoute.text
                                 (ProtectedRoute.requiredRole props))) = false).
      { destruct Hrole as [-> | ->]; [reflexivity | apply andb_false_r]. }
      rewrite E2. split.
      * intros p Hp Hne Hhas. rewrite Hp. simpl.
        destruct (String.eqb_spec p ""); [contradiction |].
        simpl. now rewrite Hhas.
      * intros Hperm.
        assert (E3 : truthy (ProtectedRoute.requiredPermission props)
                     && negb (AuthContext.hasPermission auth
                                (ProtectedRoute.text
                                   (ProtectedRoute.requiredPermission props)))
                     = false).
        { destruct Hperm as [-> | ->]; [reflexivity | apply andb_false_r]. }
        now rewrite E3.
  - intros -> Hu Hadm -> p _.
    destruct (AuthContext.user auth) as [u |]; [| congruence].
    rewrite Hadm. simpl. split; [reflexivity | discriminate].
Qed.

Lemma guard_first_match_witness :
  ProtectedRoute.ProtectedRoute Sample.bob_session "/roles"
    (ProtectedRoute.mkProps tt (Some "x.y") None (Some true))
  = ProtectedRoute.DeniedAdmin
  /\ ProtectedRoute.ProtectedRoute Sample.bob_session "/roles"
       (ProtectedRoute.mkProps tt (Some "x.y") None (Some true))
     <> ProtectedRoute.DeniedPermission "x.y".
Proof.
  refine (proj2 (proj2 (proj2
    (guard_first_match unit Sample.bob_session "/roles"
       (ProtectedRoute.mkProps tt (Some "x.y") None (Some true)))))
    eq_refl _ eq_refl eq_refl "x.y" eq_refl).
  discriminate.
Defined.

(** The scenario of the manager: with role Manager and the set
    [user.read], a route that requires [role.read] shows the permission
    denial that names it, and no redirect. *)
Example manager_denied_role_read :
  ProtectedRoute.ProtectedRoute Sample.bob_session "/roles"
    (ProtectedRoute.mkProps tt (Some "role.read") None None)
  = ProtectedRoute.DeniedPermission "role.read".
Proof. reflexivity. Qed.

(** ** Permission-gated controls *)

Section Gating.

Import Ui.

Variable hasPermission : string -> bool.
Variable unicode_lower : string -> string.

Local Abbreviation respects := (Ui.respects hasPermission).

Lemma plain_respects k l : respects (plain k l).
Proof. intros p H. discriminate H. Qed.

Lemma when_respects (cond : bool) k l p :
  (cond = true -> hasPermission p = true) ->
  Forall respects (when cond (gated p k l)).
Proof.
  intros H. unfold when. destruct cond; constructor; [| constructor].
  intros q [= <-]. now apply H.
Qed.

Lemma Forall_flat_map_intro {A B} (P : B -> Prop) (f : A -> list B) (l : list A) :
  (forall a, Forall P (f a)) -> Forall P (flat_map f l).
Proof.
  intros H. induction l as [| a l IH]; simpl; [constructor |].
  apply Forall_app. split; [apply H | exact IH].
Qed.

Ltac gate :=
  repeat first
    [ apply Forall_app; split
    | apply Forall_cons
    | apply Forall_nil
    | apply plain_respects
    | apply when_respects; intros H;
      try (apply andb_prop in H; destruct H); assumption
    | apply Forall_flat_map_intro; intros ? ].

Lemma Users_render_respects (s : Users.State) :
  Forall respects (Users.render unicode_lower hasPermission s).
Proof.
  unfold Users.render. destruct (Users.loading s); [constructor |].
  unfold Users.row. gate.
Qed.

Lemma Roles_render_respects (s : Roles.State) :
  Forall respects (Roles.render unicode_lower hasPermission s).
Proof.
  unfold Roles.render. destruct (Roles.loading s); [constructor |].
  unfold Roles.row. gate.
Qed.

Lemma Permissions_render_respects (s : Permissions.State) :
  Forall respects (Permissions.render unicode_lower hasPermission s).
Proof.
  unfold Permissions.render. destruct (Permissions.loading s); [constructor |].
  unfold Permissions.row. gate.
Qed.

(** On the assignment screen a control that depends on a permission
    is held back by being disabled. *)
Lemma RolePermissions_render_disables (s : RolePermissions.State) :
  Forall (fun el =>
            forall p, needs el = Some p ->
                      kind el = Checkbox /\ p = "permission.assign"
                      /\ disabled el = negb (hasPermission p))
         (RolePermissions.render hasPermission s).
Proof.
  unfold RolePermissions.render, RolePermissions.component.
  destruct (RolePermissions.groupPermissionsByCategory _) as [groups | e];
    [| constructor].
  destruct (RolePermissions.loading s); [constructor |].
  apply Forall_app. split.
  - apply Forall_cons; [intros p H; discriminate H |].
    apply Forall_cons; [intros p H; discriminate H | constructor].
  - destruct (String.eqb (RolePermissions.selectedRole s) ""); [constructor |].
    apply Forall_flat_map_intro. intros [category categoryPermissions].
    apply Forall_forall. intros el Hel. apply in_map_iff in Hel as (x & <- & _).
    intros p [= <-]. repeat split.
Qed.

End Gating.

Lemma array_includes_false (x : string) (l : list string) :
  ~ In x l -> array_includes x l = false.
Proof.
  intros H. unfold array_includes.
  destruct (existsb (String.eqb x) l) eqn:E; [| reflexivity].
  apply existsb_exists in E as (y & Hy & Heq).
  apply String.eqb_eq in Heq. now subst.
Qed.

(** C7 (as stated) fails: Bob lacks [permission.assign], and the
    assignment screen still renders the checkbox that depends on it,
    disabled. *)
Lemma assignment_checkbox_rendered_disabled :
  ~ In "permission.assign" (AuthContext.permissions Sample.bob_session)
  /\ AuthContext.hasPermission Sample.bob_session "permission.assign" = false
  /\ In {| Ui.kind := Ui.Checkbox;
           Ui.label := "permission-1";
           Ui.disabled := true;
           Ui.checked := true;
           Ui.needs := Some "permission.assign" |}
        (RolePermissions.render
           (AuthContext.hasPermission Sample.bob_session)
           Sample.manager_screen).
Proof.
  split; [| split].
  - intros [H | []]. discriminate H.
  - reflexivity.
  - right. right. left. reflexivity.
Qed.

(** C7 (as amended).  For every permission name [p] that is not in the
    resolved permission set, [hasPermission p] is false, and the render
    output of the Users, Roles and Permissions screens holds no control
    that depends on [p]: the gated create, edit and delete controls are
    left out.  On the role-permission assignment screen the only
    controls that depend on [p] are the assignment checkboxes, which are
    rendered and disabled. *)
Theorem gated_controls_left_out :
  forall (unicode_lower : string -> string) (auth : AuthContext.State) (p : string),
    ~ In p (AuthContext.permissions auth) ->
    AuthContext.hasPermission auth p = false
    /\ (forall s el,
           In el (Users.render unicode_lower (AuthContext.hasPermission auth) s) ->
           Ui.needs el <> Some p)
    /\ (forall s el,
           In el (Roles.render unicode_lower (AuthContext.hasPermission auth) s) ->
           Ui.needs el <> Some p)
    /\ (forall s el,
           In el (Permissions.render unicode_lower
                    (AuthContext.hasPermission auth) s) ->
           Ui.needs el <> Some p)
    /\ (forall s el,
           In el (RolePermissions.render (AuthContext.hasPermission auth) s) ->
           Ui.needs el = Some p ->
           Ui.kind el = Ui.Checkbox /\ Ui.disabled el = true).
Proof.
  intros unicode_lower auth p Hp.
  assert (Hf : AuthContext.hasPermission auth p = false)
    by now apply array_includes_false.
  split; [exact Hf |].
  assert (Hgen : forall l, Forall (Ui.respects (AuthContext.hasPermission auth)) l ->
                           forall el, In el l -> Ui.needs el <> Some p).
  { intros l Hl el Hin Hn. rewrite Forall_forall in Hl.
    specialize (Hl el Hin p Hn). congruence. }
  split; [intros s; apply Hgen, Users_render_respects |].
  split; [intros s; apply Hgen, Roles_render_respects |].
  split; [intros s; apply Hgen, Permissions_render_respects |].
  intros s el Hin Hn.
  pose proof (RolePermissions_render_disables (AuthContext.hasPermission auth) s) as H.
  rewrite Forall_forall in H. destruct (H el Hin p Hn) as (Hk & _ & Hd).
  split; [exact Hk |]. now rewrite Hd, Hf.
Qed.

Lemma gated_controls_left_out_witness :
  AuthContext.hasPermission Sample.bob_session "user.create" = false
  /\ forall s el,
       In el (Users.render (fun text => text)
                (AuthContext.hasPermission Sample.bob_session) s) ->
       Ui.needs el <> Some "user.create".
Proof.
  pose proof (gated_controls_left_out (fun text => text) Sample.bob_session
                "user.create") as H.
  assert (Hn : ~ In "user.create" (AuthContext.permissions Sample.bob_session)).
  { intros [E | []]. discriminate E. }
  destruct (H Hn) as (H1 & H2 & _). split; assumption.
Defined.

(** ** The role-permission assignment screen *)

Section ToggleFacts.

Variable baseURL : string.
Context {W : Type}.
Variable fetch : Api.Request -> W -> Api.FetchResult * W.
Variable hasPermission : string -> bool.

Import Api RolePermissions.

Lemma fetchRolePermissions_run roleId (c : Cfg State W) :
  fetchRolePermissions baseURL fetch roleId c
  = let endpoint := "/rolepermissions/role/" ++ roleId in
    let r := Api.get baseURL fetch endpoint (world c) in
    (Ok tt,
     mkCfg
       match fst r with
       | Ok response =>
           if success response && isArray (data response) then
             setRolePermissions (AuthContext.data_rows (data response)) (st c)
           else st c
       | Throw _ => st c
       end
       (snd r)
       (trace c ++ [(prepare baseURL endpoint (only_method "GET" None), st c)])
       match fst r with
       | Ok _ => toasts c
       | Throw error =>
           toasts c ++
             [ {| title := "Error";
                  description :=
                    or_else (message_of error) "Failed to fetch role permissions";
                  variant := Some "destructive" |} ]
       end).
Proof.
  unfold fetchRolePermissions, try_catch, bind, api_get, Api.get, toast, ret,
    set_state.
  rewrite request_pending. cbv zeta.
  destruct (Api.request baseURL fetch _ _ (world c)) as [[response | e] w'];
    cbn [fst snd]; [| reflexivity].
  destruct (success response && isArray (data response)); reflexivity.
Qed.

Lemma togglePermission_disabled permissionId (c : Cfg State W) :
  selectedRole (st c) = "" \/ hasPermission "permission.assign" = false ->
  togglePermission baseURL fetch hasPermission permissionId c = (Ok tt, c).
Proof.
  intros H. unfold togglePermission, bind, closure, ret.
  destruct H as [-> | ->]; [reflexivity |].
  now rewrite orb_true_r.
Qed.

Lemma togglePermission_run permissionId (c : Cfg State W) :
  selectedRole (st c) <> "" ->
  hasPermission "permission.assign" = true ->
  let s := st c in
  let first :=
    Api.request baseURL fetch "/rolepermissions"
      (only_method (if hasRolePermission s permissionId then "DELETE" else "POST")
         (Some (AssignmentData (parseInt (selectedRole s)) permissionId)))
      (world c) in
  let c' := snd (togglePermission baseURL fetch hasPermission permissionId c) in
  match fst first with
  | Throw _ =>
      trace c' = (trace c ++ [(mutation baseURL s permissionId, s)])%list
      /\ st c' = s /\ world c' = snd first
  | Ok _ =>
      let second :=
        Api.get baseURL fetch ("/rolepermissions/role/" ++ selectedRole s)
          (snd first) in
      trace c' = (trace c ++ [(mutation baseURL s permissionId, s);
                              (refetch baseURL s, s)])%list
      /\ world c' = snd second
      /\ st c' = setChanges (set_add permissionId)
                   match fst second with
                   | Ok response =>
                       if success response && isArray (data response) then
                         setRolePermissions
                           (AuthContext.data_rows (data response)) s
                       else s
                   | Throw _ => s
                   end
  end.
Proof.
  intros Hsel Hassign. cbv zeta.
  unfold togglePermission, bind, closure, try_catch.
  destruct (String.eqb_spec (selectedRole (st c)) ""); [contradiction |].
  rewrite Hassign. cbn [orb negb].
  unfold mutation, refetch.
  destruct (hasRolePermission (st c) permissionId);
    unfold api_delete, api_post, Api.delete, Api.post;
    rewrite request_pending;
    destruct (Api.request baseURL fetch _ _ (world c)) as [[response | e] w'];
    cbn [fst snd]; unfold ret, toast; cbn [fst snd st world trace toasts];
    try (repeat split; reflexivity).
  all: rewrite fetchRolePermissions_run; cbv zeta; cbn [st world trace toasts fst snd];
    unfold set_state; cbn [st world trace toasts fst snd];
    rewrite <- app_assoc; repeat split.
Qed.

End ToggleFacts.

Section BackendFacts.

Variable baseURL : string.
Variable role_of : Z -> Api.Role.
Variable permission_of : Z -> Api.Permission.

Import Api Backend.

Local Abbreviation peer := (Backend.fetch baseURL role_of permission_of).











Variable hasPermission : string -> bool.

Import RolePermissions.


End BackendFacts.

(** [hasRolePermission] is membership in the assignment list the
    screen holds. *)
Lemma hasRolePermission_listed (s : RolePermissions.State) (permissionId : Z) :
  RolePermissions.hasRolePermission s permissionId = true
  <-> exists rp, In rp (RolePermissions.rolePermissions s)
                 /\ Api.RP_permission_id rp = permissionId.
Proof.
  unfold RolePermissions.hasRolePermission. rewrite existsb_exists.
  split; intros (rp & Hin & E); exists rp; split; auto; now apply Z.eqb_eq.
Qed.

(** C5 (as stated) fails: the grant is rejected, and the toggle sends
    nothing more: no refetch of the role's list follows, the list stays
    as it was and an error toast is shown. *)
Lemma toggle_failure_sends_no_refetch :
  let c := mkCfg Sample.manager_screen [Api.Rejected (JsError "Failed to fetch")]
             [] [] in
  let c' :=
    snd (RolePermissions.togglePermission Sample.base Sample.scripted
           (fun _ => true) 7 c) in
  sent c'
  = [ Api.prepare Sample.base "/rolepermissions"
        (Api.only_method "POST" (Some (Api.AssignmentData (Some 2) 7))) ]
  /\ RolePermissions.rolePermissions (st c') = [Sample.manager_user_read]
  /\ toasts c' = [Api.mkToast "Error" "Failed to fetch" (Some "destructive")].
Proof. repeat split. Qed.

(** C5 (as amended).  With a role selected and the toggle enabled (the
    user holds [permission.assign]), toggling a permission sends exactly
    one mutating call to [/rolepermissions], for the selected role and
    that permission: a [DELETE] when the assignment list the screen
    holds at that time has a row of the permission, a [POST] when it has
    none.  When that call returns, the one further call is the [GET] of
    the role's full list, sent while the screen still shows the list
    unchanged, and the list is replaced only by what that refetch
    returns; when the mutating call throws, nothing else is sent and the
    list stays as it was. *)
Theorem toggle_sends_one_mutation_then_refetches :
  forall (baseURL : string) (W : Type)
         (fetch : Api.Request -> W -> Api.FetchResult * W)
         (hasPermission : string -> bool) (permissionId : Z)
         (c : Cfg RolePermissions.State W),
    RolePermissions.selectedRole (st c) <> "" ->
    hasPermission "permission.assign" = true ->
    let s := st c in
    let listed :=
      exists rp, In rp (RolePermissions.rolePermissions s)
                 /\ Api.RP_permission_id rp = permissionId in
    let options verb :=
      Api.only_method verb
        (Some (Api.AssignmentData (parseInt (RolePermissions.selectedRole s))
                 permissionId)) in
    let refetch :=
      Api.prepare baseURL
        ("/rolepermissions/role/" ++ RolePermissions.selectedRole s)
        (Api.only_method "GET" None) in
    let c' :=
      snd (RolePermissions.togglePermission baseURL fetch hasPermission
             permissionId c) in
    exists verb,
      (listed /\ verb = "DELETE" \/ ~ listed /\ verb = "POST")
      /\ let grant_or_revoke :=
           Api.prepare baseURL "/rolepermissions" (options verb) in
         let first :=
           Api.request baseURL fetch "/rolepermissions" (options verb) (world c) in
         match fst first with
         | Throw _ =>
             trace c' = (trace c ++ [(grant_or_revoke, s)])%list
             /\ RolePermissions.rolePermissions (st c')
                = RolePermissions.rolePermissions s
         | Ok _ =>
             trace c' = (trace c ++ [(grant_or_revoke, s); (refetch, s)])%list
             /\ RolePermissions.rolePermissions (st c')
                = match fst (Api.get baseURL fetch
                               ("/rolepermissions/role/"
                                  ++ RolePermissions.selectedRole s)
                               (snd first)) with
                  | Ok response =>
                      if Api.success response && Api.isArray (Api.data response)
                      then AuthContext.data_rows (Api.data response)
                      else RolePermissions.rolePermissions s
                  | Throw _ => RolePermissions.rolePermissions s
                  end
         end.
Proof.
  intros baseURL W fetch hasPermission permissionId c Hsel Hassign.
  cbv zeta.
  pose proof (togglePermission_run baseURL fetch hasPermission permissionId c
                Hsel Hassign) as H.
  cbv zeta in H. unfold RolePermissions.mutation, RolePermissions.refetch in H.
  pose proof (hasRolePermission_listed (st c) permissionId) as Hl.
  exists (if RolePermissions.hasRolePermission (st c) permissionId
          then "DELETE" else "POST").
  split.
  - destruct (RolePermissions.hasRolePermission (st c) permissionId).
    + left. split; [now apply Hl | reflexivity].
    + right. split; [| reflexivity]. intros Hin. apply Hl in Hin. discriminate.
  - destruct (fst (Api.request baseURL fetch "/rolepermissions" _ (world c))).
    + destruct H as (Ht & _ & Hs). split; [exact Ht |]. rewrite Hs.
      destruct (fst (Api.get baseURL fetch _ _)) as [response | e]; [| reflexivity].
      destruct (Api.success response && Api.isArray (Api.data response));
        reflexivity.
    + destruct H as (Ht & Hs & _). split; [exact Ht | now rewrite Hs].
Qed.

Lemma toggle_sends_one_mutation_then_refetches_witness :
  let peer := Backend.fetch Sample.base Sample.role_of Sample.permission_of in
  let after permissionId :=
    snd (RolePermissions.togglePermission Sample.base peer (fun _ => true)
           permissionId (mkCfg Sample.manager_screen Sample.server [] [])) in
  let listed permissionId :=
    exists rp, In rp [Sample.manager_user_read]
               /\ Api.RP_permission_id rp = permissionId in
  (exists verb,
      (listed 7 /\ verb = "DELETE" \/ ~ listed 7 /\ verb = "POST")
      /\ sent (after 7)
         = [ Api.prepare Sample.base "/rolepermissions"
               (Api.only_method verb (Some (Api.AssignmentData (Some 2) 7)));
             Api.prepare Sample.base "/rolepermissions/role/2"
               (Api.only_method "GET" None) ]
      /\ map Api.RP_permission_id (RolePermissions.rolePermissions (st (after 7)))
         = [1; 7])
  /\ (exists verb,
         (listed 1 /\ verb = "DELETE" \/ ~ listed 1 /\ verb = "POST")
         /\ sent (after 1)
            = [ Api.prepare Sample.base "/rolepermissions"
                  (Api.only_method verb (Some (Api.AssignmentData (Some 2) 1)));
                Api.prepare Sample.base "/rolepermissions/role/2"
                  (Api.only_method "GET" None) ]
         /\ RolePermissions.rolePermissions (st (after 1)) = []).
Proof.
  cbv zeta. split.
  - destruct (toggle_sends_one_mutation_then_refetches Sample.base _
                (Backend.fetch Sample.base Sample.role_of Sample.permission_of)
                (fun _ => true) 7
                (mkCfg Sample.manager_screen Sample.server [] [])
                ltac:(discriminate) eq_refl) as (verb & [[Hl ->] | [Hl ->]] & H).
    + exfalso. destruct Hl as (rp & [<- | []] & E). discriminate E.
    + exists "POST". split; [right; split; [exact Hl | reflexivity] |].
      cbv zeta in H. destruct H as (Ht & Hs).
      unfold sent. rewrite Ht, Hs. split; reflexivity.
  - destruct (toggle_sends_one_mutation_then_refetches Sample.base _
                (Backend.fetch Sample.base Sample.role_of Sample.permission_of)
                (fun _ => true) 1
                (mkCfg Sample.manager_screen Sample.server [] [])
                ltac:(discriminate) eq_refl) as (verb & [[Hl ->] | [Hl ->]] & H).
    + exists "DELETE". split; [left; split; [exact Hl | reflexivity] |].
      cbv zeta in H. destruct H as (Ht & Hs).
      unfold sent. rewrite Ht, Hs. split; reflexivity.
    + exfalso. apply Hl. exists Sample.manager_user_read.
      split; [left |]; reflexivity.
Defined.



(** The scenario of the grant: the grant call for role 2 and permission
    7 succeeds and is followed by the refetch of [/rolepermissions/role/2];
    the list then holds permission 7. *)
Example grant_then_refetch_lists_7 :
  RolePermissions.hasRolePermission
    (st (snd (RolePermissions.togglePermission Sample.base
                (Backend.fetch Sample.base Sample.role_of Sample.permission_of)
                (fun _ => true) 7
                (mkCfg Sample.manager_screen Sample.server [] []))))
    7 = true.
Proof. reflexivity. Qed.

(** * Further properties *)

(** ** Strings *)

Lemma prefix_iff (p s : string) :
  String.prefix p s = true <-> exists post, s = p ++ post.
Proof.
  revert s. induction p as [| a p IH]; intros s.
  - split; [intros _; now exists s | intros _; now destruct s].
  - destruct s as [| b s]; simpl.
    + split; [discriminate | intros (post & E); discriminate E].
    + destruct (Ascii.ascii_dec a b) as [-> | Hab].
      * rewrite IH. split; intros (post & E); exists post.
        -- now rewrite E.
        -- now injection E.
      * split; [discriminate |].
        intros (post & E). injection E as E1 E2. congruence.
Qed.

Lemma includes_unfold (sub s : string) :
  includes sub s
  = (String.prefix sub s
     || match s with
        | EmptyString => false
        | String _ rest => includes sub rest
        end).
Proof. destruct s; unfold includes; fold includes; now destruct (String.prefix sub _). Qed.

Lemma includes_iff (sub s : string) :
  includes sub s = true <-> exists pre post, s = pre ++ sub ++ post.
Proof.
  induction s as [| c s IH]; rewrite includes_unfold.
  - rewrite orb_false_r, prefix_iff. split.
    + intros (post & E). now exists "", post.
    + intros (pre & post & H). destruct pre; [| discriminate H]. now exists post.
  - rewrite orb_true_iff, prefix_iff, IH. split.
    + intros [(post & E) | (pre & post & E)].
      * now exists "", post.
      * exists (String c pre), post. simpl. now rewrite E.
    + intros (pre & post & H). destruct pre as [| d pre]; simpl in H.
      * left. now exists post.
      * right. injection H as _ H. eauto.
Qed.

(** ** The API client, further *)

(** X1.  [request] completes normally with an envelope exactly when
    [fetch] resolved with a 2xx status and a body that parses to that
    envelope; the peer is then in the state the one [fetch] left it
    in. *)
Theorem request_succeeds_iff :
  forall (baseURL : string) (W : Type)
         (fetch : Api.Request -> W -> Api.FetchResult * W)
         (endpoint : string) (options : Api.RequestInit)
         (w w' : W) (e : Api.ApiResponse),
    Api.request baseURL fetch endpoint options w = (Ok e, w')
    <-> exists r,
          fetch (Api.prepare baseURL endpoint options) w = (Api.Resolved r, w')
          /\ Api.ok r = true
          /\ Api.json r = Api.Json e.
Proof.
  intros baseURL W fetch endpoint options w w' e.
  rewrite request_unfold.
  destruct (fetch (Api.prepare baseURL endpoint options) w) as [settled w1].
  cbn [fst snd]. split.
  - intros H. injection H as H <-.
    destruct settled as [x | r]; [destruct x; discriminate H |].
    exists r. unfold Api.request_try in H.
    destruct (Api.ok r) eqn:Hok; cbn [negb] in H.
    + destruct (Api.json r) as [e' | why]; [| discriminate H].
      injection H as ->. auto.
    + destruct (Api.status r =? 429); discriminate H.
  - intros (r & [= -> ->] & Hok & Hj).
    unfold Api.request_try. now rewrite Hok, Hj.
Qed.

(** X2.  A call of [request] makes exactly one [fetch] (the peer ends in
    the state that [fetch] left it in: nothing is retried), and when it
    throws, what it throws is an [Error] object, also when [fetch]
    rejected with something else. *)
Theorem request_one_fetch_and_throws_errors :
  forall (baseURL : string) (W : Type)
         (fetch : Api.Request -> W -> Api.FetchResult * W)
         (endpoint : string) (options : Api.RequestInit) (w : W),
    snd (Api.request baseURL fetch endpoint options w)
    = snd (fetch (Api.prepare baseURL endpoint options) w)
    /\ forall x,
         fst (Api.request baseURL fetch endpoint options w) = Throw x ->
         instanceof_Error x = true.
Proof.
  intros baseURL W fetch endpoint options w.
  rewrite request_unfold. cbn [fst snd]. split; [reflexivity |].
  intros x H.
  destruct (fst (fetch (Api.prepare baseURL endpoint options) w)) as [y | r].
  - destruct y; injection H as <-; reflexivity.
  - unfold Api.request_try, Api.request_catch in H.
    destruct (negb (Api.ok r)).
    + destruct (Api.status r =? 429); injection H as <-; reflexivity.
    + destruct (Api.json r); [discriminate H | injection H as <-; reflexivity].
Qed.

(** X3.  [handleRateLimit] always gives a destructive toast; it is the
    "Rate Limit Exceeded" toast exactly when the message of the error
    contains "Rate limit" somewhere, and otherwise the "Error" toast
    that shows the message itself. *)
Theorem handleRateLimit_by_substring :
  forall m : string,
    Api.variant (Api.handleRateLimit m) = Some "destructive"
    /\ (Api.title (Api.handleRateLimit m) = "Rate Limit Exceeded"
        <-> exists pre post, m = pre ++ "Rate limit" ++ post)
    /\ (Api.title (Api.handleRateLimit m) = "Error"
        <-> ~ exists pre post, m = pre ++ "Rate limit" ++ post)
    /\ (Api.title (Api.handleRateLimit m) = "Error" ->
        Api.description (Api.handleRateLimit m) = m).
Proof.
  intros m. rewrite <- includes_iff. unfold Api.handleRateLimit.
  destruct (includes "Rate limit" m); cbn; repeat split;
    try discriminate; try reflexivity; try (intros H; exact (H eq_refl)).
  all: intros H; try discriminate H; congruence.
Qed.

Lemma request_one_fetch_and_throws_errors_witness :
  instanceof_Error (JsError "Network error occurred") = true.
Proof.
  exact (proj2 (request_one_fetch_and_throws_errors Sample.base _ Sample.scripted
                  "/users" (Api.only_method "GET" None) [Api.Rejected NonError])
               _ eq_refl).
Defined.

Lemma handleRateLimit_by_substring_witness :
  Api.description (Api.handleRateLimit "HTTP 500: Internal Server Error")
  = "HTTP 500: Internal Server Error".
Proof.
  exact (proj2 (proj2 (proj2 (handleRateLimit_by_substring
                                "HTTP 500: Internal Server Error")))
               eq_refl).
Defined.

(** ** The session store, further *)

Section StoreRunsFurther.

Variable baseURL : string.
Context {W : Type}.
Variable fetch : Api.Request -> W -> Api.FetchResult * W.

Import Api AuthContext.

(** What hydration does, by the identity that the answer to [/userdata]
    carries, if any. *)
Lemma fetchUserData_run (c : Cfg State W) :
  fetchUserData baseURL fetch c
  = let r := Api.get baseURL fetch "/userdata" (world c) in
    let asked :=
      (trace c ++ [(prepare baseURL "/userdata" (only_method "GET" None), st c)])%list in
    match
      match fst r with
      | Ok response =>
          if success response then data_user (data response) else None
      | Throw _ => None
      end
    with
    | Some userData =>
        let c2 :=
          snd (fetchPermissions baseURL fetch (User_role_id userData)
                 (mkCfg (setUser (Some userData) (st c)) (snd r) asked (toasts c))) in
        (Ok tt, mkCfg (setLoading false (st c2)) (world c2) (trace c2) (toasts c2))
    | None =>
        (Ok tt, mkCfg (setLoading false (st c)) (snd r) asked (toasts c))
    end.
Proof.
  unfold fetchUserData, try_finally, try_catch, bind, api_get, Api.get.
  rewrite request_pending. cbv zeta.
  destruct (Api.request baseURL fetch _ _ (world c)) as [[response | e] w'];
    cbn [fst snd]; [| reflexivity].
  destruct (if success response then data_user (data response) else None)
    as [userData |]; [| reflexivity].
  unfold set_state at 1. cbn [st world trace toasts].
  rewrite fetchPermissions_run. reflexivity.
Qed.

Lemma login_run email password (c : Cfg State W) :
  login baseURL fetch email password c
  = let r := Api.post baseURL fetch "/login" (Some (LoginData email password))
               (world c) in
    let asked :=
      (trace c ++ [(prepare baseURL "/login"
                      (only_method "POST" (Some (LoginData email password))),
                    st c)])%list in
    match fst r with
    | Ok response =>
        if success response then
          let c2 := snd (fetchUserData baseURL fetch
                           (mkCfg (st c) (snd r) asked (toasts c))) in
          (Ok true,
           mkCfg (st c2) (world c2) (trace c2)
             (toasts c2 ++
                [ {| title := "Login successful";
                     description := "Welcome back to ERP Admin";
                     variant := None |} ]))
        else
          (Ok false,
           mkCfg (st c) (snd r) asked
             (toasts c ++
                [ {| title := "Login failed";
                     description := or_else (message response) "Invalid credentials";
                     variant := Some "destructive" |} ]))
    | Throw error =>
        (Ok false,
         mkCfg (st c) (snd r) asked
           (toasts c ++
              [ {| title := "Login error";
                   description :=
                     or_else (message_of error) "An error occurred during login";
                   variant := Some "destructive" |} ]))
    end.
Proof.
  unfold login, try_catch, bind, api_post, Api.post.
  rewrite request_pending. cbv zeta.
  destruct (Api.request baseURL fetch _ _ (world c)) as [[response | e] w'];
    cbn [fst snd]; [| reflexivity].
  destruct (success response); [| reflexivity].
  rewrite fetchUserData_run. cbv zeta. cbn [st world trace toasts].
  destruct (match fst (Api.get baseURL fetch "/userdata" w') with
            | Ok response0 =>
                if success response0 then data_user (data response0) else None
            | Throw _ => None
            end); reflexivity.
Qed.

Lemma register_run name email password roleId (c : Cfg State W) :
  register baseURL fetch name email password roleId c
  = let r := Api.post baseURL fetch "/register"
               (Some (RegisterData name email password roleId)) (world c) in
    (Ok match fst r with
        | Ok response => success response
        | Throw _ => false
        end,
     mkCfg (st c) (snd r)
       (trace c ++ [(prepare baseURL "/register"
                       (only_method "POST"
                          (Some (RegisterData name email password roleId))),
                     st c)])
       (toasts c ++
          [ match fst r with
            | Ok response =>
                if success response then
                  {| title := "Registration successful";
                     description := "Account created successfully. Please login.";
                     variant := None |}
                else
                  {| title := "Registration failed";
                     description :=
                       or_else (message response) "Failed to create account";
                     variant := Some "destructive" |}
            | Throw error =>
                {| title := "Registration error";
                   description :=
                     or_else (message_of error)
                       "An error occurred during registration";
                   variant := Some "destructive" |}
            end ])).
Proof.
  unfold register, try_catch, bind, api_post, Api.post.
  rewrite request_pending. cbv zeta.
  destruct (Api.request baseURL fetch _ _ (world c)) as [[response | e] w'];
    cbn [fst snd]; [| reflexivity].
  destruct (success response); reflexivity.
Qed.

Lemma refreshPermissions_run (c : Cfg State W) :
  refreshPermissions baseURL fetch c
  = match user (st c) with
    | Some u =>
        if User_role_id u =? 0 then (Ok tt, c)
        else fetchPermissions baseURL fetch (User_role_id u) c
    | None => (Ok tt, c)
    end.
Proof.
  unfold refreshPermissions, bind, closure, ret.
  destruct (user (st c)) as [u |]; [| reflexivity].
  destruct (User_role_id u =? 0); reflexivity.
Qed.

Lemma fetchUserData_loading (c : Cfg State W) :
  loading (st (snd (fetchUserData baseURL fetch c))) = false.
Proof.
  rewrite fetchUserData_run. cbv zeta.
  destruct (match fst (Api.get baseURL fetch "/userdata" (world c)) with
            | Ok response =>
                if success response then data_user (data response) else None
            | Throw _ => None
            end); reflexivity.
Qed.

Lemma fetchPermissions_frame roleId (c : Cfg State W) :
  user (st (snd (fetchPermissions baseURL fetch roleId c))) = user (st c)
  /\ loading (st (snd (fetchPermissions baseURL fetch roleId c))) = loading (st c).
Proof.
  rewrite fetchPermissions_run. cbv zeta. cbn [snd st].
  destruct (fst (Api.get baseURL fetch _ (world c))) as [response |];
    [destruct (success response && isArray (data response)) |]; split; reflexivity.
Qed.

End StoreRunsFurther.

(** X4.  Hydration ([fetchUserData]) never throws and always ends with
    [loading] false.  When [/userdata] answers with [success] and a
    [user], that user becomes the identity and exactly one further call
    follows, the fetch of the rows of the user's [role_id]; in every
    other case (a throwing call, [success: false], no [user]) the
    identity and the permission set are left as they were and nothing
    else is called. *)
Theorem hydration_settles :
  forall (baseURL : string) (W : Type)
         (fetch : Api.Request -> W -> Api.FetchResult * W)
         (c : Cfg AuthContext.State W),
    let r := Api.get baseURL fetch "/userdata" (world c) in
    let c' := snd (AuthContext.fetchUserData baseURL fetch c) in
    fst (AuthContext.fetchUserData baseURL fetch c) = Ok tt
    /\ AuthContext.loading (st c') = false
    /\ match
         match fst r with
         | Ok response =>
             if Api.success response
             then AuthContext.data_user (Api.data response) else None
         | Throw _ => None
         end
       with
       | Some u =>
           AuthContext.user (st c') = Some u
           /\ sent c'
              = (sent c ++
                   [ Api.prepare baseURL "/userdata" (Api.only_method "GET" None);
                     Api.prepare baseURL
                       ("/rolepermissions/role/" ++ toString (Api.User_role_id u))
                       (Api.only_method "GET" None) ])%list
       | None =>
           AuthContext.user (st c') = AuthContext.user (st c)
           /\ AuthContext.permissions (st c') = AuthContext.permissions (st c)
           /\ sent c'
              = (sent c ++
                   [Api.prepare baseURL "/userdata" (Api.only_method "GET" None)])%list
       end.
Proof.
  intros baseURL W fetch c. cbv zeta.
  rewrite fetchUserData_run. cbv zeta.
  destruct (match fst (Api.get baseURL fetch "/userdata" (world c)) with
            | Ok response =>
                if Api.success response
                then AuthContext.data_user (Api.data response) else None
            | Throw _ => None
            end) as [u |].
  - rewrite fetchPermissions_run. cbv zeta. cbn [fst snd st world trace toasts].
    unfold sent. cbn [trace]. rewrite !map_app, <- app_assoc. cbn [map fst app].
    repeat split.
    destruct (fst (Api.get baseURL fetch _ _)) as [response |];
      [destruct (Api.success response && Api.isArray (Api.data response)) |];
      reflexivity.
  - cbn [fst snd st world trace toasts]. unfold sent. cbn [trace].
    rewrite map_app. repeat split.
Qed.

(** X5.  [login] never throws, and what it returns is decided by the
    call to [/login] alone: [true] exactly when that call returns an
    envelope with [success] set.  When it returns [false] the store is
    left as it was, only the one call was made and one destructive toast
    was added.  When it returns [true] the store ends as the hydration
    that follows leaves it, whether or not that hydration finds an
    identity. *)
Theorem login_outcome :
  forall (baseURL : string) (W : Type)
         (fetch : Api.Request -> W -> Api.FetchResult * W)
         (email password : string) (c : Cfg AuthContext.State W),
    let call :=
      Api.prepare baseURL "/login"
        (Api.only_method "POST" (Some (Api.LoginData email password))) in
    let r := Api.post baseURL fetch "/login"
               (Some (Api.LoginData email password)) (world c) in
    let out := AuthContext.login baseURL fetch email password c in
    fst out = Ok match fst r with
                 | Ok response => Api.success response
                 | Throw _ => false
                 end
    /\ (fst out = Ok false ->
        st (snd out) = st c
        /\ sent (snd out) = (sent c ++ [call])%list
        /\ exists t, toasts (snd out) = (toasts c ++ [t])%list
                     /\ Api.variant t = Some "destructive")
    /\ (fst out = Ok true ->
        st (snd out)
        = st (snd (AuthContext.fetchUserData baseURL fetch
                     (mkCfg (st c) (snd r) (trace c ++ [(call, st c)]) (toasts c))))
        /\ AuthContext.loading (st (snd out)) = false).
Proof.
  intros baseURL W fetch email password c. cbv zeta.
  rewrite login_run. cbv zeta.
  destruct (fst (Api.post baseURL fetch "/login" _ (world c))) as [response | e].
  - destruct (Api.success response); cbn [fst snd st trace toasts].
    + split; [reflexivity |]. split; [discriminate |]. intros _.
      split; [reflexivity |].
      apply fetchUserData_loading.
    + split; [reflexivity |]. split; [| discriminate]. intros _.
      unfold sent. cbn [trace]. rewrite map_app. repeat split.
      eexists. split; reflexivity.
  - cbn [fst snd st trace toasts].
    split; [reflexivity |]. split; [| discriminate]. intros _.
    unfold sent. cbn [trace]. rewrite map_app. repeat split.
    eexists. split; reflexivity.
Qed.

Lemma login_outcome_witness :
  st (snd (AuthContext.login Sample.base Sample.scripted "bob@example.com" "wrong"
             (mkCfg AuthContext.initial
                [Sample.answer 200 "OK"
                   (Sample.envelope false "Invalid credentials" None)]
                [] [])))
  = AuthContext.initial.
Proof.
  exact (proj1 (proj1 (proj2 (login_outcome Sample.base _ Sample.scripted
                                "bob@example.com" "wrong"
                                (mkCfg AuthContext.initial
                                   [Sample.answer 200 "OK"
                                      (Sample.envelope false "Invalid credentials"
                                         None)]
                                   [] [])))
                      eq_refl)).
Defined.

(** X6.  [register] never throws and never touches the store: identity,
    permission set and loading flag are as before.  It makes the one
    call to [/register], returns [true] exactly when that call returns
    an envelope with [success] set, and adds one toast. *)
Theorem register_leaves_store :
  forall (baseURL : string) (W : Type)
         (fetch : Api.Request -> W -> Api.FetchResult * W)
         (name email password : string) (roleId : Z)
         (c : Cfg AuthContext.State W),
    let data := Some (Api.RegisterData name email password roleId) in
    let r := Api.post baseURL fetch "/register" data (world c) in
    let out := AuthContext.register baseURL fetch name email password roleId c in
    fst out = Ok match fst r with
                 | Ok response => Api.success response
                 | Throw _ => false
                 end
    /\ st (snd out) = st c
    /\ sent (snd out)
       = (sent c ++ [Api.prepare baseURL "/register" (Api.only_method "POST" data)])%list
    /\ length (toasts (snd out)) = S (length (toasts c)).
Proof.
  intros baseURL W fetch name email password roleId c. cbv zeta.
  rewrite register_run. cbv zeta. cbn [fst snd st trace toasts].
  unfold sent. cbn [trace]. rewrite map_app, length_app. cbn [map fst length].
  repeat split. apply Nat.add_1_r.
Qed.

(** X7.  [refreshPermissions] does nothing at all (no call, no change)
    when there is no identity or when the identity's [role_id] is 0;
    otherwise it makes exactly one call, the fetch of the rows of that
    [role_id], and leaves the identity and the loading flag as they
    were. *)
Theorem refreshPermissions_calls :
  forall (baseURL : string) (W : Type)
         (fetch : Api.Request -> W -> Api.FetchResult * W)
         (c : Cfg AuthContext.State W),
    let out := AuthContext.refreshPermissions baseURL fetch c in
    match AuthContext.user (st c) with
    | None => out = (Ok tt, c)
    | Some u =>
        if Api.User_role_id u =? 0 then out = (Ok tt, c)
        else
          fst out = Ok tt
          /\ sent (snd out)
             = (sent c ++
                  [Api.prepare baseURL
                     ("/rolepermissions/role/" ++ toString (Api.User_role_id u))
                     (Api.only_method "GET" None)])%list
          /\ AuthContext.user (st (snd out)) = Some u
          /\ AuthContext.loading (st (snd out)) = AuthContext.loading (st c)
    end.
Proof.
  intros baseURL W fetch c. cbv zeta. rewrite refreshPermissions_run.
  destruct (AuthContext.user (st c)) as [u |] eqn:Hu; [| reflexivity].
  destruct (Api.User_role_id u =? 0); [reflexivity |].
  destruct (fetchPermissions_frame baseURL fetch (Api.User_role_id u) c) as [H1 H2].
  rewrite H1, H2, Hu. rewrite fetchPermissions_run. cbv zeta.
  cbn [fst snd trace]. unfold sent. cbn [trace]. rewrite map_app.
  repeat split.
Qed.

(** X8.  The loading flag never goes up again: once it is false, it is
    false after every operation of the store, whatever the API
    answers. *)
Theorem loading_stays_false :
  forall (baseURL : string) (W : Type)
         (fetch : Api.Request -> W -> Api.FetchResult * W)
         (o : AuthContext.Op) (c : Cfg AuthContext.State W),
    AuthContext.loading (st c) = false ->
    AuthContext.loading (st (AuthContext.run baseURL fetch o c)) = false.
Proof.
  intros baseURL W fetch o c Hl. destruct o; cbn [AuthContext.run].
  - apply fetchUserData_loading.
  - rewrite login_run. cbv zeta.
    destruct (fst (Api.post baseURL fetch "/login" _ (world c))) as [response |];
      [destruct (Api.success response) |]; cbn [snd st]; try exact Hl.
    apply fetchUserData_loading.
  - rewrite register_run. exact Hl.
  - rewrite logout_run. cbv zeta. cbn [snd st].
    destruct (fst (Api.get baseURL fetch "/logout" (world c))); exact Hl.
  - rewrite refreshPermissions_run.
    destruct (AuthContext.user (st c)) as [u |]; [| exact Hl].
    destruct (Api.User_role_id u =? 0); [exact Hl |].
    destruct (fetchPermissions_frame baseURL fetch (Api.User_role_id u) c) as [_ H].
    now rewrite H.
Qed.

Lemma loading_stays_false_witness :
  AuthContext.loading
    (st (AuthContext.run Sample.base Sample.scripted AuthContext.Logout
           (mkCfg Sample.bob_session [] [] [])))
  = false.
Proof.
  exact (loading_stays_false Sample.base _ Sample.scripted AuthContext.Logout
           (mkCfg Sample.bob_session [] [] []) eq_refl).
Defined.

Lemma array_includes_iff (x : string) (l : list string) :
  array_includes x l = true <-> In x l.
Proof.
  unfold array_includes. rewrite existsb_exists. split.
  - intros (y & Hy & E). apply String.eqb_eq in E. now subst.
  - intros H. exists x. split; [exact H | apply String.eqb_refl].
Qed.

(** X9.  After a fetch of permissions that is answered with [success]
    and a list of rows, [hasPermission p] holds exactly for the names of
    the permissions of those rows, whatever the set was before. *)
Theorem hasPermission_after_fetch :
  forall (baseURL : string) (W : Type)
         (fetch : Api.Request -> W -> Api.FetchResult * W)
         (roleId : Z) (c : Cfg AuthContext.State W)
         (response : Api.ApiResponse) (rows : list Api.RolePermission) (w' : W),
    Api.get baseURL fetch ("/rolepermissions/role/" ++ toString roleId) (world c)
    = (Ok response, w') ->
    Api.success response = true ->
    Api.data response = Some (Api.DArray rows) ->
    forall p,
      AuthContext.hasPermission
        (st (snd (AuthContext.fetchPermissions baseURL fetch roleId c))) p = true
      <-> exists rp, In rp rows /\ Api.Permission_name (Api.RP_permission rp) = p.
Proof.
  intros baseURL W fetch roleId c response rows w' Hcall Hs Hd p.
  rewrite fetchPermissions_run. cbv zeta. rewrite Hcall. cbn [fst snd st].
  rewrite Hs, Hd. cbn [Api.isArray andb AuthContext.data_rows].
  unfold AuthContext.hasPermission. cbn [AuthContext.permissions AuthContext.setPermissions].
  rewrite array_includes_iff, in_map_iff. split.
  - intros (rp & E & Hin). eauto.
  - intros (rp & Hin & E). eauto.
Qed.

Lemma hasPermission_after_fetch_witness :
  AuthContext.hasPermission
    (st (snd (AuthContext.fetchPermissions Sample.base Sample.scripted 2
                (mkCfg AuthContext.initial
                   [Sample.answer 200 "OK"
                      (Sample.envelope true "ok"
                         (Some (Api.DArray [Sample.manager_user_read])))]
                   [] []))))
    "user.read" = true.
Proof.
  apply (hasPermission_after_fetch Sample.base _ Sample.scripted 2
           (mkCfg AuthContext.initial
              [Sample.answer 200 "OK"
                 (Sample.envelope true "ok"
                    (Some (Api.DArray [Sample.manager_user_read])))]
              [] [])
           _ [Sample.manager_user_read] _ eq_refl eq_refl eq_refl).
  exists Sample.manager_user_read. split; [left |]; reflexivity.
Defined.

(** X10.  After a [logout] whose call returned, once loading is over,
    the guard sends every protected route to [/login], with the
    requested location, whatever the route requires. *)
Theorem logout_then_guard_redirects :
  forall (baseURL : string) (W : Type)
         (fetch : Api.Request -> W -> Api.FetchResult * W)
         (c : Cfg AuthContext.State W) (response : Api.ApiResponse) (w' : W)
         (C : Type) (location : string) (props : ProtectedRoute.Props C),
    Api.get baseURL fetch "/logout" (world c) = (Ok response, w') ->
    AuthContext.loading (st c) = false ->
    ProtectedRoute.ProtectedRoute
      (st (snd (AuthContext.logout baseURL fetch c))) location props
    = ProtectedRoute.Navigate "/login" location true.
Proof.
  intros baseURL W fetch c response w' C location props Hcall Hl.
  rewrite logout_run. cbv zeta. rewrite Hcall. cbn [fst snd st].
  unfold ProtectedRoute.ProtectedRoute.
  cbn [AuthContext.loading AuthContext.user AuthContext.setPermissions
         AuthContext.setUser].
  now rewrite Hl.
Qed.

Lemma logout_then_guard_redirects_witness :
  ProtectedRoute.ProtectedRoute
    (st (snd (AuthContext.logout Sample.base Sample.scripted
                (mkCfg Sample.bob_session
                   [Sample.answer 200 "OK" (Sample.envelope true "bye" None)]
                   [] []))))
    "/users" (ProtectedRoute.mkProps tt (Some "user.read") None None)
  = ProtectedRoute.Navigate "/login" "/users" true.
Proof.
  exact (logout_then_guard_redirects Sample.base _ Sample.scripted
           (mkCfg Sample.bob_session
              [Sample.answer 200 "OK" (Sample.envelope true "bye" None)] [] [])
           _ _ unit "/users"
           (ProtectedRoute.mkProps tt (Some "user.read") None None)
           eq_refl eq_refl).
Defined.

Section StoreRequests.

Variable baseURL : string.
Context {W : Type}.
Variable fetch : Api.Request -> W -> Api.FetchResult * W.

Import Api AuthContext.

Local Abbreviation client_made rq :=
  (exists endpoint m b,
      rq = prepare baseURL endpoint (only_method m b)
      /\ (m = "GET" \/ m = "POST")).

Lemma fetchPermissions_trace roleId (c : Cfg State W) :
  exists rq,
    trace (snd (fetchPermissions baseURL fetch roleId c))
    = (trace c ++ [(rq, st c)])%list
    /\ client_made rq.
Proof.
  rewrite fetchPermissions_run. cbv zeta. cbn [snd trace].
  eexists. split; [reflexivity |]. do 3 eexists. split; [reflexivity | now left].
Qed.

Lemma fetchUserData_trace (c : Cfg State W) :
  exists extra,
    trace (snd (fetchUserData baseURL fetch c)) = (trace c ++ extra)%list
    /\ Forall (fun e => client_made (fst e)) extra.
Proof.
  rewrite fetchUserData_run. cbv zeta.
  assert (G : client_made (prepare baseURL "/userdata" (only_method "GET" None))).
  { do 3 eexists. split; [reflexivity | now left]. }
  destruct (match fst (Api.get baseURL fetch "/userdata" (world c)) with
            | Ok response =>
                if success response then data_user (data response) else None
            | Throw _ => None
            end) as [u |]; cbn [snd trace].
  - match goal with
    | |- context [fetchPermissions baseURL fetch ?r ?c1] =>
        destruct (fetchPermissions_trace r c1) as (rq & E & Hrq)
    end.
    rewrite E. cbn [trace]. rewrite <- app_assoc. eexists. split; [reflexivity |].
    repeat constructor; assumption.
  - eexists. split; [reflexivity |]. repeat constructor; assumption.
Qed.

Lemma run_trace o (c : Cfg State W) :
  exists extra,
    trace (run baseURL fetch o c) = (trace c ++ extra)%list
    /\ Forall (fun e => client_made (fst e)) extra.
Proof.
  destruct o; cbn [run].
  - apply fetchUserData_trace.
  - rewrite login_run. cbv zeta.
    assert (G : client_made
                  (prepare baseURL "/login"
                     (only_method "POST" (Some (LoginData email password))))).
    { do 3 eexists. split; [reflexivity | now right]. }
    destruct (fst (Api.post baseURL fetch "/login" _ (world c))) as [response |];
      [destruct (success response) |]; cbn [snd trace].
    + match goal with
      | |- context [fetchUserData baseURL fetch ?c1] =>
          destruct (fetchUserData_trace c1) as (extra & E & Hx)
      end.
      rewrite E. cbn [trace]. rewrite <- app_assoc. eexists.
      split; [reflexivity |]. constructor; assumption.
    + eexists. split; [reflexivity |]. repeat constructor; assumption.
    + eexists. split; [reflexivity |]. repeat constructor; assumption.
  - rewrite register_run. cbv zeta. cbn [snd trace].
    eexists. split; [reflexivity |]. repeat constructor.
    do 3 eexists. split; [reflexivity | now right].
  - rewrite logout_run. cbv zeta. cbn [snd trace].
    eexists. split; [reflexivity |]. repeat constructor.
    do 3 eexists. split; [reflexivity | now left].
  - rewrite refreshPermissions_run.
    assert (N : exists extra : list (Request * State),
               trace c = (trace c ++ extra)%list
               /\ Forall (fun e => client_made (fst e)) extra).
    { exists []. split; [now rewrite List.app_nil_r | constructor]. }
    destruct (user (st c)) as [u |]; [| exact N].
    destruct (User_role_id u =? 0); [exact N |].
    destruct (fetchPermissions_trace (User_role_id u) c) as (rq & E & Hrq).
    rewrite E. eexists. split; [reflexivity |]. repeat constructor; assumption.
Qed.

Lemma reachable_client_made (c : Cfg State W) :
  reachable baseURL fetch c -> Forall (fun e => client_made (fst e)) (trace c).
Proof.
  induction 1 as [w | c o _ IH]; [constructor |].
  destruct (run_trace o c) as (extra & E & Hx). rewrite E.
  apply Forall_app. now split.
Qed.

End StoreRequests.

(** X11.  Every request the session store ever sends, in any sequence
    of its operations, goes to an endpoint under the base URL, is a GET
    or a POST, carries the JSON content type and has [credentials] set
    to [include]. *)
Theorem store_requests_carry_credentials :
  forall (baseURL : string) (W : Type)
         (fetch : Api.Request -> W -> Api.FetchResult * W)
         (c : Cfg AuthContext.State W) (rq : Api.Request),
    AuthContext.reachable baseURL fetch c ->
    In rq (sent c) ->
    Api.credentials (Api.config rq) = Some "include"
    /\ Api.headers (Api.config rq) = Some [("Content-Type", "application/json")]
    /\ (exists endpoint, Api.url rq = baseURL ++ endpoint)
    /\ (Api.method (Api.config rq) = Some "GET"
        \/ Api.method (Api.config rq) = Some "POST").
Proof.
  intros baseURL W fetch c rq Hc Hin.
  apply reachable_client_made in Hc. rewrite Forall_forall in Hc.
  unfold sent in Hin. apply in_map_iff in Hin as ([rq' s] & <- & Hin).
  destruct (Hc _ Hin) as (endpoint & m & b & -> & Hm). cbn.
  repeat split; [now exists endpoint |].
  destruct Hm as [-> | ->]; [left | right]; reflexivity.
Qed.

Lemma store_requests_carry_credentials_witness :
  Api.credentials
    (Api.config (Api.prepare Sample.base "/userdata" (Api.only_method "GET" None)))
  = Some "include".
Proof.
  refine (proj1 (store_requests_carry_credentials Sample.base _ Sample.scripted
                   (AuthContext.run Sample.base Sample.scripted AuthContext.Hydrate
                      (AuthContext.mount []))
                   (Api.prepare Sample.base "/userdata" (Api.only_method "GET" None))
                   _ _)).
  - apply AuthContext.reach_run, AuthContext.reach_mount.
  - left. reflexivity.
Defined.

(** ** The guard, the routes and the sidebar *)

Lemma flag_requirement (flag met : bool) :
  flag && negb met = false <-> (flag = true -> met = true).
Proof. destruct flag, met; cbn; intuition congruence. Qed.

Lemma text_requirement (o : option string) (has : string -> bool) :
  truthy o && negb (has (ProtectedRoute.text o)) = false
  <-> (forall r, o = Some r -> r <> "" -> has r = true).
Proof.
  destruct o as [r |]; cbn.
  - destruct (String.eqb_spec r "") as [-> | Hr]; cbn.
    + split; [intros _ r [= <-] H; now destruct H | reflexivity].
    + destruct (has r) eqn:E; cbn.
      * split; [intros _ r' [= <-] _; exact E | reflexivity].
      * split; [discriminate |]. intros H. specialize (H r eq_refl Hr). congruence.
  - split; [intros _ r [=] | reflexivity].
Qed.

(** X12.  The guard renders the protected content exactly when loading
    is over, there is an identity, and every requirement that is set is
    met ([requireAdmin] by [isAdmin], a non-empty [requiredRole] by
    [hasRole], a non-empty [requiredPermission] by [hasPermission]); a
    requirement given as the empty string counts as not set.  It
    redirects to [/login] exactly when loading is over and there is no
    identity, and it shows the spinner exactly while loading. *)
Theorem guard_outcomes_iff :
  forall (C : Type) (auth : AuthContext.State) (location : string)
         (props : ProtectedRoute.Props C),
    let view := ProtectedRoute.ProtectedRoute auth location props in
    let admin :=
      match ProtectedRoute.requireAdmin props with Some b => b | None => false end in
    let role := ProtectedRoute.requiredRole props in
    let permission := ProtectedRoute.requiredPermission props in
    (forall ch,
        view = ProtectedRoute.Content ch
        <-> ch = ProtectedRoute.children props
            /\ AuthContext.loading auth = false
            /\ AuthContext.user auth <> None
            /\ (admin = true -> AuthContext.isAdmin auth = true)
            /\ (forall r, role = Some r -> r <> "" ->
                          AuthContext.hasRole auth r = true)
            /\ (forall p, permission = Some p -> p <> "" ->
                          AuthContext.hasPermission auth p = true))
    /\ (forall to from replace,
           view = ProtectedRoute.Navigate to from replace
           <-> to = "/login" /\ from = location /\ replace = true
               /\ AuthContext.loading auth = false
               /\ AuthContext.user auth = None)
    /\ (view = ProtectedRoute.Spinner <-> AuthContext.loading auth = true).
Proof.
  intros C auth location props. cbv zeta.
  pose proof (flag_requirement
                match ProtectedRoute.requireAdmin props with
                | Some b => b | None => false end
                (AuthContext.isAdmin auth)) as F1.
  pose proof (text_requirement (ProtectedRoute.requiredRole props)
                (AuthContext.hasRole auth)) as F2.
  pose proof (text_requirement (ProtectedRoute.requiredPermission props)
                (AuthContext.hasPermission auth)) as F3.
  unfold ProtectedRoute.ProtectedRoute.
  destruct (AuthContext.loading auth).
  { split; [| split].
    - intros ch. split; [discriminate | intros (_ & H & _); discriminate H].
    - intros to from replace.
      split; [discriminate | intros (_ & _ & _ & H & _); discriminate H].
    - split; reflexivity. }
  destruct (AuthContext.user auth) as [u |].
  2:{ split; [| split].
      - intros ch. split; [discriminate | intros (_ & _ & H & _); now destruct H].
      - intros to from replace. split.
        + intros [= <- <- <-]. repeat split.
        + intros (-> & -> & -> & _). reflexivity.
      - split; discriminate. }
  split; [| split].
  - intros ch.
    destruct (_ && negb (AuthContext.isAdmin auth)).
    { split; [discriminate |]. intros (_ & _ & _ & H & _).
      apply F1 in H. discriminate H. }
    destruct (truthy (ProtectedRoute.requiredRole props) && _).
    { split; [discriminate |]. intros (_ & _ & _ & _ & H & _).
      apply F2 in H. discriminate H. }
    destruct (truthy (ProtectedRoute.requiredPermission props) && _).
    { split; [discriminate |]. intros (_ & _ & _ & _ & _ & H).
      apply F3 in H. discriminate H. }
    split.
    + intros [= <-]. split; [reflexivity |]. split; [reflexivity |].
      split; [discriminate |].
      split; [now apply F1 |]. split; [now apply F2 | now apply F3].
    + intros (-> & _). reflexivity.
  - intros to from replace. split.
    + destruct (_ && _); [discriminate |].
      destruct (_ && _); [discriminate |].
      destruct (_ && _); discriminate.
    + intros (_ & _ & _ & _ & H). discriminate H.
  - split; [| discriminate].
    destruct (_ && _); [discriminate |].
    destruct (_ && _); [discriminate |].
    destruct (_ && _); discriminate.
Qed.

Lemma guard_outcomes_iff_witness :
  ProtectedRoute.ProtectedRoute Sample.bob_session "/users"
    (ProtectedRoute.mkProps tt (Some "user.read") (Some "") None)
  = ProtectedRoute.Content tt.
Proof.
  apply (proj1 (guard_outcomes_iff unit Sample.bob_session "/users"
                  (ProtectedRoute.mkProps tt (Some "user.read") (Some "") None))).
  split; [reflexivity |]. split; [reflexivity |]. split; [discriminate |].
  split; [discriminate |]. split.
  - intros r [= <-] H. now destruct H.
  - intros p [= <-] _. reflexivity.
Defined.

Lemma allowed_iff (hasPermission : string -> bool) (item : AppSidebar.NavItem) :
  In item AppSidebar.navigationItems ->
  AppSidebar.allowed hasPermission item = true
  <-> (forall p, AppSidebar.permission item = Some p -> hasPermission p = true).
Proof.
  intros Hin. unfold AppSidebar.navigationItems in Hin. cbn [In] in Hin.
  destruct Hin as [<- | [<- | [<- | [<- | [<- | []]]]]];
    unfold AppSidebar.allowed; cbn;
    (split; [intros H p [= <-]; exact H | intros H; now apply H])
    || (split; [intros _ p [=] | reflexivity]).
Qed.

(** X13.  The sidebar lists an entry exactly when the entry needs no
    permission or the user holds the one it needs, in the order of the
    table; the Dashboard entry is always there and comes first, and a
    user without any permission sees nothing else. *)
Theorem sidebar_lists_permitted_entries :
  forall hasPermission : string -> bool,
    (forall item,
        In item (AppSidebar.filteredNavigation hasPermission)
        <-> In item AppSidebar.navigationItems
            /\ forall p, AppSidebar.permission item = Some p ->
                         hasPermission p = true)
    /\ hd_error (AppSidebar.filteredNavigation hasPermission)
       = Some (AppSidebar.mkNavItem "Dashboard" "/" None)
    /\ ((forall p, hasPermission p = false) ->
        AppSidebar.filteredNavigation hasPermission
        = [AppSidebar.mkNavItem "Dashboard" "/" None]).
Proof.
  intros hasPermission. split; [| split].
  - intros item. unfold AppSidebar.filteredNavigation. rewrite filter_In.
    split; intros [Hin H]; (split; [exact Hin |]); now apply allowed_iff.
  - reflexivity.
  - intros Hnone. unfold AppSidebar.filteredNavigation, AppSidebar.navigationItems,
      AppSidebar.allowed. cbn. now rewrite !Hnone.
Qed.

Lemma sidebar_lists_permitted_entries_witness :
  AppSidebar.filteredNavigation (fun _ => false)
  = [AppSidebar.mkNavItem "Dashboard" "/" None].
Proof.
  exact (proj2 (proj2 (sidebar_lists_permitted_entries (fun _ => false)))
               (fun _ => eq_refl)).
Defined.

(** X14.  In every schedule in which the operations of the session
    store run one after the other (none is called while another waits
    for an answer), in every state a render has seen or sees, a store
    without an identity shows the Dashboard entry alone in the
    sidebar. *)
Theorem anonymous_sidebar :
  forall (baseURL : string) (W : Type)
         (fetch : Api.Request -> W -> Api.FetchResult * W)
         (w : W) (schedule : list (Overlap.Event AuthContext.Op))
         (s : AuthContext.State),
    let begin := Overlap.mkPool (AuthContext.mount w) [] in
    let pool := Overlap.play fetch (Overlap.start baseURL) schedule begin in
    Overlap.in_turn fetch (Overlap.start baseURL) schedule begin = true ->
    In s (shown (Overlap.now pool)) ->
    AuthContext.user s = None ->
    AppSidebar.filteredNavigation (AuthContext.hasPermission s)
    = [AppSidebar.mkNavItem "Dashboard" "/" None].
Proof.
  intros baseURL W fetch w schedule s begin pool Hs Hin Hu.
  destruct (in_turn_states baseURL fetch w schedule Hs) as [_ Hall].
  rewrite Forall_forall in Hall. destruct (Hall s Hin) as [Hnone _].
  unfold AppSidebar.filteredNavigation, AppSidebar.navigationItems,
    AppSidebar.allowed, AuthContext.hasPermission.
  rewrite (Hnone Hu). reflexivity.
Qed.

Lemma anonymous_sidebar_witness :
  AppSidebar.filteredNavigation
    (AuthContext.hasPermission
       {| AuthContext.user := None;
          AuthContext.permissions := [];
          AuthContext.loading := false |})
  = [AppSidebar.mkNavItem "Dashboard" "/" None].
Proof.
  apply (anonymous_sidebar Sample.base _ Sample.scripted
           [ Sample.answer 200 "OK"
               (Sample.envelope true "ok" (Some (Api.DObject (Some Sample.bob))));
             Sample.answer 200 "OK"
               (Sample.envelope true "ok"
                  (Some (Api.DArray [Sample.manager_user_read])));
             Sample.answer 200 "OK" (Sample.envelope true "Logged out" None) ]
           [ Overlap.Call AuthContext.Hydrate; Overlap.Settle 0;
             Overlap.Settle 0; Overlap.Call AuthContext.Logout;
             Overlap.Settle 0 ]).
  - reflexivity.
  - right. right. right. left. reflexivity.
  - reflexivity.
Defined.

(** X15.  The sidebar and the routes agree: for a logged-in user, once
    loading is over, every entry that the sidebar lists and whose [url]
    is the [path] of a guarded route is let through by that route's
    guard, which renders the page. *)
Theorem listed_entries_pass_their_guard :
  forall (auth : AuthContext.State) (location : string)
         (item : AppSidebar.NavItem) (props : ProtectedRoute.Props App.Page),
    AuthContext.loading auth = false ->
    AuthContext.user auth <> None ->
    In item (AppSidebar.filteredNavigation (AuthContext.hasPermission auth)) ->
    In (AppSidebar.url item, App.Guarded props) App.routes ->
    App.view auth location (App.Guarded props)
    = ProtectedRoute.Content (ProtectedRoute.children props).
Proof.
  intros auth location item props Hl Hu Hitem Hroute.
  unfold AppSidebar.filteredNavigation in Hitem.
  apply filter_In in Hitem as [Hin Hallowed].
  unfold App.view, ProtectedRoute.ProtectedRoute. rewrite Hl.
  destruct (AuthContext.user auth) as [u |]; [clear Hu | congruence].
  unfold AppSidebar.navigationItems in Hin. cbn [In] in Hin.
  unfold App.routes, App.requires in Hroute. cbn [In] in Hroute.
  destruct Hin as [<- | [<- | [<- | [<- | [<- | []]]]]];
    cbn [AppSidebar.url] in Hroute;
    repeat (destruct Hroute as [Hroute | Hroute];
            [try discriminate Hroute;
             injection Hroute as <-;
             unfold AppSidebar.allowed in Hallowed; cbn in Hallowed;
             cbn; rewrite Hallowed; reflexivity |]);
    destruct Hroute.
Qed.

Lemma listed_entries_pass_their_guard_witness :
  App.view Sample.bob_session "/users" (App.requires "user.read" App.Users)
  = ProtectedRoute.Content App.Users.
Proof.
  apply (listed_entries_pass_their_guard Sample.bob_session "/users"
           (AppSidebar.mkNavItem "Users" "/users" (Some "user.read"))
           (ProtectedRoute.mkProps App.Users (Some "user.read") None None)
           eq_refl).
  - discriminate.
  - right. left. reflexivity.
  - right. right. right. left. reflexivity.
Defined.

(** ** Breadcrumbs *)

Lemma nth_error_indexed {A} (l : list A) (a i : nat) :
  nth_error (combine (seq a (length l)) l) i
  = option_map (fun x => (a + i, x)%nat) (nth_error l i).
Proof.
  revert a i. induction l as [| x l IH]; intros a i; cbn.
  - now destruct i.
  - destruct i as [| i]; cbn.
    + now rewrite Nat.add_0_r.
    + rewrite IH. now rewrite Nat.add_succ_r.
Qed.

Lemma length_indexed {A} (l : list A) (a : nat) :
  length (combine (seq a (length l)) l) = length l.
Proof. rewrite length_combine, length_seq. apply Nat.min_id. Qed.

Lemma pathnames_nonempty (pathname x : string) :
  In x (DashboardHeader.pathnames pathname) -> x <> "".
Proof.
  unfold DashboardHeader.pathnames. rewrite filter_In. intros [_ H].
  destruct (String.eqb_spec x ""); [discriminate H | assumption].
Qed.

(** X16.  [getBreadcrumbs] never returns an empty trail: it has one
    crumb per non-empty segment of the pathname, and the single
    Dashboard crumb when there is none.  Exactly the final crumb is
    marked as last, every crumb has a non-empty name, and every crumb's
    path begins with a slash. *)
Theorem breadcrumbs_shape :
  forall pathname : string,
    let crumbs := DashboardHeader.getBreadcrumbs pathname in
    crumbs <> []
    /\ length crumbs = Nat.max 1 (length (DashboardHeader.pathnames pathname))
    /\ forall i c,
         nth_error crumbs i = Some c ->
         DashboardHeader.isLast c = Nat.eqb i (length crumbs - 1)
         /\ DashboardHeader.name c <> ""
         /\ String.prefix "/" (DashboardHeader.path c) = true.
Proof.
  intros pathname. cbv zeta. unfold DashboardHeader.getBreadcrumbs.
  pose proof (pathnames_nonempty pathname) as Hne.
  destruct (DashboardHeader.pathnames pathname) as [| x l] eqn:E.
  - cbn. split; [discriminate |]. split; [reflexivity |].
    intros [| i] c H; cbn in H; [| now destruct i].
    injection H as <-. cbn. repeat split. discriminate.
  - rewrite <- E in *. assert (Hlen : length (DashboardHeader.pathnames pathname) <> 0%nat)
      by (rewrite E; discriminate).
    destruct (Nat.eqb_spec (length (DashboardHeader.pathnames pathname)) 0);
      [contradiction |].
    assert (L : length (map (fun '(index, name) =>
                               DashboardHeader.crumb
                                 (DashboardHeader.pathnames pathname) index name)
                            (combine (seq 0 (length (DashboardHeader.pathnames pathname)))
                                     (DashboardHeader.pathnames pathname)))
                = length (DashboardHeader.pathnames pathname))
      by now rewrite length_map, length_indexed.
    split; [intros H; rewrite H in L; cbn in L; congruence |].
    split; [rewrite L; lia |].
    intros i c H. rewrite L.
    rewrite nth_error_map, nth_error_indexed in H.
    destruct (nth_error (DashboardHeader.pathnames pathname) i) as [name |] eqn:Hn;
      [| discriminate H].
    cbn in H. injection H as <-. unfold DashboardHeader.crumb. cbn.
    split; [reflexivity |]. split; [| apply prefix_iff; eexists; reflexivity].
    apply or_else_nonempty. apply Hne. eapply nth_error_In. exact Hn.
Qed.

Lemma breadcrumbs_shape_witness :
  DashboardHeader.isLast (DashboardHeader.mkCrumb "Users" "/users" true)
  = Nat.eqb 0 (length (DashboardHeader.getBreadcrumbs "/users") - 1).
Proof.
  exact (proj1 (proj2 (proj2 (breadcrumbs_shape "/users")) 0%nat
                  (DashboardHeader.mkCrumb "Users" "/users" true) eq_refl)).
Defined.

Lemma split_never_empty (sep : ascii) (s : string) :
  DashboardHeader.split sep s <> [].
Proof.
  induction s as [| c s IH]; cbn; [discriminate |].
  destruct (Ascii.eqb c sep); [discriminate |].
  destruct (DashboardHeader.split sep s); [contradiction | discriminate].
Qed.

Lemma split_segment_then_sep (sep : ascii) (x rest : string) :
  ~ In sep (list_ascii_of_string x) ->
  DashboardHeader.split sep (x ++ String sep rest)
  = x :: DashboardHeader.split sep rest.
Proof.
  induction x as [| c x IH]; intros H; cbn.
  - now rewrite Ascii.eqb_refl.
  - cbn in H. destruct (Ascii.eqb_spec c sep) as [-> | Hc].
    + exfalso. apply H. now left.
    + rewrite IH by (intros Hin; apply H; now right). reflexivity.
Qed.

Lemma split_segment (sep : ascii) (x : string) :
  ~ In sep (list_ascii_of_string x) -> DashboardHeader.split sep x = [x].
Proof.
  induction x as [| c x IH]; intros H; cbn; [reflexivity |].
  cbn in H. destruct (Ascii.eqb_spec c sep) as [-> | Hc].
  - exfalso. apply H. now left.
  - rewrite IH by (intros Hin; apply H; now right). reflexivity.
Qed.

(** Splitting what [join] put together gives the parts back, when no
    part contains the separator. *)
Lemma split_join (segments : list string) :
  segments <> [] ->
  Forall (fun x => ~ In "/"%char (list_ascii_of_string x)) segments ->
  DashboardHeader.split "/" (DashboardHeader.join "/" segments) = segments.
Proof.
  unfold DashboardHeader.join.
  induction segments as [| x l IH]; intros Hne Hall; [contradiction |].
  inversion Hall as [| ? ? Hx Hl]; subst.
  destruct l as [| y l].
  - cbn. now apply split_segment.
  - change (String.concat "/" (x :: y :: l))
      with (x ++ String "/" (String.concat "/" (y :: l))).
    rewrite split_segment_then_sep by assumption.
    f_equal. apply IH; [discriminate | assumption].
Qed.

Lemma filter_all {A} (f : A -> bool) (l : list A) :
  Forall (fun x => f x = true) l -> filter f l = l.
Proof.
  induction 1 as [| x l Hx _ IH]; cbn; [reflexivity |]. now rewrite Hx, IH.
Qed.

(** X17.  On a pathname made of a slash followed by non-empty segments
    joined by slashes, the segments that [getBreadcrumbs] works on are
    those segments, the path of the crumb at position [i] is the slash
    followed by the first [i + 1] segments joined by slashes, and the
    final crumb is marked as last and its path is the pathname
    itself. *)
Theorem breadcrumbs_follow_the_path :
  forall (segments : list string) (pathname : string),
    segments <> [] ->
    Forall (fun x => x <> "" /\ ~ In "/"%char (list_ascii_of_string x)) segments ->
    pathname = "/" ++ DashboardHeader.join "/" segments ->
    DashboardHeader.pathnames pathname = segments
    /\ (forall i c,
           nth_error (DashboardHeader.getBreadcrumbs pathname) i = Some c ->
           DashboardHeader.path c
           = "/" ++ DashboardHeader.join "/" (firstn (i + 1) segments))
    /\ exists c,
         nth_error (DashboardHeader.getBreadcrumbs pathname) (length segments - 1)
         = Some c
         /\ DashboardHeader.isLast c = true
         /\ DashboardHeader.path c = pathname.
Proof.
  intros segments pathname Hne Hall ->.
  assert (Hp : DashboardHeader.pathnames ("/" ++ DashboardHeader.join "/" segments)
               = segments).
  { unfold DashboardHeader.pathnames.
    change ("/" ++ DashboardHeader.join "/" segments)
      with (String "/" (DashboardHeader.join "/" segments)).
    cbn [DashboardHeader.split]. rewrite Ascii.eqb_refl.
    rewrite split_join; [| assumption |].
    - cbn [filter String.eqb negb]. apply filter_all.
      eapply Forall_impl; [| exact Hall]. intros x [Hx _]. cbn beta.
      now destruct (String.eqb_spec x "").
    - eapply Forall_impl; [| exact Hall]. now intros x [_ Hx]. }
  split; [exact Hp |].
  assert (Hcrumbs : forall i c,
             nth_error (DashboardHeader.getBreadcrumbs
                          ("/" ++ DashboardHeader.join "/" segments)) i = Some c ->
             exists name, nth_error segments i = Some name
                          /\ c = DashboardHeader.crumb segments i name).
  { intros i c H. unfold DashboardHeader.getBreadcrumbs in H. rewrite Hp in H.
    destruct segments as [| x l]; [contradiction |].
    cbn [length Nat.eqb] in H.
    rewrite nth_error_map in H.
    change (S (length l)) with (length (x :: l)) in H.
    rewrite nth_error_indexed in H.
    destruct (nth_error (x :: l) i) as [name |]; [| discriminate H].
    cbn in H. injection H as <-. eauto. }
  split.
  - intros i c H. destruct (Hcrumbs i c H) as (name & _ & ->). reflexivity.
  - destruct (nth_error segments (length segments - 1)) as [name |] eqn:Hn.
    + exists (DashboardHeader.crumb segments (length segments - 1) name).
      split; [| split].
      * unfold DashboardHeader.getBreadcrumbs. rewrite Hp.
        destruct segments as [| x l]; [contradiction |].
        cbn [length Nat.eqb].
        rewrite nth_error_map.
        change (S (length l)) with (length (x :: l)).
        rewrite nth_error_indexed, Hn. reflexivity.
      * unfold DashboardHeader.crumb. cbn. apply Nat.eqb_refl.
      * unfold DashboardHeader.crumb. cbn [DashboardHeader.path].
        replace (length segments - 1 + 1)%nat with (length segments)
          by (destruct segments; [contradiction | cbn; lia]).
        now rewrite firstn_all.
    + apply nth_error_None in Hn. destruct segments; [contradiction | cbn in Hn; lia].
Qed.

Lemma breadcrumbs_follow_the_path_witness :
  DashboardHeader.pathnames "/roles/7" = ["roles"; "7"]
  /\ map DashboardHeader.path (DashboardHeader.getBreadcrumbs "/roles/7")
     = ["/roles"; "/roles/7"].
Proof.
  split.
  - refine (proj1 (breadcrumbs_follow_the_path ["roles"; "7"] "/roles/7" _ _ eq_refl)).
    + discriminate.
    + repeat constructor; try discriminate;
        cbn; intros H; repeat (destruct H as [H | H]; [discriminate H |]); exact H.
  - reflexivity.
Defined.

(** ** The assignment screen, further *)

Section Grouping.

Import Api RolePermissions.

Local Abbreviation category p := (before_dot (Permission_name p)).

Lemma push_keys k p g k' :
  In k' (map fst (push_own k p g)) <-> k' = k \/ In k' (map fst g).
Proof.
  induction g as [| [k0 v] g IH]; cbn.
  - intuition.
  - destruct (String.eqb_spec k0 k) as [-> | Hk]; cbn.
    + intuition.
    + rewrite IH. intuition.
Qed.

Lemma push_NoDup k p g : NoDup (map fst g) -> NoDup (map fst (push_own k p g)).
Proof.
  induction g as [| [k0 v] g IH]; cbn; intros H.
  - constructor; [intros Hin; exact Hin | constructor].
  - apply NoDup_cons_iff in H as [Hnot Hrest].
    destruct (String.eqb_spec k0 k) as [-> | Hk]; cbn.
    + constructor; assumption.
    + constructor; [| now apply IH].
      rewrite push_keys. intros [E | Hin]; [congruence | contradiction].
Qed.

Lemma push_members k p g :
  category p = k ->
  Forall (fun '(k', v) => v <> [] /\ forall q, In q v -> category q = k') g ->
  Forall (fun '(k', v) => v <> [] /\ forall q, In q v -> category q = k')
         (push_own k p g).
Proof.
  intros Hp. induction g as [| [k0 v] g IH]; cbn; intros H.
  - constructor; [| constructor]. split; [discriminate |].
    intros q Hq. cbn in Hq. destruct Hq as [<- | []]. exact Hp.
  - apply Forall_cons_iff in H as [[Hv Hm] Hrest].
    destruct (String.eqb_spec k0 k) as [-> | Hk].
    + constructor; [| assumption]. split.
      * destruct v; discriminate.
      * intros q Hq. apply in_app_or in Hq as [Hq | [<- | []]]; auto.
    + constructor; [now split | now apply IH].
Qed.

Lemma push_Permutation k p g :
  Permutation (concat (map snd (push_own k p g))) (p :: concat (map snd g)).
Proof.
  induction g as [| [k0 v] g IH]; cbn.
  - apply Permutation_refl.
  - destruct (String.eqb k0 k); cbn.
    + rewrite <- app_assoc. cbn. symmetry. apply Permutation_middle.
    + rewrite IH. symmetry. apply Permutation_middle.
Qed.

Lemma grouping_from (ps : list Permission) :
  forall g,
    NoDup (map fst g) ->
    Forall (fun '(k', v) => v <> [] /\ forall q, In q v -> category q = k') g ->
    let g' :=
      fold_left (fun groups permission =>
                   push_own (category permission) permission groups)
                ps g in
    NoDup (map fst g')
    /\ Forall (fun '(k', v) => v <> [] /\ forall q, In q v -> category q = k') g'
    /\ Permutation (concat (map snd g')) (concat (map snd g) ++ ps).
Proof.
  induction ps as [| p ps IH]; intros g Hn Hm; cbn.
  - split; [assumption |]. split; [assumption |]. now rewrite List.app_nil_r.
  - destruct (IH (push_own (category p) p g)) as (H1 & H2 & H3).
    + now apply push_NoDup.
    + now apply push_members.
    + split; [exact H1 |]. split; [exact H2 |].
      rewrite H3, push_Permutation. apply Permutation_middle.
Qed.

(** The callback of the [reduce], on what the steps before it gave. *)
Local Abbreviation callback :=
  (fun acc permission =>
     match acc with
     | Ok groups => push (category permission) permission groups
     | Throw e => Throw e
     end).

Lemma reduce_thrown (ps : list Permission) e :
  fold_left callback ps (Throw e) = Throw e.
Proof. induction ps; cbn; auto. Qed.

Lemma has_own_key k g : has_own k g = true -> In k (map fst g).
Proof.
  unfold has_own. intros H. apply existsb_exists in H as ([k0 v] & Hin & E).
  apply String.eqb_eq in E. cbn in E. subst k0.
  apply in_map_iff. now exists (k, v).
Qed.

(** With no category among the inherited names, the [reduce] is the
    plain grouping. *)
Lemma reduce_plain (ps : list Permission) :
  (forall p, In p ps -> inherited (category p) = false) ->
  forall g,
    fold_left callback ps (Ok g)
    = Ok (fold_left (fun groups permission =>
                       push_own (category permission) permission groups)
                    ps g).
Proof.
  induction ps as [| p ps IH]; intros H g; cbn; [reflexivity |].
  unfold push. rewrite (H p (or_introl eq_refl)), andb_false_r.
  apply IH. intros q Hq. apply H. now right.
Qed.

(** With a category among the inherited names, the [reduce] throws. *)
Lemma reduce_throws (ps : list Permission) :
  (exists p, In p ps /\ inherited (category p) = true) ->
  forall g,
    (forall k, In k (map fst g) -> inherited k = false) ->
    fold_left callback ps (Ok g)
    = Throw (JsError "groups[category].push is not a function").
Proof.
  induction ps as [| p ps IH]; intros (q & Hq & Hi) g Hg; [destruct Hq |].
  cbn. unfold push.
  destruct (inherited (category p)) eqn:Hp.
  - destruct (has_own (category p) g) eqn:Ho.
    + apply has_own_key, Hg in Ho. congruence.
    + cbn. apply reduce_thrown.
  - rewrite andb_false_r. apply IH.
    + destruct Hq as [-> | Hq]; [congruence | now exists q].
    + intros k Hk. apply push_keys in Hk as [-> | Hk]; auto.
Qed.

Lemma insert_by_index_Permutation {A} (x : Z * A) (l : list (Z * A)) :
  Permutation (insert_by_index x l) (x :: l).
Proof.
  induction l as [| y l IH]; cbn; [apply Permutation_refl |].
  destruct (fst x <=? fst y); [apply Permutation_refl |].
  rewrite IH. apply perm_swap.
Qed.

(** [Object.entries] lists every own property once. *)
Lemma Object_entries_Permutation {A} (o : list (string * A)) :
  Permutation (Object_entries o) o.
Proof.
  unfold Object_entries. induction o as [| e o IH]; cbn; [constructor |].
  destruct (array_index (fst e)); cbn.
  - rewrite insert_by_index_Permutation. cbn. now constructor.
  - rewrite <- Permutation_middle. now constructor.
Qed.

Lemma concat_groups_Permutation {A} (g g' : list (string * list A)) :
  Permutation g g' ->
  Permutation (concat (map snd g)) (concat (map snd g')).
Proof.
  induction 1 as [| x l l' _ IH | x y l | l l' l'' _ IH1 _ IH2]; cbn.
  - constructor.
  - now apply Permutation_app_head.
  - rewrite !app_assoc. apply Permutation_app_tail, Permutation_app_comm.
  - now rewrite IH1.
Qed.

Lemma inherited_or_not (ps : list Permission) :
  (exists p, In p ps /\ inherited (category p) = true)
  \/ (forall p, In p ps -> inherited (category p) = false).
Proof.
  destruct (existsb (fun p => inherited (category p)) ps) eqn:E.
  - left. now apply existsb_exists in E.
  - right. intros p Hp. destruct (inherited (category p)) eqn:Hi; [| reflexivity].
    rewrite <- E. symmetry. apply existsb_exists. now exists p.
Qed.

End Grouping.

(** What the [reduce] gives, in full. *)
Lemma reduce_outcome :
  forall permissions : list Api.Permission,
    match RolePermissions.groupPermissionsByCategory permissions with
    | Throw e =>
        e = JsError "groups[category].push is not a function"
        /\ exists p, In p permissions
                     /\ In (before_dot (Api.Permission_name p)) Object_prototype
    | Ok groups =>
        (forall p, In p permissions ->
                   ~ In (before_dot (Api.Permission_name p)) Object_prototype)
        /\ NoDup (map fst groups)
        /\ (forall k v,
               In (k, v) groups ->
               v <> []
               /\ forall p, In p v -> before_dot (Api.Permission_name p) = k)
        /\ Permutation (concat (map snd groups)) permissions
        /\ Permutation (Object_entries groups) groups
    end.
Proof.
  intros permissions. unfold RolePermissions.groupPermissionsByCategory.
  destruct (inherited_or_not permissions) as [Hex | Hall].
  - rewrite (reduce_throws permissions Hex []) by (intros k []).
    split; [reflexivity |]. destruct Hex as (p & Hp & Hi). exists p.
    split; [exact Hp |]. now apply array_includes_iff.
  - rewrite (reduce_plain permissions Hall).
    destruct (grouping_from permissions []) as (H1 & H2 & H3);
      [constructor | constructor |].
    split; [| split; [exact H1 | split; [| split; [exact H3 |]]]].
    + intros p Hp Hin. specialize (Hall p Hp).
      apply array_includes_iff in Hin. unfold inherited in Hall. congruence.
    + intros k v Hin. rewrite Forall_forall in H2. exact (H2 (k, v) Hin).
    + apply Object_entries_Permutation.
Qed.

(** X18.  [groupPermissionsByCategory] throws a [TypeError] exactly
    when some permission's category (the part of its name before the
    first dot) is the name of a member inherited from
    [Object.prototype].  Otherwise it sorts the permissions into groups
    by category: no two groups have the same category, no group is
    empty, every member of a group has the group's category, the groups
    together hold exactly the permissions given, each as often as it was
    given, and [Object.entries] lists every group once. *)
Theorem grouping_is_a_partition :
  forall permissions : list Api.Permission,
    match RolePermissions.groupPermissionsByCategory permissions with
    | Throw e =>
        e = JsError "groups[category].push is not a function"
        /\ exists p, In p permissions
                     /\ In (before_dot (Api.Permission_name p)) Object_prototype
    | Ok groups =>
        (forall p, In p permissions ->
                   ~ In (before_dot (Api.Permission_name p)) Object_prototype)
        /\ NoDup (map fst groups)
        /\ (forall k v,
               In (k, v) groups ->
               v <> []
               /\ forall p, In p v -> before_dot (Api.Permission_name p) = k)
        /\ Permutation (concat (map snd groups)) permissions
        /\ Permutation (Object_entries groups) groups
    end.
Proof. exact reduce_outcome. Qed.

Lemma flat_map_groups {A B} (f : A -> B) (g : list (string * list A)) :
  flat_map (fun '(category, members) => map f members) g = map f (concat (map snd g)).
Proof.
  induction g as [| [k v] g IH]; cbn; [reflexivity |].
  now rewrite IH, map_app.
Qed.

Lemma Forall2_map_l {A B} (R : B -> A -> Prop) (f : A -> B) (l : list A) :
  (forall a, In a l -> R (f a) a) -> Forall2 R (map f l) l.
Proof.
  induction l as [| a l IH]; intros H; cbn; constructor.
  - apply H. now left.
  - apply IH. intros x Hx. apply H. now right.
Qed.

(** X19.  Once loaded, and with no permission whose category is the
    name of a member inherited from [Object.prototype], the assignment
    screen renders the Refresh button and the role selector, and then,
    when a role is selected, exactly one checkbox for each permission
    (its label made from the permission's id, disabled without
    [permission.assign], checked exactly when the assignment list holds
    a row of the permission); when no role is selected it renders no
    checkbox and the Refresh button is disabled.  With a permission
    whose category is such a name, the component throws and nothing is
    rendered. *)
Theorem one_checkbox_per_permission :
  forall (hasPermission : string -> bool) (s : RolePermissions.State),
    RolePermissions.loading s = false ->
    ((forall p, In p (RolePermissions.permissions s) ->
                ~ In (before_dot (Api.Permission_name p)) Object_prototype) ->
     exists boxes shown,
       RolePermissions.render hasPermission s
       = ([ {| Ui.kind := Ui.Button; Ui.label := "Refresh";
               Ui.disabled := String.eqb (RolePermissions.selectedRole s) "";
               Ui.checked := false; Ui.needs := None |};
            Ui.plain Ui.Select "Select a role" ] ++ boxes)%list
       /\ if String.eqb (RolePermissions.selectedRole s) "" then boxes = []
          else
            Permutation shown (RolePermissions.permissions s)
            /\ Forall2
                 (fun box permission =>
                    Ui.kind box = Ui.Checkbox
                    /\ Ui.label box
                       = "permission-" ++ toString (Api.Permission_id permission)
                    /\ Ui.disabled box = negb (hasPermission "permission.assign")
                    /\ Ui.needs box = Some "permission.assign"
                    /\ (Ui.checked box = true
                        <-> exists rp,
                              In rp (RolePermissions.rolePermissions s)
                              /\ Api.RP_permission_id rp
                                 = Api.Permission_id permission))
                 boxes shown)
    /\ ((exists p, In p (RolePermissions.permissions s)
                   /\ In (before_dot (Api.Permission_name p)) Object_prototype) ->
        RolePermissions.component hasPermission s
        = Throw (JsError "groups[category].push is not a function")
        /\ RolePermissions.render hasPermission s = []).
Proof.
  intros hasPermission s Hl.
  pose proof (reduce_outcome (RolePermissions.permissions s)) as G.
  unfold RolePermissions.render, RolePermissions.component.
  destruct (RolePermissions.groupPermissionsByCategory _) as [groups | e].
  - destruct G as (Hnone & _ & _ & Hperm & Hent). split.
    + intros _. rewrite Hl.
      destruct (String.eqb (RolePermissions.selectedRole s) "").
      * exists [], []. split; reflexivity.
      * eexists _, (concat (map snd (Object_entries groups))).
        split; [reflexivity |]. split.
        -- rewrite <- Hperm. now apply concat_groups_Permutation.
        -- rewrite flat_map_groups. apply Forall2_map_l. intros permission _.
           unfold RolePermissions.checkbox. cbn.
           repeat (split; [reflexivity |]).
           apply hasRolePermission_listed.
    + intros (p & Hp & Hin). now destruct (Hnone p Hp).
  - destruct G as (-> & p & Hp & Hin). split.
    + intros Hnone. now destruct (Hnone p Hp).
    + intros _. split; reflexivity.
Qed.

Lemma one_checkbox_per_permission_witness :
  exists boxes shown,
    RolePermissions.render (fun _ => true) Sample.manager_screen
    = ([ {| Ui.kind := Ui.Button; Ui.label := "Refresh"; Ui.disabled := false;
            Ui.checked := false; Ui.needs := None |};
         Ui.plain Ui.Select "Select a role" ] ++ boxes)%list
    /\ Permutation shown [Sample.user_read; Sample.role_delete]
    /\ Forall2
         (fun box permission =>
            Ui.kind box = Ui.Checkbox
            /\ Ui.label box
               = "permission-" ++ toString (Api.Permission_id permission)
            /\ Ui.disabled box = false
            /\ Ui.needs box = Some "permission.assign"
            /\ (Ui.checked box = true
                <-> exists rp,
                      In rp [Sample.manager_user_read]
                      /\ Api.RP_permission_id rp = Api.Permission_id permission))
         boxes shown.
Proof.
  apply (proj1 (one_checkbox_per_permission (fun _ => true) Sample.manager_screen
                  eq_refl)).
  intros p [<- | [<- | []]] Hin; apply array_includes_iff in Hin;
    vm_compute in Hin; discriminate Hin.
Defined.

Section ToggleFurther.

Variable baseURL : string.
Context {W : Type}.
Variable fetch : Api.Request -> W -> Api.FetchResult * W.
Variable hasPermission : string -> bool.

Import Api RolePermissions.

(** The toasts of an enabled toggle, and what it leaves of the state. *)
Lemma togglePermission_reports permissionId (c : Cfg State W) :
  selectedRole (st c) <> "" ->
  hasPermission "permission.assign" = true ->
  let s := st c in
  let member := hasRolePermission s permissionId in
  let first :=
    Api.request baseURL fetch "/rolepermissions"
      (only_method (if member then "DELETE" else "POST")
         (Some (AssignmentData (parseInt (selectedRole s)) permissionId)))
      (world c) in
  let out := togglePermission baseURL fetch hasPermission permissionId c in
  fst out = Ok tt
  /\ match fst first with
     | Throw error =>
         toasts (snd out)
         = (toasts c ++
              [ {| title := "Error";
                   description :=
                     or_else (message_of error) "Failed to update permission";
                   variant := Some "destructive" |} ])%list
         /\ changes (st (snd out)) = changes s
     | Ok _ =>
         let success_toast :=
           {| title := "Success";
              description :=
                "Permission " ++ (if member then "removed from" else "added to")
                  ++ " role";
              variant := None |} in
         changes (st (snd out)) = set_add permissionId (changes s)
         /\ match fst (Api.get baseURL fetch
                         ("/rolepermissions/role/" ++ selectedRole s) (snd first)) with
            | Ok _ => toasts (snd out) = (toasts c ++ [success_toast])%list
            | Throw error =>
                toasts (snd out)
                = (toasts c ++
                     [ {| title := "Error";
                          description :=
                            or_else (message_of error)
                              "Failed to fetch role permissions";
                          variant := Some "destructive" |};
                       success_toast ])%list
            end
     end.
Proof.
  intros Hsel Hassign. cbv zeta.
  unfold togglePermission, bind, closure, try_catch.
  destruct (String.eqb_spec (selectedRole (st c)) ""); [contradiction |].
  rewrite Hassign. cbn [orb negb].
  destruct (hasRolePermission (st c) permissionId);
    unfold api_delete, api_post, Api.delete, Api.post;
    rewrite request_pending;
    destruct (Api.request baseURL fetch _ _ (world c)) as [[response | e] w'];
    cbn [fst snd]; unfold ret, toast; cbn [fst snd st world trace toasts];
    try (repeat split; reflexivity).
  all: rewrite fetchRolePermissions_run; cbv zeta;
    cbn [st world trace toasts fst snd];
    unfold set_state; cbn [st world trace toasts fst snd];
    split; [reflexivity |];
    destruct (fst (Api.get baseURL fetch _ w')) as [response' | e'];
    [ destruct (success response' && isArray (data response')) |];
    cbn; rewrite <- ?app_assoc; split; reflexivity.
Qed.

Lemma togglePermission_frame permissionId (c : Cfg State W) :
  let s' := st (snd (togglePermission baseURL fetch hasPermission permissionId c)) in
  roles s' = roles (st c)
  /\ permissions s' = permissions (st c)
  /\ selectedRole s' = selectedRole (st c)
  /\ loading s' = loading (st c)
  /\ saving s' = saving (st c).
Proof.
  cbv zeta. unfold togglePermission, bind, closure, try_catch.
  destruct (String.eqb (selectedRole (st c)) "" || negb (hasPermission "permission.assign"));
    [repeat split |].
  destruct (hasRolePermission (st c) permissionId);
    unfold api_delete, api_post, Api.delete, Api.post;
    rewrite request_pending;
    destruct (Api.request baseURL fetch _ _ (world c)) as [[response | e] w'];
    cbn [fst snd]; unfold ret, toast; cbn [fst snd st world trace toasts];
    try (repeat split; reflexivity).
  all: rewrite fetchRolePermissions_run; cbv zeta;
    cbn [st world trace toasts fst snd];
    unfold set_state; cbn [st world trace toasts fst snd];
    destruct (fst (Api.get baseURL fetch _ w')) as [response' | e'];
    [ destruct (success response' && isArray (data response')) |];
    repeat split.
Qed.

Lemma selectRole_run value (c : Cfg State W) :
  selectRole baseURL fetch value c
  = if String.eqb value (selectedRole (st c)) || String.eqb value "" then
      (Ok tt, mkCfg (setSelectedRole value (st c)) (world c) (trace c) (toasts c))
    else
      fetchRolePermissions baseURL fetch value
        (mkCfg (setSelectedRole value (st c)) (world c) (trace c) (toasts c)).
Proof.
  unfold selectRole, bind, closure, set_state, ret. cbn [st].
  destruct (String.eqb value (selectedRole (st c)) || String.eqb value "");
    reflexivity.
Qed.

End ToggleFurther.

Lemma render_checkboxes_disabled (hasPermission : string -> bool)
    (s : RolePermissions.State) (el : Ui.Control) :
  In el (RolePermissions.render hasPermission s) ->
  Ui.kind el = Ui.Checkbox ->
  Ui.disabled el = negb (hasPermission "permission.assign").
Proof.
  unfold RolePermissions.render, RolePermissions.component.
  destruct (RolePermissions.groupPermissionsByCategory _) as [groups | e];
    [| intros []].
  destruct (RolePermissions.loading s); [intros [] |].
  intros Hin Hk. apply in_app_or in Hin as [Hin | Hin].
  - destruct Hin as [<- | [<- | []]]; discriminate Hk.
  - destruct (String.eqb (RolePermissions.selectedRole s) ""); [destruct Hin |].
    apply in_flat_map in Hin as ([category members] & _ & Hin).
    apply in_map_iff in Hin as (p & <- & _). reflexivity.
Qed.

(** X20.  Without a selected role, or for a user who lacks
    [permission.assign], [togglePermission] is inert: it sends nothing,
    changes nothing on the screen and shows no toast.  For a user who
    lacks [permission.assign], every checkbox that the screen renders is
    moreover disabled. *)
Theorem toggle_inert_when_not_allowed :
  forall (baseURL : string) (W : Type)
         (fetch : Api.Request -> W -> Api.FetchResult * W)
         (hasPermission : string -> bool) (permissionId : Z)
         (c : Cfg RolePermissions.State W),
    RolePermissions.selectedRole (st c) = ""
    \/ hasPermission "permission.assign" = false ->
    RolePermissions.togglePermission baseURL fetch hasPermission permissionId c
    = (Ok tt, c)
    /\ (hasPermission "permission.assign" = false ->
        forall el,
          In el (RolePermissions.render hasPermission (st c)) ->
          Ui.kind el = Ui.Checkbox ->
          Ui.disabled el = true).
Proof.
  intros baseURL W fetch hasPermission permissionId c H.
  split; [now apply togglePermission_disabled |].
  intros Hf el Hin Hk.
  rewrite (render_checkboxes_disabled hasPermission (st c) el Hin Hk).
  now rewrite Hf.
Qed.

Lemma toggle_inert_when_not_allowed_witness :
  RolePermissions.togglePermission Sample.base
    (Backend.fetch Sample.base Sample.role_of Sample.permission_of)
    (AuthContext.hasPermission Sample.bob_session) 7
    (mkCfg Sample.manager_screen Sample.server [] [])
  = (Ok tt, mkCfg Sample.manager_screen Sample.server [] []).
Proof.
  exact (proj1 (toggle_inert_when_not_allowed Sample.base _
                  (Backend.fetch Sample.base Sample.role_of Sample.permission_of)
                  (AuthContext.hasPermission Sample.bob_session) 7
                  (mkCfg Sample.manager_screen Sample.server [] [])
                  (or_intror eq_refl))).
Defined.

(** X21.  An enabled toggle never throws and always ends with a toast.
    When the grant or revoke call throws, the toast is the error toast
    with the error's message (or "Failed to update permission"), and the
    set of changed permissions stays as it was.  When that call returns,
    the permission is added to the set of changed permissions and the
    final toast is the "Success" toast, also when the refetch that
    follows throws; in that case the refetch's own error toast comes
    first.  In every case the roles, the permissions, the selected role
    and the loading and saving flags are left as they were. *)
Theorem toggle_reports :
  forall (baseURL : string) (W : Type)
         (fetch : Api.Request -> W -> Api.FetchResult * W)
         (hasPermission : string -> bool) (permissionId : Z)
         (c : Cfg RolePermissions.State W),
    RolePermissions.selectedRole (st c) <> "" ->
    hasPermission "permission.assign" = true ->
    let s := st c in
    let member := RolePermissions.hasRolePermission s permissionId in
    let first :=
      Api.request baseURL fetch "/rolepermissions"
        (Api.only_method (if member then "DELETE" else "POST")
           (Some (Api.AssignmentData (parseInt (RolePermissions.selectedRole s))
                    permissionId)))
        (world c) in
    let out :=
      RolePermissions.togglePermission baseURL fetch hasPermission permissionId c in
    let s' := st (snd out) in
    fst out = Ok tt
    /\ (RolePermissions.roles s' = RolePermissions.roles s
        /\ RolePermissions.permissions s' = RolePermissions.permissions s
        /\ RolePermissions.selectedRole s' = RolePermissions.selectedRole s
        /\ RolePermissions.loading s' = RolePermissions.loading s
        /\ RolePermissions.saving s' = RolePermissions.saving s)
    /\ match fst first with
       | Throw error =>
           toasts (snd out)
           = (toasts c ++
                [ {| Api.title := "Error";
                     Api.description :=
                       or_else (message_of error) "Failed to update permission";
                     Api.variant := Some "destructive" |} ])%list
           /\ RolePermissions.changes s' = RolePermissions.changes s
       | Ok _ =>
           let success_toast :=
             {| Api.title := "Success";
                Api.description :=
                  "Permission " ++ (if member then "removed from" else "added to")
                    ++ " role";
                Api.variant := None |} in
           RolePermissions.changes s'
           = RolePermissions.set_add permissionId (RolePermissions.changes s)
           /\ match fst (Api.get baseURL fetch
                           ("/rolepermissions/role/"
                              ++ RolePermissions.selectedRole s)
                           (snd first)) with
              | Ok _ => toasts (snd out) = (toasts c ++ [success_toast])%list
              | Throw error =>
                  toasts (snd out)
                  = (toasts c ++
                       [ {| Api.title := "Error";
                            Api.description :=
                              or_else (message_of error)
                                "Failed to fetch role permissions";
                            Api.variant := Some "destructive" |};
                         success_toast ])%list
              end
       end.
Proof.
  intros baseURL W fetch hasPermission permissionId c Hsel Hassign. cbv zeta.
  destruct (togglePermission_reports baseURL fetch hasPermission permissionId c
              Hsel Hassign) as [H1 H2].
  split; [exact H1 |].
  split; [apply togglePermission_frame | exact H2].
Qed.

Lemma toggle_reports_witness :
  map Api.title
      (toasts (snd (RolePermissions.togglePermission Sample.base Sample.scripted
                      (fun _ => true) 7
                      (mkCfg Sample.manager_screen
                         [Sample.answer 200 "OK" (Sample.envelope true "ok" None)]
                         [] []))))
  = ["Error"; "Success"].
Proof.
  pose proof (toggle_reports Sample.base _ Sample.scripted (fun _ => true) 7
                (mkCfg Sample.manager_screen
                   [Sample.answer 200 "OK" (Sample.envelope true "ok" None)] [] [])
                ltac:(discriminate) eq_refl) as H.
  cbv zeta in H. destruct H as (_ & _ & _ & H). now rewrite H.
Defined.

(** X22.  Choosing a role in the selector always makes it the selected
    role.  When it is a new, non-empty choice, exactly one call follows,
    the fetch of that role's rows, and the assignment list is replaced
    by the rows only when that call returns [success] with a list;
    otherwise (the call throws, or the answer is no successful list) the
    list of the role selected before stays on the screen.  Choosing the
    same role again, or none, sends nothing. *)
Theorem selecting_a_role :
  forall (baseURL : string) (W : Type)
         (fetch : Api.Request -> W -> Api.FetchResult * W)
         (value : string) (c : Cfg RolePermissions.State W),
    let out := RolePermissions.selectRole baseURL fetch value c in
    let s' := st (snd out) in
    fst out = Ok tt
    /\ RolePermissions.selectedRole s' = value
    /\ if String.eqb value (RolePermissions.selectedRole (st c))
          || String.eqb value ""
       then sent (snd out) = sent c
            /\ RolePermissions.rolePermissions s'
               = RolePermissions.rolePermissions (st c)
       else
         sent (snd out)
         = (sent c ++ [Api.prepare baseURL ("/rolepermissions/role/" ++ value)
                         (Api.only_method "GET" None)])%list
         /\ RolePermissions.rolePermissions s'
            = match fst (Api.get baseURL fetch ("/rolepermissions/role/" ++ value)
                           (world c)) with
              | Ok response =>
                  if Api.success response && Api.isArray (Api.data response)
                  then AuthContext.data_rows (Api.data response)
                  else RolePermissions.rolePermissions (st c)
              | Throw _ => RolePermissions.rolePermissions (st c)
              end.
Proof.
  intros baseURL W fetch value c. cbv zeta. rewrite selectRole_run.
  destruct (String.eqb value (RolePermissions.selectedRole (st c))
            || String.eqb value "").
  - repeat split.
  - rewrite fetchRolePermissions_run. cbv zeta. cbn [fst snd st world trace].
    unfold sent. cbn [trace]. rewrite map_app. cbn [map fst].
    destruct (fst (Api.get baseURL fetch _ (world c))) as [response |];
      [destruct (Api.success response && Api.isArray (Api.data response)) |];
      repeat split.
Qed.

(** X23.  When the selected role is the decimal rendering of a role id,
    as the selector's items provide it, an enabled toggle whose first
    call returns sends that id as [role_id] and the toggled permission
    as [permission_id] in the body of its grant or revoke, and refetches
    the rows of the same role. *)
Theorem toggle_names_the_selected_role :
  forall (baseURL : string) (W : Type)
         (fetch : Api.Request -> W -> Api.FetchResult * W)
         (hasPermission : string -> bool) (r permissionId : Z)
         (c : Cfg RolePermissions.State W) (response : Api.ApiResponse) (w' : W),
    RolePermissions.selectedRole (st c) = toString r ->
    hasPermission "permission.assign" = true ->
    let m :=
      if RolePermissions.hasRolePermission (st c) permissionId
      then "DELETE" else "POST" in
    let data := Some (Api.AssignmentData (Some r) permissionId) in
    Api.request baseURL fetch "/rolepermissions" (Api.only_method m data) (world c)
    = (Ok response, w') ->
    sent (snd (RolePermissions.togglePermission baseURL fetch hasPermission
                 permissionId c))
    = (sent c ++
         [ Api.prepare baseURL "/rolepermissions" (Api.only_method m data);
           Api.prepare baseURL ("/rolepermissions/role/" ++ toString r)
             (Api.only_method "GET" None) ])%list.
Proof.
  intros baseURL W fetch hasPermission r permissionId c response w' Hsel Hassign.
  cbv zeta. intros Hcall.
  assert (Hne : RolePermissions.selectedRole (st c) <> "")
    by (rewrite Hsel; apply toString_nonempty).
  pose proof (togglePermission_run baseURL fetch hasPermission permissionId c
                Hne Hassign) as H.
  cbv zeta in H. rewrite Hsel, parseInt_toString in H. rewrite Hcall in H.
  cbn [fst snd] in H. destruct H as (Ht & _).
  unfold sent. rewrite Ht, map_app. cbn [map fst].
  unfold RolePermissions.mutation, RolePermissions.refetch.
  now rewrite Hsel, parseInt_toString.
Qed.

Lemma toggle_names_the_selected_role_witness :
  sent (snd (RolePermissions.togglePermission Sample.base
               (Backend.fetch Sample.base Sample.role_of Sample.permission_of)
               (fun _ => true) 1
               (mkCfg Sample.manager_screen Sample.server [] [])))
  = [ Api.prepare Sample.base "/rolepermissions"
        (Api.only_method "DELETE" (Some (Api.AssignmentData (Some 2) 1)));
      Api.prepare Sample.base "/rolepermissions/role/2"
        (Api.only_method "GET" None) ].
Proof.
  exact (toggle_names_the_selected_role Sample.base _
           (Backend.fetch Sample.base Sample.role_of Sample.permission_of)
           (fun _ => true) 2 1
           (mkCfg Sample.manager_screen Sample.server [] [])
           _ _ eq_refl eq_refl eq_refl).
Defined.

(** ** The list screens, further *)

Lemma lower_ascii_app (a b : string) :
  lower_ascii (a ++ b) = lower_ascii a ++ lower_ascii b.
Proof. induction a as [| c a IH]; cbn; [reflexivity | now rewrite IH]. Qed.

Lemma matches_empty (unicode_lower : string -> string) (text : string) :
  Ui.matches unicode_lower "" text = true.
Proof.
  unfold Ui.matches. apply includes_iff.
  now exists "", (toLowerCase unicode_lower text).
Qed.

(** On texts of ASCII characters the search looks for the query in the
    text, the case of the letters A to Z apart. *)
Lemma matches_part (unicode_lower : string -> string)
    (query text pre mid post : string) :
  text = pre ++ mid ++ post ->
  is_ascii text = true ->
  is_ascii query = true ->
  lower_ascii mid = lower_ascii query ->
  Ui.matches unicode_lower query text = true.
Proof.
  intros -> Ht Hq E. unfold Ui.matches, toLowerCase. rewrite Ht, Hq.
  apply includes_iff.
  exists (lower_ascii pre), (lower_ascii post).
  now rewrite !lower_ascii_app, E.
Qed.

(** X24.  With an empty search box the Users, Roles and Permissions
    screens filter nothing out: the rows shown are all the rows
    fetched. *)
Theorem empty_search_shows_everything :
  forall unicode_lower : string -> string,
    (forall s, Users.searchQuery s = "" ->
               Users.filteredUsers unicode_lower s = Users.users s)
    /\ (forall s, Roles.searchQuery s = "" ->
                  Roles.filteredRoles unicode_lower s = Roles.roles s)
    /\ (forall s, Permissions.searchQuery s = "" ->
                  Permissions.filteredPermissions unicode_lower s
                  = Permissions.permissions s).
Proof.
  intros unicode_lower.
  split; [| split]; intros s E.
  - unfold Users.filteredUsers. rewrite E. apply filter_all.
    apply Forall_forall. intros u _. now rewrite matches_empty.
  - unfold Roles.filteredRoles. rewrite E. apply filter_all.
    apply Forall_forall. intros u _. now rewrite matches_empty.
  - unfold Permissions.filteredPermissions. rewrite E. apply filter_all.
    apply Forall_forall. intros u _. now rewrite matches_empty.
Qed.

Lemma empty_search_shows_everything_witness :
  Users.filteredUsers (fun text => text)
    (Users.mkState [Sample.alice; Sample.bob] false "")
  = [Sample.alice; Sample.bob].
Proof.
  exact (proj1 (empty_search_shows_everything (fun text => text))
           (Users.mkState [Sample.alice; Sample.bob] false "") eq_refl).
Defined.

(** X25.  When the query and a field are texts of ASCII characters,
    the search of the Users screen finds a user by any part of that
    field (the name, the email or the role name), whatever the case of
    the letters typed: a fetched user one of whose three fields contains
    a piece equal to the query up to the case of the letters A to Z is
    among the rows shown.  Nothing is shown that was not fetched,
    whatever the texts. *)
Theorem user_search_finds_by_part :
  forall (unicode_lower : string -> string)
         (s : Users.State) (u : Api.User) (field pre mid post : string),
    In u (Users.users s) ->
    field = Api.User_name u \/ field = Api.User_email u
    \/ field = Api.Role_name (Api.User_role u) ->
    field = pre ++ mid ++ post ->
    is_ascii field = true ->
    is_ascii (Users.searchQuery s) = true ->
    lower_ascii mid = lower_ascii (Users.searchQuery s) ->
    In u (Users.filteredUsers unicode_lower s)
    /\ incl (Users.filteredUsers unicode_lower s) (Users.users s).
Proof.
  intros unicode_lower s u field pre mid post Hin Hfield Hparts Hf Hq Hcase.
  split.
  - unfold Users.filteredUsers. apply filter_In. split; [exact Hin |].
    pose proof (matches_part unicode_lower (Users.searchQuery s) field pre mid
                  post Hparts Hf Hq Hcase) as Hm.
    destruct Hfield as [-> | [-> | ->]]; rewrite Hm; cbn;
      rewrite ?orb_true_r; reflexivity.
  - intros x Hx. unfold Users.filteredUsers in Hx. now apply filter_In in Hx.
Qed.

Lemma user_search_finds_by_part_witness :
  In Sample.bob
     (Users.filteredUsers (fun text => text)
        (Users.mkState [Sample.alice; Sample.bob] false "MANAG")).
Proof.
  exact (proj1 (user_search_finds_by_part (fun text => text)
                  (Users.mkState [Sample.alice; Sample.bob] false "MANAG")
                  Sample.bob "Manager" "" "Manag" "er"
                  (or_intror (or_introl eq_refl))
                  (or_intror (or_intror eq_refl)) eq_refl eq_refl eq_refl
                  eq_refl)).
Defined.

(** X26.  On the Roles screen the menu of a role offers "Delete role"
    exactly when the user holds [role.delete] and the role is named
    neither "Super Admin" nor "Admin": the two administrative roles can
    never be deleted from the screen, whatever the user's
    permissions. *)
Theorem admin_roles_cannot_be_deleted :
  forall (hasPermission : string -> bool) (role : Api.Role),
    In (Ui.gated "role.delete" Ui.MenuItem "Delete role")
       (Roles.row hasPermission role)
    <-> hasPermission "role.delete" = true
        /\ Api.Role_name role <> "Super Admin"
        /\ Api.Role_name role <> "Admin".
Proof.
  intros hasPermission role. unfold Roles.row, array_includes. cbn [existsb].
  rewrite orb_false_r.
  destruct (String.eqb_spec (Api.Role_name role) "Super Admin") as [E1 | N1];
    destruct (String.eqb_spec (Api.Role_name role) "Admin") as [E2 | N2];
    destruct (hasPermission "role.update"), (hasPermission "role.delete");
    cbn; split;
    try (intros H;
         repeat (destruct H as [H | H]; [discriminate H |]);
         try contradiction; fail);
    try (intros (H & H1 & H2); try discriminate H; congruence);
    try (intros _; repeat split; assumption);
    try (intros _; auto 10).
Qed.

Lemma when_incl (c c' : bool) (x : Ui.Control) :
  (c = true -> c' = true) -> incl (Ui.when c x) (Ui.when c' x).
Proof.
  intros H. destruct c; [| intros y []]. rewrite (H eq_refl). apply incl_refl.
Qed.

Lemma flat_map_incl {A B} (f g : A -> list B) (l : list A) :
  (forall a, incl (f a) (g a)) -> incl (flat_map f l) (flat_map g l).
Proof.
  intros H y Hy. apply in_flat_map in Hy as (a & Ha & Hy).
  apply in_flat_map. exists a. split; [exact Ha | now apply H].
Qed.

(** X27.  On the Users, Roles and Permissions screens more permissions
    never take a control away: every control rendered for a user is
    also rendered for a user who holds at least the same
    permissions. *)
Theorem more_permissions_more_controls :
  forall (unicode_lower : string -> string)
         (hasPermission hasPermission' : string -> bool),
    (forall p, hasPermission p = true -> hasPermission' p = true) ->
    (forall s, incl (Users.render unicode_lower hasPermission s)
                    (Users.render unicode_lower hasPermission' s))
    /\ (forall s, incl (Roles.render unicode_lower hasPermission s)
                       (Roles.render unicode_lower hasPermission' s))
    /\ (forall s, incl (Permissions.render unicode_lower hasPermission s)
                       (Permissions.render unicode_lower hasPermission' s)).
Proof.
  intros unicode_lower hp hp' Hle.
  split; [| split]; intros s.
  - unfold Users.render. destruct (Users.loading s); [apply incl_refl |].
    apply incl_app_app; [apply when_incl, Hle |].
    apply incl_app_app; [apply incl_refl |].
    apply flat_map_incl. intros u. unfold Users.row.
    repeat (apply incl_app_app; [try apply incl_refl; try (apply when_incl, Hle) |]).
    apply when_incl, Hle.
  - unfold Roles.render. destruct (Roles.loading s); [apply incl_refl |].
    apply incl_app_app; [apply when_incl, Hle |].
    apply incl_app_app; [apply incl_refl |].
    apply flat_map_incl. intros u. unfold Roles.row.
    repeat (apply incl_app_app; [try apply incl_refl; try (apply when_incl, Hle) |]).
    apply when_incl. intros H. apply andb_prop in H as [H1 H2].
    now rewrite (Hle _ H1), H2.
  - unfold Permissions.render. destruct (Permissions.loading s); [apply incl_refl |].
    apply incl_app_app; [apply when_incl, Hle |].
    apply incl_app_app; [apply incl_refl |].
    apply flat_map_incl. intros u. unfold Permissions.row.
    repeat (apply incl_app_app; [try apply incl_refl; try (apply when_incl, Hle) |]).
    apply when_incl, Hle.
Qed.

Lemma more_permissions_more_controls_witness :
  incl (Users.render (fun text => text) (fun _ => false)
          (Users.mkState [Sample.bob] false ""))
       (Users.render (fun text => text) (fun _ => true)
          (Users.mkState [Sample.bob] false "")).
Proof.
  exact (proj1 (more_permissions_more_controls (fun text => text)
                  (fun _ => false) (fun _ => true) (fun _ _ => eq_refl))
               (Users.mkState [Sample.bob] false "")).
Defined.

(** ** The dashboard *)

(** X28.  Whatever subset of the three read permissions the user holds,
    the positions that [fetchDashboardData] computes point at the right
    outcomes: in the array of [Promise.allSettled], [userIndex] is the
    place of the call to [/users], [roleIndex] that of the call to
    [/roles] and [permissionIndex] that of the call to [/permissions],
    for each kind the user may read; and no call is made for a kind the
    user may not read. *)
Theorem dashboard_indexes_match_calls :
  forall (hasPermission : string -> bool) (settle : string -> Dashboard.Settled),
    let results := map settle (Dashboard.promises hasPermission) in
    (hasPermission "user.read" = true ->
     nth_error results Dashboard.userIndex = Some (settle "/users"))
    /\ (hasPermission "role.read" = true ->
        nth_error results (Dashboard.roleIndex hasPermission)
        = Some (settle "/roles"))
    /\ (hasPermission "permission.read" = true ->
        nth_error results (Dashboard.permissionIndex hasPermission)
        = Some (settle "/permissions"))
    /\ (forall endpoint,
           In endpoint (Dashboard.promises hasPermission) ->
           (endpoint = "/users" /\ hasPermission "user.read" = true)
           \/ (endpoint = "/roles" /\ hasPermission "role.read" = true)
           \/ (endpoint = "/permissions" /\ hasPermission "permission.read" = true)).
Proof.
  intros hp settle. cbv zeta.
  unfold Dashboard.promises, Dashboard.userIndex, Dashboard.roleIndex,
    Dashboard.permissionIndex.
  destruct (hp "user.read"), (hp "role.read"), (hp "permission.read"); cbn;
    repeat split; try discriminate; try reflexivity;
    intros endpoint H; repeat (destruct H as [<- | H]; [auto 6 |]); destruct H.
Qed.

Lemma dashboard_indexes_match_calls_witness :
  nth_error
    (map (fun e => Dashboard.Rejected (JsError e))
       (Dashboard.promises (fun p => String.eqb p "permission.read")))
    (Dashboard.permissionIndex (fun p => String.eqb p "permission.read"))
  = Some (Dashboard.Rejected (JsError "/permissions")).
Proof.
  exact (proj1 (proj2 (proj2
           (dashboard_indexes_match_calls
              (fun p => String.eqb p "permission.read")
              (fun e => Dashboard.Rejected (JsError e))))) eq_refl).
Defined.

Section DashboardFacts.

Variable hasPermission : string -> bool.
Variable settle : string -> Dashboard.Settled.

Import Dashboard.

(** What one call contributes: its list, when the user may read the
    kind and the call was fulfilled with [success]. *)
Local Abbreviation listed p endpoint :=
  (if hasPermission p then
     match settle endpoint with
     | Fulfilled v => if success v then data v else Some []
     | Rejected _ => Some []
     end
   else Some []).

Lemma newStats_run :
  newStats hasPermission (map settle (promises hasPermission))
  = match listed "user.read" "/users", listed "role.read" "/roles",
          listed "permission.read" "/permissions" with
    | Some us, Some rs, Some ps =>
        Ok (mkStats (length us) (length rs) (length ps) (length (filter active us)))
    | _, _, _ =>
        Throw (JsError "Cannot read properties of undefined (reading 'length')")
    end.
Proof.
  unfold newStats, promises, userIndex, roleIndex, permissionIndex, fulfilled,
    data_of.
  destruct (hasPermission "user.read"), (hasPermission "role.read"),
    (hasPermission "permission.read"); cbn;
    repeat match goal with
      | |- context [settle ?e] =>
          destruct (settle e) as [[[] [?|]] | ?]; cbn
      end; reflexivity.
Qed.

End DashboardFacts.

(** X29.  [fetchDashboardData] always ends with [loading] false.  Each
    statistic comes from the call of its own kind: the number of users
    and of active users from [/users], of roles from [/roles], of
    permissions from [/permissions], counted when the user may read the
    kind and the call was fulfilled with [success], and 0 otherwise; the
    active users never outnumber the users.  But when a call that counts
    was fulfilled with [success] and no [data], none of the statistics
    is updated. *)
Theorem dashboard_statistics :
  forall (hasPermission : string -> bool) (settle : string -> Dashboard.Settled)
         (s : Dashboard.State),
    let listed p endpoint :=
      if hasPermission p then
        match settle endpoint with
        | Dashboard.Fulfilled v =>
            if Dashboard.success v then Dashboard.data v else Some []
        | Dashboard.Rejected _ => Some []
        end
      else Some [] in
    let s' := Dashboard.fetchDashboardData hasPermission settle s in
    Dashboard.loading s' = false
    /\ match listed "user.read" "/users", listed "role.read" "/roles",
             listed "permission.read" "/permissions" with
       | Some us, Some rs, Some ps =>
           Dashboard.stats s'
           = Dashboard.mkStats (length us) (length rs) (length ps)
               (length (filter Dashboard.active us))
           /\ (Dashboard.activeUsers (Dashboard.stats s')
               <= Dashboard.totalUsers (Dashboard.stats s'))%nat
       | _, _, _ => Dashboard.stats s' = Dashboard.stats s
       end.
Proof.
  intros hp settle s. cbv zeta. unfold Dashboard.fetchDashboardData.
  rewrite newStats_run. split; [reflexivity |].
  destruct (if hp "user.read" then _ else _) as [us |]; [| reflexivity].
  destruct (if hp "role.read" then _ else _) as [rs |]; [| reflexivity].
  destruct (if hp "permission.read" then _ else _) as [ps |]; [| reflexivity].
  cbn. split; [reflexivity | apply filter_length_le].
Qed.

(** X30.  The dashboard fetches its statistics once, with the
    permissions held at its first render, and renders its cards with the
    permissions of the render at hand.  Mounted while no permission is
    held (as on a fresh load, where the store starts without any), it
    makes no call and sets every statistic to 0; the cards that show
    once the permissions have arrived all show 0. *)
Theorem dashboard_mounted_without_permissions :
  forall (at_mount now : string -> bool) (settle : string -> Dashboard.Settled)
         (s : Dashboard.State),
    (forall p, at_mount p = false) ->
    let s' := Dashboard.fetchDashboardData at_mount settle s in
    Dashboard.promises at_mount = []
    /\ Dashboard.stats s' = Dashboard.mkStats 0 0 0 0
    /\ Dashboard.loading s' = false
    /\ (forall card, In card (Dashboard.statCards now s') -> snd card = Some 0%nat)
    /\ (In ("Total Users", Some 0%nat) (Dashboard.statCards now s')
        <-> now "user.read" = true).
Proof.
  intros at_mount now settle s Hnone. cbv zeta.
  assert (Hs : Dashboard.fetchDashboardData at_mount settle s
               = Dashboard.mkState (Dashboard.mkStats 0 0 0 0) false).
  { unfold Dashboard.fetchDashboardData, Dashboard.newStats, Dashboard.promises.
    now rewrite !Hnone. }
  rewrite Hs. unfold Dashboard.promises, Dashboard.statCards. rewrite !Hnone.
  cbn [Dashboard.loading Dashboard.stats Dashboard.totalUsers
       Dashboard.activeUsers Dashboard.totalRoles Dashboard.totalPermissions].
  split; [reflexivity |]. split; [reflexivity |]. split; [reflexivity |].
  split.
  - intros card Hin.
    destruct (now "user.read"), (now "role.read"), (now "permission.read");
      cbn in Hin;
      repeat (destruct Hin as [<- | Hin]; [reflexivity |]); destruct Hin.
  - destruct (now "user.read"); [split; intros _; [reflexivity | now left] |].
    split; [| discriminate].
    intros H. exfalso.
    destruct (now "role.read"), (now "permission.read"); cbn in H;
      repeat (destruct H as [H | H]; [discriminate H |]); exact H.
Qed.

Lemma dashboard_mounted_without_permissions_witness :
  let s' :=
    Dashboard.fetchDashboardData (AuthContext.hasPermission AuthContext.initial)
      (fun _ => Dashboard.Fulfilled
                  (Dashboard.mkValue true
                     (Some [Dashboard.mkEntry true; Dashboard.mkEntry false])))
      Dashboard.initial in
  Dashboard.promises (AuthContext.hasPermission AuthContext.initial) = []
  /\ Dashboard.statCards (AuthContext.hasPermission Sample.bob_session) s'
     = [("Total Users", Some 0%nat); ("Active Users", Some 0%nat)].
Proof.
  pose proof (dashboard_mounted_without_permissions
                (AuthContext.hasPermission AuthContext.initial)
                (AuthContext.hasPermission Sample.bob_session)
                (fun _ => Dashboard.Fulfilled
                            (Dashboard.mkValue true
                               (Some [Dashboard.mkEntry true;
                                      Dashboard.mkEntry false])))
                Dashboard.initial (fun _ => eq_refl)) as H.
  cbv zeta in H. destruct H as (H1 & _). split; [exact H1 | reflexivity].
Defined.
